(** * Ren-C runtime: a shallow embedding of selected core routines

    The development follows the C sources of the interpreter: the series
    expansion routine of %m-pools.c, the TYPESET!, MONEY!, OBJECT! and PORT!
    datatype modules, the truth test of %sys-value.h, the console loop of
    %host-main.c and the SAVE mezzanine.  Fallible routines return a
    [Result]; machine integers are [Z] with their wrap-around written out.

    A second group of modules covers the routines around these: the
    EVENT! accessors and voidification of %sys-value.h, the bias,
    remaking and tracking of series, the other verbs of MONEY!, the
    construction of typesets, context equality as a relation, META-OF
    and SET-META, the port dispatcher, character picking on words, the
    console loop over many passes with its signal handling, and what
    SAVE writes. *)

From Stdlib Require Import ZArith Lia Bool List String.
From stdpp Require Import base option list gmap.

(** ** Shared vocabulary *)

(** The error conditions raised through [fail (...)] by the modelled code. *)
Inductive Reb_Error : Type :=
| Error_Past_End_Raw
| Error_Locked_Series_Raw
| Error_No_Memory (bytes : Z)
| Error_Invalid
| Error_Bad_Make
| Error_Math_Args
| Error_Illegal_Action
| Error_Bad_Refines_Raw
| Error_Void_Conditional_Raw
| Error_Zero_Divide
| Error_Overflow.

(** Outcome of a routine: a normal return, a [fail], or an execution that
    leaves defined C behaviour (an access outside an allocation, a read of
    a union member that was not the one written). *)
Inductive Result (A : Type) : Type :=
| Ok (a : A)
| Fail (e : Reb_Error)
| Undefined.

Arguments Ok {A} a.
Arguments Fail {A} e.
Arguments Undefined {A}.

Definition bind {A B : Type} (m : Result A) (k : A -> Result B) : Result B :=
  match m with
  | Ok a => k a
  | Fail e => Fail e
  | Undefined => Undefined
  end.

Notation "'let*' x := m 'in' k" := (bind m (fun x => k))
  (at level 10, x name, m at level 100, k at level 200).

Lemma bind_Ok {A B : Type} (m : Result A) (k : A -> Result B) (b : B) :
  bind m k = Ok b -> exists a, m = Ok a /\ k a = Ok b.
Proof. destruct m; cbn; [eauto | done | done]. Qed.

(** [enum Reb_Kind]: [REB_0], the fifty datatypes (those for which
    %base-defs.r defines a type test) and [REB_MAX_NULLED], the pseudo-kind
    of a nulled cell.  The order of the constructors carries no meaning:
    the numbers of the enum come from a generated header and are a
    parameter wherever a routine uses them. *)
Inductive Reb_Kind : Type :=
| REB_0 | REB_ACTION | REB_WORD | REB_SET_WORD | REB_GET_WORD | REB_LIT_WORD
| REB_REFINEMENT | REB_ISSUE | REB_GROUP | REB_BLOCK | REB_BINARY | REB_TEXT
| REB_OBJECT | REB_FRAME | REB_MODULE | REB_ERROR | REB_PORT
| REB_BAR | REB_LIT_BAR | REB_VOID | REB_BLANK | REB_LOGIC
| REB_INTEGER | REB_DECIMAL | REB_PERCENT | REB_MONEY | REB_CHAR | REB_TUPLE
| REB_DATATYPE | REB_TYPESET | REB_GOB | REB_EVENT | REB_HANDLE
| REB_PAIR | REB_TIME | REB_DATE | REB_FILE | REB_EMAIL | REB_URL | REB_TAG
| REB_BITSET | REB_IMAGE | REB_VECTOR | REB_PATH | REB_SET_PATH
| REB_GET_PATH | REB_LIT_PATH | REB_MAP | REB_VARARGS | REB_STRUCT
| REB_LIBRARY
| REB_MAX_NULLED.

#[global] Instance Reb_Kind_eq_dec : EqDecision Reb_Kind.
Proof. solve_decision. Defined.

Definition kind_eqb (a b : Reb_Kind) : bool := bool_decide (a = b).

(** Decide the kind tests on constructors that occur in the goal. *)
Ltac kind_tests :=
  repeat match goal with
         | |- context [kind_eqb ?a ?b] =>
             let v := eval vm_compute in (kind_eqb a b) in
             change (kind_eqb a b) with v
         end.

(** Unsigned wrap-around of the C integer types. *)
Definition u32 (x : Z) : Z := (x mod 2 ^ 32)%Z.
Definition u64 (x : Z) : Z := (x mod 2 ^ 64)%Z.

(** ** TYPESET! (%t-typeset.c) *)

Module Typeset.

Local Open Scope Z_scope.

(** The payload union of a cell, as far as this module reads it:
    [payload.typeset.bits] or [payload.datatype.kind]. *)
Inductive Payload : Type :=
| P_typeset (bits : Z)
| P_datatype (kind : Reb_Kind)
| P_none.

Record REBVAL : Type := mkVal { header_kind : Reb_Kind; payload : Payload }.

Definition VAL_TYPE (v : REBVAL) : Reb_Kind := header_kind v.
Definition IS_DATATYPE (v : REBVAL) : bool := kind_eqb (VAL_TYPE v) REB_DATATYPE.
Definition IS_TYPESET (v : REBVAL) : bool := kind_eqb (VAL_TYPE v) REB_TYPESET.

(** [VAL_TYPESET_BITS(v)] as an rvalue: reading the typeset member of the
    union when another member was written is not defined. *)
Definition VAL_TYPESET_BITS (v : REBVAL) : Result Z :=
  match payload v with
  | P_typeset b => Ok b
  | _ => Undefined
  end.

(** [VAL_TYPESET_BITS(v) = b]: the header is left as it is. *)
Definition SET_VAL_TYPESET_BITS (v : REBVAL) (b : Z) : REBVAL :=
  {| header_kind := header_kind v; payload := P_typeset b |}.

(** [VAL_TYPE_KIND(v)] is [(v)->payload.datatype.kind]. *)
Definition VAL_TYPE_KIND (v : REBVAL) : Result Reb_Kind :=
  match payload v with
  | P_datatype k => Ok k
  | _ => Undefined
  end.

(** [Init_Typeset(out, bits, NULL)] and the cells of the other kinds. *)
Definition Init_Typeset (bits : Z) : REBVAL :=
  {| header_kind := REB_TYPESET; payload := P_typeset bits |}.
Definition Init_Datatype (k : Reb_Kind) : REBVAL :=
  {| header_kind := REB_DATATYPE; payload := P_datatype k |}.
Definition Init_Bar : REBVAL :=
  {| header_kind := REB_BAR; payload := P_none |}.

(** The verbs the dispatcher switches on; every other symbol is [SYM_other]. *)
Inductive REBSYM : Type :=
| SYM_FIND | SYM_INTERSECT | SYM_UNION | SYM_DIFFERENCE | SYM_COMPLEMENT
| SYM_other.

(** What a dispatcher hands back: the output cell, or [nullptr]. *)
Inductive REB_R : Type :=
| R_OUT (out : REBVAL)
| R_NULL.

Section Dispatch.

(** The numbering of [enum Reb_Kind] comes from a generated header; it is
    a parameter here. *)
Variable kind_num : Reb_Kind -> Z.

(** [#define FLAGIT_KIND(t) (cast(REBU64, 1) << (t))] *)
Definition FLAGIT_KIND (t : Reb_Kind) : Z := u64 (Z.shiftl 1 (kind_num t)).

(** Modelled from the spec: the TYPE_CHECK macro of %sys-typeset.h is not
    in the tree; "find(typeset, type) is true iff that type's bit is set". *)
Definition TYPE_CHECK (v : REBVAL) (k : Reb_Kind) : Result bool :=
  let* bits := VAL_TYPESET_BITS v in
  Ok (negb (Z.land bits (FLAGIT_KIND k) =? 0)).

(** [REBTYPE(Typeset)]: [val] is [D_ARG(1)], [arg] is [D_ARG(2)] when the
    frame has a second argument and [NULL] otherwise. *)
Definition T_Typeset (verb : REBSYM) (val : REBVAL) (arg : option REBVAL)
  : Result REB_R :=
  match verb with
  | SYM_FIND =>
      match arg with
      | None => Undefined
      | Some arg =>
          if negb (IS_DATATYPE arg) then Fail Error_Invalid
          else
            let* k := VAL_TYPE_KIND arg in
            let* found := TYPE_CHECK val k in
            if found then Ok (R_OUT Init_Bar) else Ok R_NULL
      end
  | SYM_INTERSECT | SYM_UNION | SYM_DIFFERENCE =>
      match arg with
      | None => Undefined
      | Some arg0 =>
          let* arg := (if IS_DATATYPE arg0
                 then Ok (SET_VAL_TYPESET_BITS arg0
                            (FLAGIT_KIND (VAL_TYPE arg0)))
                 else if negb (IS_TYPESET arg0) then Fail Error_Invalid
                 else Ok arg0) in
          let* a := VAL_TYPESET_BITS val in
          let* b := VAL_TYPESET_BITS arg in
          match verb with
          | SYM_UNION => Ok (R_OUT (SET_VAL_TYPESET_BITS val (Z.lor a b)))
          | SYM_INTERSECT => Ok (R_OUT (SET_VAL_TYPESET_BITS val (Z.land a b)))
          | _ => Ok (R_OUT (SET_VAL_TYPESET_BITS val (Z.lxor a b)))
          end
      end
  | SYM_COMPLEMENT =>
      let* a := VAL_TYPESET_BITS val in
      Ok (R_OUT (SET_VAL_TYPESET_BITS val (u64 (Z.lnot a))))
  | SYM_other => Fail Error_Illegal_Action
  end.

(** The promotion the sibling code performs for a DATATYPE! argument
    (%t-object.c, COPY/TYPES): [FLAGIT_KIND(VAL_TYPE_KIND(ARG(kinds)))]. *)
Definition singleton_of_represented (k : Reb_Kind) : Z := FLAGIT_KIND k.

(** *** Properties *)

Lemma T_Typeset_union (A B : Z) :
  T_Typeset SYM_UNION (Init_Typeset A) (Some (Init_Typeset B))
  = Ok (R_OUT (Init_Typeset (Z.lor A B))).
Proof. reflexivity. Qed.

Lemma T_Typeset_intersect (A B : Z) :
  T_Typeset SYM_INTERSECT (Init_Typeset A) (Some (Init_Typeset B))
  = Ok (R_OUT (Init_Typeset (Z.land A B))).
Proof. reflexivity. Qed.

Lemma T_Typeset_difference (A B : Z) :
  T_Typeset SYM_DIFFERENCE (Init_Typeset A) (Some (Init_Typeset B))
  = Ok (R_OUT (Init_Typeset (Z.lxor A B))).
Proof. reflexivity. Qed.

Lemma u64_lnot_testbit (A i : Z) :
  0 <= i < 64 -> Z.testbit (u64 (Z.lnot A)) i = negb (Z.testbit A i).
Proof.
  intros Hi. unfold u64.
  rewrite Z.mod_pow2_bits_low by lia.
  apply Z.lnot_spec; lia.
Qed.

Lemma T_Typeset_complement (A : Z) :
  exists C, T_Typeset SYM_COMPLEMENT (Init_Typeset A) None
            = Ok (R_OUT (Init_Typeset C))
            /\ 0 <= C < 2 ^ 64
            /\ forall i, 0 <= i < 64 -> Z.testbit C i = negb (Z.testbit A i).
Proof.
  exists (u64 (Z.lnot A)). split; [reflexivity|]. split.
  - unfold u64. apply Z.mod_pos_bound. lia.
  - intros i Hi. by apply u64_lnot_testbit.
Qed.

Lemma FLAGIT_KIND_testbit (k : Reb_Kind) (i : Z) :
  0 <= kind_num k < 64 -> 0 <= i ->
  Z.testbit (FLAGIT_KIND k) i = bool_decide (i = kind_num k).
Proof.
  intros Hk Hi. unfold FLAGIT_KIND, u64.
  rewrite Z.shiftl_1_l.
  rewrite Z.mod_small.
  2:{ split; [lia|]. apply Z.pow_lt_mono_r; lia. }
  case_bool_decide as E.
  - subst. apply Z.pow2_bits_true. lia.
  - apply Z.pow2_bits_false. lia.
Qed.

Lemma land_FLAGIT_KIND (bits : Z) (k : Reb_Kind) :
  0 <= kind_num k < 64 ->
  negb (Z.land bits (FLAGIT_KIND k) =? 0) = Z.testbit bits (kind_num k).
Proof.
  intros Hk.
  destruct (Z.testbit bits (kind_num k)) eqn:Hb.
  - apply negb_true_iff, Z.eqb_neq. intros H0.
    assert (Ht : Z.testbit (Z.land bits (FLAGIT_KIND k)) (kind_num k) = true).
    { rewrite Z.land_spec, Hb, FLAGIT_KIND_testbit by lia.
      by rewrite bool_decide_eq_true_2. }
    rewrite H0, Z.bits_0 in Ht. discriminate.
  - apply negb_false_iff, Z.eqb_eq. apply Z.bits_inj'. intros i Hi.
    rewrite Z.land_spec, Z.bits_0, FLAGIT_KIND_testbit by lia.
    case_bool_decide as E; [subst; by rewrite Hb | apply andb_false_r].
Qed.

Lemma T_Typeset_find (bits : Z) (k : Reb_Kind) :
  0 <= kind_num k < 64 ->
  T_Typeset SYM_FIND (Init_Typeset bits) (Some (Init_Datatype k))
  = if Z.testbit bits (kind_num k) then Ok (R_OUT Init_Bar) else Ok R_NULL.
Proof.
  intros Hk. cbn. rewrite land_FLAGIT_KIND by done.
  by destruct (Z.testbit bits (kind_num k)).
Qed.

Lemma FLAGIT_KIND_inj (a b : Reb_Kind) :
  0 <= kind_num a < 64 -> 0 <= kind_num b < 64 ->
  FLAGIT_KIND a = FLAGIT_KIND b -> kind_num a = kind_num b.
Proof.
  intros Ha Hb Heq.
  assert (Hbit : Z.testbit (FLAGIT_KIND b) (kind_num a) = true).
  { rewrite <- Heq, FLAGIT_KIND_testbit by lia. by apply bool_decide_eq_true_2. }
  rewrite FLAGIT_KIND_testbit in Hbit by lia.
  by apply bool_decide_eq_true_1 in Hbit.
Qed.

(** With the empty typeset on the left, the union with a DATATYPE! cell
    is not the singleton of the represented kind, unless that kind is
    DATATYPE! itself. *)
Lemma T_Typeset_union_datatype_differs (k : Reb_Kind) :
  0 <= kind_num k < 64 -> 0 <= kind_num REB_DATATYPE < 64 ->
  kind_num k <> kind_num REB_DATATYPE ->
  T_Typeset SYM_UNION (Init_Typeset 0) (Some (Init_Datatype k))
  <> Ok (R_OUT (Init_Typeset (singleton_of_represented k))).
Proof.
  intros Hk Hd Hne. cbn. intros [= Heq]. apply Hne. symmetry.
  by apply FLAGIT_KIND_inj.
Qed.

(** C2 (evaluation at the failing input).  When the second argument of
    UNION, INTERSECT or DIFFERENCE is a DATATYPE! cell, the bit the
    dispatcher sets for it is the bit of the cell's own kind, DATATYPE!,
    whatever kind [k] the datatype represents: the typeset it combines with
    is [FLAGIT_KIND(REB_DATATYPE)], not the singleton of [k]. *)
Theorem T_Typeset_datatype_arg_promotion (A : Z) (k : Reb_Kind) :
  T_Typeset SYM_UNION (Init_Typeset A) (Some (Init_Datatype k))
  = Ok (R_OUT (Init_Typeset (Z.lor A (FLAGIT_KIND REB_DATATYPE))))
  /\ T_Typeset SYM_INTERSECT (Init_Typeset A) (Some (Init_Datatype k))
  = Ok (R_OUT (Init_Typeset (Z.land A (FLAGIT_KIND REB_DATATYPE))))
  /\ T_Typeset SYM_DIFFERENCE (Init_Typeset A) (Some (Init_Datatype k))
  = Ok (R_OUT (Init_Typeset (Z.lxor A (FLAGIT_KIND REB_DATATYPE)))).
Proof. repeat split. Qed.

End Dispatch.

End Typeset.

(** ** Conditional truth (%sys-value.h) *)

Module Truthy.

(** The part of a cell header the truth test reads: the kind byte and
    [VALUE_FLAG_FALSEY]; [persist] stands for the bits [CELL_MASK_PERSIST]
    keeps across a reset. *)
Record RELVAL : Type := mkCell {
  kind_byte : Reb_Kind;
  flag_falsey : bool;
  flag_unevaluated : bool;
  persist : Z
}.

(** The [extra] argument of [RESET_CELL_EXTRA], as the set of value flags
    it carries. *)
Record Extra_Flags : Type := mkExtra {
  VALUE_FLAG_FALSEY : bool;
  VALUE_FLAG_UNEVALUATED : bool
}.

Definition no_flags : Extra_Flags := mkExtra false false.

(** [RESET_CELL_EXTRA(out, kind, extra)]: the header keeps only its
    persistent bits, then receives the kind byte and the extra flags. *)
Definition RESET_CELL_EXTRA (out : RELVAL) (kind : Reb_Kind)
    (extra : Extra_Flags) : RELVAL :=
  {| kind_byte := kind;
     flag_falsey := VALUE_FLAG_FALSEY extra;
     flag_unevaluated := VALUE_FLAG_UNEVALUATED extra;
     persist := persist out |}.

Definition RESET_CELL (out : RELVAL) (kind : Reb_Kind) : RELVAL :=
  RESET_CELL_EXTRA out kind no_flags.

Definition Init_Nulled (out : RELVAL) : RELVAL :=
  RESET_CELL_EXTRA out REB_MAX_NULLED (mkExtra true false).

Definition Init_Endish_Nulled (out : RELVAL) : RELVAL :=
  RESET_CELL_EXTRA out REB_MAX_NULLED (mkExtra true true).

Definition Init_Void (out : RELVAL) : RELVAL := RESET_CELL out REB_VOID.

Definition Init_Blank (out : RELVAL) : RELVAL :=
  RESET_CELL_EXTRA out REB_BLANK (mkExtra true false).

Definition Init_Logic (out : RELVAL) (b : bool) : RELVAL :=
  RESET_CELL_EXTRA out REB_LOGIC
    (if b then no_flags else mkExtra true false).

Definition Init_Integer (out : RELVAL) : RELVAL := RESET_CELL out REB_INTEGER.

Definition VAL_TYPE (v : RELVAL) : Reb_Kind := kind_byte v.
Definition GET_VAL_FLAG_FALSEY (v : RELVAL) : bool := flag_falsey v.
Definition IS_VOID (v : RELVAL) : bool := kind_eqb (VAL_TYPE v) REB_VOID.

(** [IS_TRUTHY]: the falsey bit first, then the VOID! test. *)
Definition IS_TRUTHY (v : RELVAL) : Result bool :=
  if GET_VAL_FLAG_FALSEY v then Ok false
  else if IS_VOID v then Fail Error_Void_Conditional_Raw
  else Ok true.

Definition IS_FALSEY (v : RELVAL) : Result bool :=
  let* t := IS_TRUTHY v in Ok (negb t).

(** *** Properties *)

Lemma IS_TRUTHY_true_logic (out : RELVAL) :
  IS_TRUTHY (Init_Logic out true) = Ok true.
Proof. reflexivity. Qed.

Lemma IS_TRUTHY_integer (out : RELVAL) :
  IS_TRUTHY (Init_Integer out) = Ok true.
Proof. reflexivity. Qed.

(** C5.  Whatever cell is overwritten, the truth test of a void fails with
    the Void-Conditional error, and the truth test of logic false, of a
    blank and of a nulled cell (plain or "endish") returns false with no
    error raised. *)
Theorem IS_TRUTHY_void_fails_falsey_kinds_false (out : RELVAL) :
  IS_TRUTHY (Init_Void out) = Fail Error_Void_Conditional_Raw
  /\ IS_TRUTHY (Init_Logic out false) = Ok false
  /\ IS_TRUTHY (Init_Blank out) = Ok false
  /\ IS_TRUTHY (Init_Nulled out) = Ok false
  /\ IS_TRUTHY (Init_Endish_Nulled out) = Ok false.
Proof. repeat split. Qed.

End Truthy.

(** ** MONEY! (%t-money.c) *)

Module Money.

Local Open Scope Z_scope.

(** The vendored "deci" amount: three mantissa words, sign and exponent. *)
Record deci : Type := mkDeci { m0 : Z; m1 : Z; m2 : Z; s : bool; e : Z }.

(** The verbs [REBTYPE(Money)] switches on. *)
Inductive REBSYM : Type :=
| SYM_ADD | SYM_SUBTRACT | SYM_MULTIPLY | SYM_DIVIDE | SYM_REMAINDER
| SYM_NEGATE | SYM_ABSOLUTE | SYM_ROUND | SYM_EVEN_Q | SYM_ODD_Q
| SYM_other.

(** The refinements of ROUND that make up the [RF_*] flags word. *)
Record Round_Flags : Type := mkRF {
  RF_TO : bool; RF_EVEN : bool; RF_DOWN : bool; RF_HALF_DOWN : bool;
  RF_FLOOR : bool; RF_CEILING : bool; RF_HALF_CEILING : bool
}.

Section Money.

(** [REBDEC] is the C [double]; its values are opaque here. *)
Variable REBDEC : Type.

(** The payload members this module reads or writes. *)
Inductive Payload : Type :=
| P_money (amount : deci)
| P_integer (i : Z)
| P_decimal (d : REBDEC)
| P_text (chars : string)
| P_binary (bytes : list Z)
| P_other.

Record REBVAL : Type := mkVal {
  kind_byte : Reb_Kind;
  flag_falsey : bool;
  payload : Payload
}.

Definition VAL_TYPE (v : REBVAL) : Reb_Kind := kind_byte v.
Definition IS_KIND (k : Reb_Kind) (v : REBVAL) : bool := kind_eqb (VAL_TYPE v) k.

Definition VAL_MONEY_AMOUNT (v : REBVAL) : Result deci :=
  match payload v with P_money a => Ok a | _ => Undefined end.
Definition VAL_INT64 (v : REBVAL) : Result Z :=
  match payload v with P_integer i => Ok i | _ => Undefined end.
Definition VAL_DECIMAL (v : REBVAL) : Result REBDEC :=
  match payload v with P_decimal d => Ok d | _ => Undefined end.
Definition VAL_LOGIC (v : REBVAL) : bool := negb (flag_falsey v).

Definition Init_Money (amount : deci) : REBVAL :=
  {| kind_byte := REB_MONEY; flag_falsey := false; payload := P_money amount |}.
Definition Init_Integer (i : Z) : REBVAL :=
  {| kind_byte := REB_INTEGER; flag_falsey := false; payload := P_integer i |}.
Definition Init_Logic (b : bool) : REBVAL :=
  {| kind_byte := REB_LOGIC; flag_falsey := negb b; payload := P_other |}.
(** [RESET_CELL(out, kind); VAL_DECIMAL(out) = dec] *)
Definition Init_Decimal_Kind (k : Reb_Kind) (d : REBDEC) : REBVAL :=
  {| kind_byte := k; flag_falsey := false; payload := P_decimal d |}.
(** [RESET_VAL_HEADER(v, kind)]: only the header changes. *)
Definition RESET_VAL_HEADER (v : REBVAL) (k : Reb_Kind) : REBVAL :=
  {| kind_byte := k; flag_falsey := false; payload := payload v |}.

(** The routines of the vendored deci library, of %f-round.c and of the
    scanner that the module calls; those that can [fail] return a
    [Result]. *)
Record Deci_Lib : Type := mkLib {
  int_to_deci : Z -> deci;
  decimal_to_deci : REBDEC -> Result deci;
  string_to_deci : list Z -> deci * nat;
  binary_to_deci : list Z -> deci;
  deci_to_int : deci -> Result Z;
  deci_to_decimal : deci -> REBDEC;
  deci_add : deci -> deci -> Result deci;
  deci_subtract : deci -> deci -> Result deci;
  deci_multiply : deci -> deci -> Result deci;
  deci_divide : deci -> deci -> Result deci;
  deci_mod : deci -> deci -> Result deci;
  Round_Deci : deci -> Round_Flags -> deci -> Result deci;
  Analyze_String_For_Scan : string -> Result (list Z)
}.

Variable lib : Deci_Lib.

(** [Bin_To_Money_May_Fail]: at most 12 bytes, copied to the head of a
    zeroed buffer, then shifted to its right side by
    [memcpy(buf + 12 - len, buf, len)] and the head zeroed.  For more
    than 6 and less than 12 bytes the source and the destination of that
    [memcpy] overlap in part, which C leaves undefined; for 12 bytes they
    coincide and the bytes stay where they are. *)
Definition Bin_To_Money_May_Fail (val : REBVAL) : Result REBVAL :=
  if negb (IS_KIND REB_BINARY val) then Fail Error_Invalid
  else match payload val with
       | P_binary bytes =>
           let len := Nat.min (length bytes) 12 in
           if (6 <? len)%nat && (len <? 12)%nat then Undefined
           else
             let buf := replicate (12 - len)%nat 0 ++ take len bytes in
             Ok (Init_Money (binary_to_deci lib buf))
       | _ => Undefined
       end.

(** [MAKE_Money(out, kind, arg)]: the new content of [out]. *)
Definition MAKE_Money (arg : REBVAL) : Result REBVAL :=
  match VAL_TYPE arg with
  | REB_INTEGER =>
      let* i := VAL_INT64 arg in Ok (Init_Money (int_to_deci lib i))
  | REB_DECIMAL | REB_PERCENT =>
      let* d := VAL_DECIMAL arg in
      let* a := decimal_to_deci lib d in Ok (Init_Money a)
  | REB_MONEY => Ok arg
  | REB_TEXT =>
      match payload arg with
      | P_text chars =>
          let* bp := Analyze_String_For_Scan lib chars in
          let '(a, consumed) := string_to_deci lib bp in
          if (consumed =? 0)%nat || negb (consumed =? length bp)%nat
          then Fail Error_Bad_Make
          else Ok (Init_Money a)
      | _ => Undefined
      end
  | REB_BINARY => Bin_To_Money_May_Fail arg
  | REB_LOGIC =>
      Ok (Init_Money (int_to_deci lib (if VAL_LOGIC arg then 1 else 0)))
  | _ => Fail Error_Bad_Make
  end.

(** [TO_Money] forwards to [MAKE_Money]. *)
Definition TO_Money (arg : REBVAL) : Result REBVAL := MAKE_Money arg.

Definition Math_Arg_For_Money (arg : REBVAL) : Result REBVAL :=
  if IS_KIND REB_MONEY arg then Ok arg
  else if IS_KIND REB_INTEGER arg then
    let* i := VAL_INT64 arg in Ok (Init_Money (int_to_deci lib i))
  else if IS_KIND REB_DECIMAL arg || IS_KIND REB_PERCENT arg then
    let* d := VAL_DECIMAL arg in
    let* a := decimal_to_deci lib d in Ok (Init_Money a)
  else Fail Error_Math_Args.

(** The binary arithmetic verbs: [Init_Money(D_OUT, op(val, arg)); break;]
    followed by the common exit [RESET_VAL_HEADER(D_OUT, REB_MONEY)]. *)
Definition money_binop (op : deci -> deci -> Result deci)
    (val arg2 : REBVAL) : Result REBVAL :=
  let* arg := Math_Arg_For_Money arg2 in
  let* a := VAL_MONEY_AMOUNT val in
  let* b := VAL_MONEY_AMOUNT arg in
  let* r := op a b in
  Ok (RESET_VAL_HEADER (Init_Money r) REB_MONEY).

Definition set_sign (v : REBVAL) (f : bool -> bool) : Result REBVAL :=
  match payload v with
  | P_money a =>
      Ok {| kind_byte := kind_byte v; flag_falsey := flag_falsey v;
            payload := P_money (mkDeci (m0 a) (m1 a) (m2 a) (f (s a)) (e a)) |}
  | _ => Undefined
  end.

(** [REBTYPE(Money)]: [val] is [D_ARG(1)] and [arg2] is [D_ARG(2)];
    [scale] and [flags] are the [scale] argument and the refinements of
    the frame of ROUND.  The result is the cell the dispatcher returns in
    [D_OUT]. *)
Definition T_Money (verb : REBSYM) (val arg2 scale : REBVAL)
    (flags : Round_Flags) : Result REBVAL :=
  match verb with
  | SYM_ADD => money_binop (deci_add lib) val arg2
  | SYM_SUBTRACT => money_binop (deci_subtract lib) val arg2
  | SYM_MULTIPLY => money_binop (deci_multiply lib) val arg2
  | SYM_DIVIDE => money_binop (deci_divide lib) val arg2
  | SYM_REMAINDER => money_binop (deci_mod lib) val arg2
  | SYM_NEGATE => set_sign val negb
  | SYM_ABSOLUTE => set_sign val (fun _ => false)
  | SYM_ROUND =>
      let* temp :=
        (if RF_TO flags then
           if IS_KIND REB_INTEGER scale then
             let* i := VAL_INT64 scale in Ok (Init_Money (int_to_deci lib i))
           else if IS_KIND REB_DECIMAL scale || IS_KIND REB_PERCENT scale then
             let* d := VAL_DECIMAL scale in
             let* a := decimal_to_deci lib d in Ok (Init_Money a)
           else if IS_KIND REB_MONEY scale then Ok scale
           else Fail Error_Invalid
         else Ok (Init_Money (int_to_deci lib 0))) in
      let* a := VAL_MONEY_AMOUNT val in
      let* t := VAL_MONEY_AMOUNT temp in
      let* r := Round_Deci lib a flags t in
      if RF_TO flags && (IS_KIND REB_DECIMAL scale || IS_KIND REB_PERCENT scale)
      then Ok (Init_Decimal_Kind (VAL_TYPE scale) (deci_to_decimal lib r))
      else if RF_TO flags && IS_KIND REB_INTEGER scale
      then let* i := deci_to_int lib r in Ok (Init_Integer i)
      else Ok (RESET_VAL_HEADER (Init_Money r) REB_MONEY)
  | SYM_EVEN_Q | SYM_ODD_Q =>
      let* a := VAL_MONEY_AMOUNT val in
      let* i := deci_to_int lib a in
      let result := Z.land 1 i in
      let result := match verb with
                    | SYM_EVEN_Q => if result =? 0 then 1 else 0
                    | _ => result
                    end in
      Ok (Init_Logic (negb (result =? 0)))
  | SYM_other => Fail Error_Illegal_Action
  end.

(** *** Properties *)

Lemma money_binop_kind op val arg2 out :
  money_binop op val arg2 = Ok out -> VAL_TYPE out = REB_MONEY.
Proof.
  unfold money_binop.
  destruct (Math_Arg_For_Money arg2) as [arg| |]; cbn; try discriminate.
  destruct (VAL_MONEY_AMOUNT val); cbn; try discriminate.
  destruct (VAL_MONEY_AMOUNT arg); cbn; try discriminate.
  destruct (op a a0); cbn; try discriminate.
  intros [= <-]. reflexivity.
Qed.

(** C3 (as amended).  Dividing one MONEY! value by another runs the deci
    division on the two amounts and, where that division returns an
    amount, hands back a MONEY! cell holding it; where the division fails,
    the dispatcher fails with the same error. *)
Theorem T_Money_divide_money (a b : deci) (scale : REBVAL)
    (flags : Round_Flags) :
  T_Money SYM_DIVIDE (Init_Money a) (Init_Money b) scale flags
  = match deci_divide lib a b with
    | Ok q => Ok (Init_Money q)
    | Fail err => Fail err
    | Undefined => Undefined
    end.
Proof.
  unfold T_Money, money_binop, Math_Arg_For_Money. simpl.
  destruct (deci_divide lib a b); reflexivity.
Qed.

(** C10.  MAKE MONEY! and TO MONEY! of a LOGIC! value return normally, with
    the money cell whose amount is the deci of the integer 1 for true and
    of the integer 0 for false. *)
Theorem MAKE_Money_logic (b : bool) :
  MAKE_Money (Init_Logic b)
  = Ok (Init_Money (int_to_deci lib (if b then 1 else 0)))
  /\ TO_Money (Init_Logic b)
  = Ok (Init_Money (int_to_deci lib (if b then 1 else 0))).
Proof. destruct b; split; reflexivity. Qed.

End Money.

Arguments Init_Money {REBDEC} amount.
Arguments VAL_TYPE {REBDEC} v.
Arguments T_Money {REBDEC} lib verb val arg2 scale flags.
Arguments MAKE_Money {REBDEC} lib arg.

(** The claim of a unitless quotient, at $10 / $10: whatever the deci
    library computes, the dispatcher never returns a cell of a kind other
    than MONEY! for the division of two money values. *)
Lemma T_Money_ten_by_ten_not_unitless :
  ~ exists (REBDEC : Type) (lib : Deci_Lib REBDEC) scale flags out,
      T_Money lib SYM_DIVIDE
        (Init_Money (int_to_deci _ lib 10)) (Init_Money (int_to_deci _ lib 10))
        scale flags = Ok out
      /\ VAL_TYPE out <> REB_MONEY.
Proof.
  intros (REBDEC & lib & scale & flags & out & Hrun & Hkind).
  apply Hkind. unfold T_Money in Hrun.
  by apply money_binop_kind in Hrun.
Qed.

End Money.

(** ** PORT! (%t-port.c) *)

Module Port.

(** Cells are only inspected for their kind here. *)
Record REBVAL : Type := mkVal { kind_byte : Reb_Kind; content : Z }.

Definition VAL_TYPE (v : REBVAL) : Reb_Kind := kind_byte v.
Definition IS_BINARY (v : REBVAL) : bool := kind_eqb (VAL_TYPE v) REB_BINARY.
Definition IS_TEXT (v : REBVAL) : bool := kind_eqb (VAL_TYPE v) REB_TEXT.
Definition IS_BLOCK (v : REBVAL) : bool := kind_eqb (VAL_TYPE v) REB_BLOCK.
Definition IS_PORT (v : REBVAL) : bool := kind_eqb (VAL_TYPE v) REB_PORT.

(** The frame of APPEND, as [INCLUDE_PARAMS_OF_APPEND] names it. *)
Record Append_Frame : Type := mkFrame {
  ARG_series : REBVAL;
  ARG_value : REBVAL;
  REF_part : bool;
  ARG_limit : REBVAL;
  REF_only : bool;
  REF_dup : bool;
  ARG_count : REBVAL;
  REF_line : bool
}.

Section Retrigger.

(** [rebRun("write/append", D_ARG(1), D_ARG(2), rebEND)]: the evaluation
    of WRITE/APPEND on the port and the value. *)
Variable rebRun_write_append : REBVAL -> REBVAL -> Result REBVAL.

Definition Retrigger_Append_As_Write (frame_ : Append_Frame)
  : Result REBVAL :=
  if negb (IS_BINARY (ARG_value frame_)
           || IS_TEXT (ARG_value frame_)
           || IS_BLOCK (ARG_value frame_))
  then Fail Error_Invalid
  else if REF_part frame_ then Fail Error_Bad_Refines_Raw
  else if REF_only frame_ then Fail Error_Bad_Refines_Raw
  else if REF_dup frame_ then Fail Error_Bad_Refines_Raw
  else if REF_line frame_ then Fail Error_Bad_Refines_Raw
  else rebRun_write_append (ARG_series frame_) (ARG_value frame_).

(** The kinds of value WRITE/APPEND is handed, and "some refinement of
    APPEND was used". *)
Definition value_accepted (f : Append_Frame) : bool :=
  match VAL_TYPE (ARG_value f) with
  | REB_BINARY | REB_TEXT | REB_BLOCK => true
  | _ => false
  end.

Definition refinement_used (f : Append_Frame) : bool :=
  REF_part f || REF_only f || REF_dup f || REF_line f.

(** *** Properties *)

Lemma value_accepted_spec (f : Append_Frame) :
  IS_BINARY (ARG_value f) || IS_TEXT (ARG_value f) || IS_BLOCK (ARG_value f)
  = value_accepted f.
Proof.
  unfold value_accepted, IS_BINARY, IS_TEXT, IS_BLOCK, kind_eqb.
  by destruct (VAL_TYPE (ARG_value f)).
Qed.

(** A refinement is never dropped: with any of them the call fails. *)
Lemma Retrigger_refinement_never_ignored (f : Append_Frame) :
  refinement_used f = true ->
  exists err, Retrigger_Append_As_Write f = Fail err.
Proof.
  unfold refinement_used, Retrigger_Append_As_Write. intros Href.
  destruct (negb _); [by eexists|].
  destruct (REF_part f); [by eexists|].
  destruct (REF_only f); [by eexists|].
  destruct (REF_dup f); [by eexists|].
  destruct (REF_line f); [by eexists|]. discriminate.
Qed.

(** C8 (as amended).  An APPEND that a port hands to
    [Retrigger_Append_As_Write] takes only a BINARY!, TEXT! or BLOCK!
    value: a value of any other kind fails as invalid, whether or not a
    refinement was used.  For a value of these kinds, the use of /PART,
    /ONLY, /DUP or /LINE fails with the bad-refines error, and without
    them the call is exactly WRITE/APPEND of the value on the port. *)
Theorem Retrigger_Append_As_Write_spec (f : Append_Frame) :
  Retrigger_Append_As_Write f
  = if value_accepted f
    then if refinement_used f
         then Fail Error_Bad_Refines_Raw
         else rebRun_write_append (ARG_series f) (ARG_value f)
    else Fail Error_Invalid.
Proof.
  unfold Retrigger_Append_As_Write, refinement_used.
  rewrite value_accepted_spec.
  destruct (value_accepted f); [|reflexivity]. cbn.
  by destruct (REF_part f), (REF_only f), (REF_dup f), (REF_line f).
Qed.

End Retrigger.

(** The claim that any use of a refinement fails with the bad-refines
    error, at an APPEND/PART of an INTEGER!: the test of the value comes
    first, and the call fails as invalid. *)
Lemma Retrigger_integer_with_part_is_invalid :
  refinement_used
    (mkFrame (mkVal REB_PORT 1) (mkVal REB_INTEGER 5) true (mkVal REB_INTEGER 1)
       false false (mkVal REB_BLANK 0) false) = true
  /\ Retrigger_Append_As_Write (fun port value => Ok value)
       (mkFrame (mkVal REB_PORT 1) (mkVal REB_INTEGER 5) true
          (mkVal REB_INTEGER 1) false false (mkVal REB_BLANK 0) false)
     = Fail Error_Invalid
  /\ Retrigger_Append_As_Write (fun port value => Ok value)
       (mkFrame (mkVal REB_PORT 1) (mkVal REB_INTEGER 5) true
          (mkVal REB_INTEGER 1) false false (mkVal REB_BLANK 0) false)
     <> Fail Error_Bad_Refines_Raw.
Proof. split; [reflexivity|]. split; [reflexivity|discriminate]. Qed.

End Port.

(** ** OBJECT! and the other contexts (%t-object.c) *)

Module Context.

Local Open Scope Z_scope.

(** A context cell: its kind and the [REBCTX*] it points at. *)
Record REBVAL : Type := mkVal { kind_byte : Reb_Kind; payload_context : positive }.

Definition VAL_TYPE (v : REBVAL) : Reb_Kind := kind_byte v.
Definition VAL_CONTEXT (v : REBVAL) : positive := payload_context v.

Section Equal.

(** The cells in key lists and var lists, with the accessors and the
    comparison of %f-series.c that [Equal_Context] applies to them. *)
Variable RELVAL : Type.
Variable Cmp_Value : RELVAL -> RELVAL -> bool -> Z.
Variable Is_Param_Hidden : RELVAL -> bool.
Variable VAL_KEY_CANON : RELVAL -> Z.

(** A context: the keys from [CTX_KEYS_HEAD] and the vars from
    [CTX_VARS_HEAD], which advance together, one slot at a time. *)
Definition Slot : Type := (RELVAL * RELVAL)%type.
Record REBCTX : Type := mkCtx { ctx_slots : list Slot }.

Definition slot_hidden (sl : Slot) : bool := Is_Param_Hidden (fst sl).

(** The three tests of the loop body on a pair of slots. *)
Definition slot_equal (a b : Slot) : bool :=
  (Cmp_Value (fst a) (fst b) false =? 0)
  && (VAL_KEY_CANON (fst a) =? VAL_KEY_CANON (fst b))
  && (Cmp_Value (snd a) (snd b) false =? 0).

(** The two loops that follow the main one. *)
Definition rest_hidden (k1 k2 : list Slot) : bool :=
  forallb slot_hidden k1 && forallb slot_hidden k2.

(** The main loop, entered with the two cursors; [goto no_advance] is the
    call that moves one cursor only, [break] reaches [rest_hidden]. *)
Fixpoint walk (k1 : list Slot) : list Slot -> bool :=
  fix walk_k2 (k2 : list Slot) : bool :=
    match k1, k2 with
    | s1 :: r1, s2 :: r2 =>
        if slot_hidden s1 then walk r1 k2
        else if slot_hidden s2 then walk_k2 r2
        else if negb (Cmp_Value (fst s1) (fst s2) false =? 0) then false
        else if negb (VAL_KEY_CANON (fst s1) =? VAL_KEY_CANON (fst s2))
        then false
        else if negb (Cmp_Value (snd s1) (snd s2) false =? 0) then false
        else walk r1 r2
    | _, _ => rest_hidden k1 k2
    end.

(** [Equal_Context]; the contexts are read from the heap of series nodes. *)
Definition Equal_Context (heap : gmap positive REBCTX) (val arg : REBVAL)
  : Result bool :=
  if negb (kind_eqb (VAL_TYPE arg) (VAL_TYPE val)) then Ok false
  else
    let f1 := VAL_CONTEXT val in
    let f2 := VAL_CONTEXT arg in
    if bool_decide (f1 = f2) then Ok true
    else match heap !! f1, heap !! f2 with
         | Some c1, Some c2 => Ok (walk (ctx_slots c1) (ctx_slots c2))
         | _, _ => Undefined
         end.

(** [CT_Context], the comparison hook behind EQUAL?. *)
Definition CT_Context (heap : gmap positive REBCTX) (a b : REBVAL)
    (mode : Z) : Result Z :=
  if mode <? 0 then Ok (-1)
  else let* eq := Equal_Context heap a b in Ok (if eq then 1 else 0).

(** The reading of the specification: the visible fields, and two
    sequences of fields that line up pairwise. *)
Definition visible (k : list Slot) : list Slot :=
  filter (fun sl => slot_hidden sl = false) k.

(** The key symbols of a sequence of fields. *)
Definition key_canons (l : list Slot) : list Z :=
  (fun sl => VAL_KEY_CANON (fst sl)) <$> l.

Fixpoint fields_line_up (l1 l2 : list Slot) : bool :=
  match l1, l2 with
  | [], [] => true
  | a :: l1, b :: l2 => slot_equal a b && fields_line_up l1 l2
  | _, _ => false
  end.

(** *** Properties *)

Lemma walk_nil_l (k2 : list Slot) : walk [] k2 = rest_hidden [] k2.
Proof. by destruct k2. Qed.

Lemma walk_nil_r (k1 : list Slot) : walk k1 [] = rest_hidden k1 [].
Proof. by destruct k1. Qed.

Lemma walk_cons_cons (s1 s2 : Slot) (r1 r2 : list Slot) :
  walk (s1 :: r1) (s2 :: r2)
  = if slot_hidden s1 then walk r1 (s2 :: r2)
    else if slot_hidden s2 then walk (s1 :: r1) r2
    else if slot_equal s1 s2 then walk r1 r2 else false.
Proof.
  cbn [walk]. unfold slot_equal.
  destruct (slot_hidden s1); [reflexivity|].
  destruct (slot_hidden s2); [reflexivity|].
  destruct (Cmp_Value (fst s1) (fst s2) false =? 0); [|reflexivity].
  destruct (VAL_KEY_CANON (fst s1) =? VAL_KEY_CANON (fst s2)); [|reflexivity].
  by destruct (Cmp_Value (snd s1) (snd s2) false =? 0).
Qed.

Lemma visible_cons (sl : Slot) (k : list Slot) :
  visible (sl :: k) = if slot_hidden sl then visible k else sl :: visible k.
Proof.
  unfold visible. destruct (slot_hidden sl) eqn:E.
  - rewrite filter_cons_False; [done | by rewrite E].
  - by rewrite filter_cons_True.
Qed.

Lemma forallb_hidden_visible (k : list Slot) :
  forallb slot_hidden k = fields_line_up (visible k) [].
Proof.
  induction k as [|sl k IH]; [done|].
  rewrite visible_cons. cbn [forallb].
  destruct (slot_hidden sl); [exact IH | done].
Qed.

Lemma fields_line_up_nil_l (l : list Slot) :
  fields_line_up [] l = fields_line_up l [].
Proof. by destruct l. Qed.

(** The walk of the code computes the pairwise comparison of the visible
    fields, taken in sequence. *)
Lemma walk_fields_line_up (k1 k2 : list Slot) :
  walk k1 k2 = fields_line_up (visible k1) (visible k2).
Proof.
  revert k2. induction k1 as [|s1 r1 IH1]; intros k2.
  - rewrite walk_nil_l. unfold rest_hidden.
    rewrite !forallb_hidden_visible. cbn. by destruct (visible k2).
  - induction k2 as [|s2 r2 IH2].
    + rewrite walk_nil_r. unfold rest_hidden.
      rewrite !forallb_hidden_visible. cbn. by rewrite andb_true_r.
    + rewrite walk_cons_cons, (visible_cons s1), (visible_cons s2).
      destruct (slot_hidden s1) eqn:H1.
      * rewrite IH1, (visible_cons s2). done.
      * destruct (slot_hidden s2) eqn:H2.
        -- rewrite IH2, (visible_cons s1), H1. done.
        -- cbn [fields_line_up]. destruct (slot_equal s1 s2); [apply IH1|done].
Qed.

Lemma fields_line_up_Forall2 (l1 l2 : list Slot) :
  fields_line_up l1 l2 = true <-> Forall2 (fun a b => slot_equal a b = true) l1 l2.
Proof.
  revert l2. induction l1 as [|a l1 IH]; intros [|b l2]; cbn.
  - split; [constructor | done].
  - split; [done | inversion 1].
  - split; [done | inversion 1].
  - rewrite andb_true_iff, IH. split.
    + intros [? ?]. by constructor.
    + inversion 1; subst. done.
Qed.

Lemma fields_line_up_canon (l1 l2 : list Slot) :
  fields_line_up l1 l2 = true -> key_canons l1 = key_canons l2.
Proof.
  unfold key_canons.
  revert l2. induction l1 as [|a l1 IH]; intros [|b l2]; cbn; try done.
  intros [Hab Hl]%andb_true_iff. f_equal; [|by apply IH].
  unfold slot_equal in Hab.
  apply andb_true_iff in Hab as [[_ Hc]%andb_true_iff _]. lia.
Qed.

(** A rearrangement of fields with distinct key symbols that keeps every
    symbol in place is no rearrangement. *)
Lemma permutation_same_canon (l1 l2 : list Slot) :
  NoDup (key_canons l1) -> l1 ≡ₚ l2 -> key_canons l1 = key_canons l2 ->
  l1 = l2.
Proof.
  unfold key_canons.
  revert l2. induction l1 as [|a l1 IH]; intros [|b l2] Hnd Hp Hm.
  - done.
  - by apply Permutation_nil_cons in Hp.
  - symmetry in Hp. by apply Permutation_nil_cons in Hp.
  - rewrite !fmap_cons in Hm. injection Hm as Hab Hm.
    rewrite fmap_cons in Hnd. apply NoDup_cons in Hnd as [Hnotin Hnd].
    assert (a = b) as ->.
    { assert (Hin : b ∈ a :: l1) by (rewrite Hp; left).
      apply elem_of_cons in Hin as [->|Hin]; [done|].
      exfalso. apply Hnotin. rewrite Hab.
      by apply (list_elem_of_fmap_2 (fun sl : Slot => VAL_KEY_CANON (fst sl))). }
    f_equal. apply IH; [done| |done]. by apply (inj (cons b)).
Qed.

(** Inserting a hidden slot anywhere leaves the visible fields as they
    were. *)
Lemma visible_insert_hidden (pre post : list Slot) (h : Slot) :
  slot_hidden h = true -> visible (pre ++ h :: post) = visible (pre ++ post).
Proof.
  intros Hh. unfold visible. rewrite !filter_app.
  rewrite filter_cons_False; [done | by rewrite Hh].
Qed.

(** C4.  For two context cells of the same kind that point at two
    different contexts, [Equal_Context] returns true exactly when the
    visible fields of the two line up pairwise, in sequence, on key
    typeset, key symbol and value.  Hence a rearrangement of the visible
    fields of one side (fields with distinct key symbols) that is not the
    sequence of the other side compares false, and a hidden slot inserted
    anywhere in one side only does not change the result. *)
Theorem Equal_Context_visible_fields
    (heap : gmap positive REBCTX) (val arg : REBVAL) (c1 c2 : REBCTX) :
  VAL_TYPE val = VAL_TYPE arg ->
  VAL_CONTEXT val <> VAL_CONTEXT arg ->
  heap !! VAL_CONTEXT val = Some c1 ->
  heap !! VAL_CONTEXT arg = Some c2 ->
  (exists b, Equal_Context heap val arg = Ok b
     /\ (b = true <->
         Forall2 (fun a b => slot_equal a b = true)
           (visible (ctx_slots c1)) (visible (ctx_slots c2))))
  /\ (forall c2',
        NoDup (key_canons (visible (ctx_slots c2))) ->
        visible (ctx_slots c2') ≡ₚ visible (ctx_slots c2) ->
        visible (ctx_slots c2') <> visible (ctx_slots c2) ->
        Equal_Context heap val arg = Ok true ->
        Equal_Context (<[VAL_CONTEXT arg := c2']> heap) val arg = Ok false)
  /\ (forall pre post h,
        ctx_slots c1 = pre ++ post ->
        slot_hidden h = true ->
        Equal_Context
          (<[VAL_CONTEXT val := mkCtx (pre ++ h :: post)]> heap) val arg
        = Equal_Context heap val arg)
  /\ (forall pre post h,
        ctx_slots c2 = pre ++ post ->
        slot_hidden h = true ->
        Equal_Context
          (<[VAL_CONTEXT arg := mkCtx (pre ++ h :: post)]> heap) val arg
        = Equal_Context heap val arg).
Proof.
  intros Hkind Hne H1 H2.
  assert (Hrun : forall hp d1 d2,
            hp !! VAL_CONTEXT val = Some d1 ->
            hp !! VAL_CONTEXT arg = Some d2 ->
            Equal_Context hp val arg
            = Ok (fields_line_up (visible (ctx_slots d1))
                                 (visible (ctx_slots d2)))).
  { intros hp d1 d2 Hd1 Hd2. unfold Equal_Context.
    rewrite Hkind. unfold kind_eqb. rewrite bool_decide_eq_true_2 by done.
    cbn [negb]. rewrite bool_decide_eq_false_2 by done.
    rewrite Hd1, Hd2. by rewrite walk_fields_line_up. }
  split; [|split; [|split]].
  - eexists. split; [by apply Hrun|]. apply fields_line_up_Forall2.
  - intros c2' Hnd Hperm Hdiff Heq.
    rewrite (Hrun _ _ _ H1 H2) in Heq. injection Heq as Heq.
    rewrite (Hrun _ c1 c2').
    2:{ by rewrite lookup_insert_ne. }
    2:{ by rewrite lookup_insert_eq. }
    f_equal. apply not_true_is_false. intros Hup.
    apply Hdiff. symmetry. apply permutation_same_canon; [done|done|].
    apply fields_line_up_canon in Heq, Hup. congruence.
  - intros pre post h Hsplit Hh.
    rewrite (Hrun _ _ _ H1 H2).
    rewrite (Hrun _ (mkCtx (pre ++ h :: post)) c2).
    2:{ by rewrite lookup_insert_eq. }
    2:{ by rewrite lookup_insert_ne. }
    cbn [ctx_slots]. by rewrite visible_insert_hidden, Hsplit.
  - intros pre post h Hsplit Hh.
    rewrite (Hrun _ _ _ H1 H2).
    rewrite (Hrun _ c1 (mkCtx (pre ++ h :: post))).
    2:{ by rewrite lookup_insert_ne. }
    2:{ by rewrite lookup_insert_eq. }
    cbn [ctx_slots]. by rewrite visible_insert_hidden, Hsplit.
Qed.

(** The short circuit: a context compared with itself is equal, without
    any field being read. *)
Lemma Equal_Context_same (heap : gmap positive REBCTX) (val arg : REBVAL) :
  VAL_TYPE val = VAL_TYPE arg -> VAL_CONTEXT val = VAL_CONTEXT arg ->
  Equal_Context heap val arg = Ok true.
Proof.
  intros Hk Hc. unfold Equal_Context, kind_eqb.
  rewrite Hk, bool_decide_eq_true_2 by done. cbn [negb].
  by rewrite bool_decide_eq_true_2.
Qed.

(** EQUAL? goes through [CT_Context] with a mode that is not negative. *)
Lemma CT_Context_equal (heap : gmap positive REBCTX) (a b : REBVAL) (mode : Z) :
  0 <= mode ->
  CT_Context heap a b mode = Ok 1 <-> Equal_Context heap a b = Ok true.
Proof.
  intros Hmode. unfold CT_Context.
  destruct (mode <? 0) eqn:E; [apply Z.ltb_lt in E; lia|].
  destruct (Equal_Context heap a b) as [[|]| |]; cbn; split; try done.
Qed.

Lemma Equal_Context_kind_differs (heap : gmap positive REBCTX) (val arg : REBVAL) :
  VAL_TYPE arg <> VAL_TYPE val -> Equal_Context heap val arg = Ok false.
Proof.
  intros Hk. unfold Equal_Context, kind_eqb.
  by rewrite bool_decide_eq_false_2.
Qed.

End Equal.

Arguments mkCtx {RELVAL} ctx_slots.
Arguments ctx_slots {RELVAL} r.

(** A small instance, to run the comparison: cells are integers, a key is
    hidden when negative, its symbol is its absolute value, and
    [Cmp_Value] is the difference. *)
Definition sample_cmp (a b : Z) (is_case : bool) : Z := a - b.
Definition sample_hidden (k : Z) : bool := k <? 0.
Definition sample_canon (k : Z) : Z := Z.abs k.

Definition sample_heap : gmap positive (REBCTX Z) :=
  <[1%positive := mkCtx [(1, 10); (2, 20)]]>
    (<[2%positive := mkCtx [(1, 10); (-9, 0); (2, 20)]]> ∅).

Lemma Equal_Context_visible_fields_witness :
  VAL_TYPE (mkVal REB_OBJECT 1) = VAL_TYPE (mkVal REB_OBJECT 2)
  /\ VAL_CONTEXT (mkVal REB_OBJECT 1) <> VAL_CONTEXT (mkVal REB_OBJECT 2)
  /\ sample_heap !! VAL_CONTEXT (mkVal REB_OBJECT 1)
     = Some (mkCtx [(1, 10); (2, 20)])
  /\ sample_heap !! VAL_CONTEXT (mkVal REB_OBJECT 2)
     = Some (mkCtx [(1, 10); (-9, 0); (2, 20)])
  /\ exists b,
       Equal_Context Z sample_cmp sample_hidden sample_canon sample_heap
         (mkVal REB_OBJECT 1) (mkVal REB_OBJECT 2) = Ok b
       /\ (b = true <->
           Forall2 (fun x y => slot_equal Z sample_cmp sample_canon x y = true)
             (visible Z sample_hidden [(1, 10); (2, 20)])
             (visible Z sample_hidden [(1, 10); (-9, 0); (2, 20)])).
Proof.
  assert (Hne : VAL_CONTEXT (mkVal REB_OBJECT 1)
                <> VAL_CONTEXT (mkVal REB_OBJECT 2)) by (cbn; lia).
  assert (H1 : sample_heap !! VAL_CONTEXT (mkVal REB_OBJECT 1)
               = Some (mkCtx [(1, 10); (2, 20)])) by reflexivity.
  assert (H2 : sample_heap !! VAL_CONTEXT (mkVal REB_OBJECT 2)
               = Some (mkCtx [(1, 10); (-9, 0); (2, 20)])) by reflexivity.
  split; [reflexivity|]. split; [exact Hne|].
  split; [exact H1|]. split; [exact H2|].
  exact (proj1 (Equal_Context_visible_fields Z sample_cmp sample_hidden
                  sample_canon sample_heap (mkVal REB_OBJECT 1)
                  (mkVal REB_OBJECT 2) _ _ eq_refl Hne H1 H2)).
Defined.

(** On the instance: the hidden slot of the second context is passed
    over, and exchanging the two visible fields of it gives a context
    that is not equal to the first. *)
Example Equal_Context_sample_runs :
  Equal_Context Z sample_cmp sample_hidden sample_canon sample_heap
    (mkVal REB_OBJECT 1) (mkVal REB_OBJECT 2) = Ok true
  /\ Equal_Context Z sample_cmp sample_hidden sample_canon
       (<[2%positive := mkCtx [(2, 20); (-9, 0); (1, 10)]]> sample_heap)
       (mkVal REB_OBJECT 1) (mkVal REB_OBJECT 2) = Ok false.
Proof. split; reflexivity. Qed.

End Context.

(** ** The console loop (%host-main.c) *)

Module HostMain.

Local Open Scope Z_scope.

(** Instruction and result cells: the loop reads their kind, and the
    integer of an exit code. *)
Record REBVAL : Type := mkVal { kind_byte : Reb_Kind; payload : Z }.

Definition rebDid_integer_q (v : REBVAL) : bool := kind_eqb (kind_byte v) REB_INTEGER.
Definition rebDid_block_q (v : REBVAL) : bool := kind_eqb (kind_byte v) REB_BLOCK.

(** Modelled from the spec: [rebUnboxInteger] of the API library is not
    in the tree; the spec has an integer instruction mean "exit now with
    this status code", so it hands back the integer of the cell. *)
Definition rebUnboxInteger (v : REBVAL) : Z := payload v.

(** [int exit_status = rebUnboxInteger(...)]: the status is kept in a C
    [int]; an integer outside of its range is converted as the two's
    complement targets do, by wrapping. *)
Definition to_int (x : Z) : Z := (x + 2 ^ 31) mod 2 ^ 32 - 2 ^ 31.

(** An evaluator or dispatcher hook: the core routine, or one installed
    by a facility such as TRACE. *)
Inductive Hook : Type :=
| Core_Hook
| Custom_Hook (id : positive).

(** The interpreter globals the loop saves and restores. *)
Record Hooks : Type := mkHooks {
  PG_Eval : Hook;
  PG_Dispatcher : Hook;
  Trace_Level : Z;
  Trace_Depth : Z
}.

(** [PG_Eval = &Eval_Core; PG_Dispatcher = &Dispatcher_Core;
     Trace_Level = 0; Trace_Depth = 0;] *)
Definition core_hooks : Hooks := mkHooks Core_Hook Core_Hook 0 0.

(** The state of [main] at the loop: the [ctrl_c_enabled] global, the
    interpreter globals, the locals [saved_eval_hook],
    [saved_dispatcher_hook], [Save_Trace_Level], [Save_Trace_Depth] (as
    one record), [no_recover], [code] and [result]. *)
Record Host : Type := mkHost {
  ctrl_c_enabled : bool;
  globals : Hooks;
  saved : Hooks;
  no_recover : bool;
  code : REBVAL;
  result : REBVAL
}.

(** What [lib/entrap [host-console code result]] evaluates to: an ERROR!,
    or a block whose first item is the next instruction. *)
Inductive Trapped : Type :=
| Trapped_Error (err : REBVAL)
| Trapped_Block (first : REBVAL).

(** What an observer of the process sees. *)
Inductive Event : Type :=
| Ev_Console (ctrl_c : bool) (g : Hooks) (code result : REBVAL)
| Ev_Run (ctrl_c : bool) (g : Hooks) (code : REBVAL).

(** Where control goes after one pass. *)
Inductive Next : Type :=
| Loop_Head (h : Host)
| Recover (h : Host)
| Exit (exit_status : Z)
| Panic.

Definition Disable_Ctrl_C (h : Host) : option Host :=
  if ctrl_c_enabled h
  then Some (mkHost false (globals h) (saved h) (no_recover h) (code h) (result h))
  else None.

Definition Enable_Ctrl_C (h : Host) : option Host :=
  if ctrl_c_enabled h then None
  else Some (mkHost true (globals h) (saved h) (no_recover h) (code h) (result h)).

(** A driver stub in the manner of the test of the instruction contract:
    it answers the first call with a BLOCK!, the call after a block with a
    GROUP!, and any later call with the integer 7.  The stub of the
    sandbox leaves the hooks as it finds them. *)
Definition stub_console (g : Hooks) (code result : REBVAL) : Trapped :=
  match kind_byte code with
  | REB_BLANK => Trapped_Block (mkVal REB_BLOCK 1)
  | REB_BLOCK => Trapped_Block (mkVal REB_GROUP 2)
  | _ => Trapped_Block (mkVal REB_INTEGER 7)
  end.

Definition stub_sandbox (ctrl_c : bool) (g : Hooks) (code : REBVAL)
  : REBVAL * Hooks := (mkVal REB_BLOCK 0, g).

(** The loop is entered with a TRACE hook saved and the core hooks
    installed. *)
Definition traced : Hooks := mkHooks (Custom_Hook 1) Core_Hook 1 0.

Definition host0 : Host :=
  mkHost false core_hooks traced false (mkVal REB_BLANK 0) (mkVal REB_BLOCK 0).

Section Loop.

(** The console driver under ENTRAP, and the sandboxed run of an
    instruction under [rebRescue], which may leave other hooks behind. *)
Variable host_console : Hooks -> REBVAL -> REBVAL -> Trapped.
Variable Run_Sandboxed_Code : bool -> Hooks -> REBVAL -> REBVAL * Hooks.

(** The value of [rebRun("[#host-console-error]", rebEND)]. *)
Variable host_console_error : REBVAL.

(** From the label [recover:] to the end of the loop body. *)
Definition from_recover (h : Host) : Next * list Event :=
  let ev := Ev_Console (ctrl_c_enabled h) (globals h) (code h) (result h) in
  match host_console (globals h) (code h) (result h) with
  | Trapped_Error trapped =>
      if no_recover h then (Panic, [ev])
      else (Recover (mkHost (ctrl_c_enabled h) (globals h) (saved h) true
                       host_console_error trapped), [ev])
  | Trapped_Block code' =>
      if rebDid_integer_q code'
      then (Exit (to_int (rebUnboxInteger code')), [ev])
      else
        let is_console_instruction := rebDid_block_q code' in
        let h1 :=
          if negb is_console_instruction
          then mkHost (ctrl_c_enabled h) (saved h) (saved h) false
                 code' (result h)
          else mkHost (ctrl_c_enabled h) (globals h) (saved h) (no_recover h)
                 code' (result h) in
        match Enable_Ctrl_C h1 with
        | None => (Panic, [ev])
        | Some h2 =>
            let run := Ev_Run (ctrl_c_enabled h2) (globals h2) code' in
            let '(result', globals') :=
              Run_Sandboxed_Code (ctrl_c_enabled h2) (globals h2) code' in
            let h3 := mkHost (ctrl_c_enabled h2) globals' (saved h2)
                        (no_recover h2) code' result' in
            match Disable_Ctrl_C h3 with
            | None => (Panic, [ev; run])
            | Some h4 =>
                let h5 :=
                  if negb is_console_instruction
                  then mkHost (ctrl_c_enabled h4) core_hooks (globals h4)
                         (no_recover h4) (code h4) (result h4)
                  else h4 in
                (Loop_Head h5, [ev; run])
            end
        end
  end.

(** One pass of [while (true)], from the assertion at its head. *)
Definition from_loop_head (h : Host) : Next * list Event :=
  if ctrl_c_enabled h then (Panic, []) else from_recover h.

(** The loop, for at most [fuel] calls of the driver; [None] when the fuel
    runs out before the driver asks to exit. *)
Fixpoint run_loop (fuel : nat) (at_head : bool) (h : Host)
  : option Z * list Event :=
  match fuel with
  | O => (None, [])
  | S fuel' =>
      let '(next, evs) := if at_head then from_loop_head h else from_recover h in
      match next with
      | Loop_Head h' =>
          let '(r, evs') := run_loop fuel' true h' in (r, evs ++ evs')
      | Recover h' =>
          let '(r, evs') := run_loop fuel' false h' in (r, evs ++ evs')
      | Exit n => (Some n, evs)
      | Panic => (None, evs)
      end
  end.

(** *** Properties *)

(** C6 (as amended).  At the head of the loop, with Ctrl-C disabled:
    a BLOCK! instruction is run with Ctrl-C enabled and with the
    interpreter hooks as they stand (the saved hooks are not put back);
    any other non-integer instruction (a GROUP!) is run with Ctrl-C
    enabled and the saved hooks put back, and on return Ctrl-C is
    disabled, the hooks the run left are saved and the core hooks are
    installed; an INTEGER! ends the loop with that integer, converted to
    a C [int], as exit status: the integer itself when it lies within the
    range of [int]. *)
Theorem host_loop_instruction_contract (h : Host) (instr : REBVAL) :
  ctrl_c_enabled h = false ->
  host_console (globals h) (code h) (result h) = Trapped_Block instr ->
  let ev := Ev_Console false (globals h) (code h) (result h) in
  match kind_byte instr with
  | REB_INTEGER =>
      from_loop_head h = (Exit (to_int (payload instr)), [ev])
      /\ (forall fuel,
            run_loop (S fuel) true h = (Some (to_int (payload instr)), [ev]))
      /\ (- 2 ^ 31 <= payload instr < 2 ^ 31 ->
          to_int (payload instr) = payload instr)
  | REB_BLOCK =>
      from_loop_head h
      = (Loop_Head (mkHost false
                      (snd (Run_Sandboxed_Code true (globals h) instr))
                      (saved h) (no_recover h) instr
                      (fst (Run_Sandboxed_Code true (globals h) instr))),
         [ev; Ev_Run true (globals h) instr])
  | _ =>
      from_loop_head h
      = (Loop_Head (mkHost false core_hooks
                      (snd (Run_Sandboxed_Code true (saved h) instr))
                      false instr
                      (fst (Run_Sandboxed_Code true (saved h) instr))),
         [ev; Ev_Run true (saved h) instr])
  end.
Proof.
  intros Hc Hdrv ev. subst ev.
  destruct h as [cc g sv nr cd rs]. cbn in Hc, Hdrv. subst cc.
  destruct instr as [k p].
  assert (Hstep : from_loop_head (mkHost false g sv nr cd rs)
                  = from_recover (mkHost false g sv nr cd rs)) by reflexivity.
  destruct k; cbn [kind_byte payload globals code result saved no_recover];
    try (rewrite Hstep; unfold from_recover;
         cbn [ctrl_c_enabled globals code result saved no_recover];
         rewrite Hdrv; unfold rebDid_integer_q, rebDid_block_q;
         cbn [kind_byte]; kind_tests; cbn;
         match goal with
         | |- context [Run_Sandboxed_Code ?a ?b ?c] =>
             destruct (Run_Sandboxed_Code a b c)
         end; cbn; reflexivity).
  split; [|split].
  - rewrite Hstep. unfold from_recover.
    cbn [ctrl_c_enabled globals code result saved no_recover].
    by rewrite Hdrv.
  - intros fuel. cbn [run_loop]. rewrite Hstep. unfold from_recover.
    cbn [ctrl_c_enabled globals code result saved no_recover].
    by rewrite Hdrv.
  - intros Hp. unfold to_int. rewrite Z.mod_small; lia.
Qed.

End Loop.

Lemma host_loop_instruction_contract_witness :
  ctrl_c_enabled host0 = false
  /\ stub_console (globals host0) (code host0) (result host0)
     = Trapped_Block (mkVal REB_BLOCK 1)
  /\ from_loop_head stub_console stub_sandbox (mkVal REB_BLOCK 9) host0
     = (Loop_Head (mkHost false core_hooks traced false
                     (mkVal REB_BLOCK 1) (mkVal REB_BLOCK 0)),
        [Ev_Console false core_hooks (mkVal REB_BLANK 0) (mkVal REB_BLOCK 0);
         Ev_Run true core_hooks (mkVal REB_BLOCK 1)]).
Proof.
  split; [reflexivity|]. split; [reflexivity|].
  exact (host_loop_instruction_contract stub_console stub_sandbox
           (mkVal REB_BLOCK 9) host0 (mkVal REB_BLOCK 1) eq_refl eq_refl).
Defined.

(** The claim that a BLOCK! instruction runs without Ctrl-C enabled, on
    the stub: the block is run with [ctrl_c_enabled] true, as the group
    is; the group alone runs with the saved TRACE hook. *)
Lemma host_loop_block_runs_with_ctrl_c :
  run_loop stub_console stub_sandbox (mkVal REB_BLOCK 9) 3 true host0
  = (Some 7,
     [Ev_Console false core_hooks (mkVal REB_BLANK 0) (mkVal REB_BLOCK 0);
      Ev_Run true core_hooks (mkVal REB_BLOCK 1);
      Ev_Console false core_hooks (mkVal REB_BLOCK 1) (mkVal REB_BLOCK 0);
      Ev_Run true traced (mkVal REB_GROUP 2);
      Ev_Console false core_hooks (mkVal REB_GROUP 2) (mkVal REB_BLOCK 0)]).
Proof. reflexivity. Qed.

End HostMain.

(** ** SAVE (%mezz-save.r) *)

Module Save.

(** The series held by the word [data]: a TEXT! or a BINARY!. *)
Inductive Data : Type :=
| D_text (chars : string)
| D_binary (bytes : list Z).

Definition binary_q (d : Data) : bool :=
  match d with D_binary _ => true | D_text _ => false end.

(** The argument [method] once defaulted: blank, a LOGIC!, the word
    [script], or another word. *)
Inductive Method : Type :=
| M_blank
| M_logic (b : bool)
| M_script
| M_word (spelling : string).

Definition method_is_script (m : Method) : bool :=
  match m with M_script => true | _ => false end.

(** Where the bytes go. *)
Inductive Where : Type :=
| W_file (path : string)
| W_url (url : string)
| W_blank
| W_series (target : Data).

(** [newline] is the character 10. *)
Definition newline : string := String (Ascii.ascii_of_nat 10) EmptyString.

Section Save.

(** Values and blocks of the language, and the natives SAVE calls; the
    natives are C code outside this file.  [find_word b w] is the index
    at which [find b w] stands, [change_at b i v] is [change (at b i) v]
    with indices counted from 0, and [header_text] is
    [unspaced [{REBOL} space (mold header-data) newline]]. *)
Variable Value : Type.
Variable Block : Type.
Variable mold_only : bool -> Value -> string.
Variable to_binary : string -> list Z.
Variable checksum_secure : list Z -> Value.
Variable gzip : Data -> list Z.
Variable mold64 : Data -> string.
Variable length_of : Data -> Value.
Variable find_word : Block -> string -> option nat.
Variable change_at : Block -> nat -> Value -> Result Block.
Variable header_text : Block -> string.

(** The calls of the hashing, compressing and encoding natives, and of
    CHANGE on the header, in the order they are made. *)
Inductive Event : Type :=
| Ev_checksum (input : list Z)
| Ev_change (header : Block) (index : nat) (v : Value)
| Ev_gzip (input : Data)
| Ev_mold64 (input : Data).

(** The words of SAVE that the serialization reads, after the header
    has been normalized: [header-data] (blank, or the body block of the
    header), [compress], [method], [length] (as a condition) and
    [all_SAVE]. *)
Record Settings : Type := mkSettings {
  header_data : option Block;
  compress : bool;
  method : Method;
  length_requested : bool;
  all_SAVE : bool
}.

Record State : Type := mkState {
  st_header : option Block;
  st_data : Data;
  st_trace : list Event
}.

(** The branches of [case/all], each applied when its condition holds. *)
Definition branch_checksum (st : State) : Result State :=
  match st_header st with
  | None => Ok st
  | Some hdr =>
      match find_word hdr "checksum"%string with
      | None => Ok st
      | Some tmp =>
          match st_data st with
          | D_binary _ => Undefined
          | D_text chars =>
              let data := to_binary chars in
              let sum := checksum_secure data in
              let* hdr' := change_at hdr (S tmp) sum in
              Ok (mkState (Some hdr') (D_binary data)
                    (st_trace st ++ [Ev_checksum data; Ev_change hdr (S tmp) sum]))
          end
      end
  end.

Definition branch_compress (cfg : Settings) (st : State) : Result State :=
  if compress cfg
  then Ok (mkState (st_header st) (D_binary (gzip (st_data st)))
             (st_trace st ++ [Ev_gzip (st_data st)]))
  else Ok st.

Definition branch_script (cfg : Settings) (st : State) : Result State :=
  if method_is_script (method cfg)
  then Ok (mkState (st_header st) (D_text (mold64 (st_data st)))
             (st_trace st ++ [Ev_mold64 (st_data st)]))
  else Ok st.

Definition branch_to_binary (st : State) : Result State :=
  match st_data st with
  | D_binary _ => Ok st
  | D_text chars =>
      Ok (mkState (st_header st) (D_binary (to_binary chars)) (st_trace st))
  end.

Definition branch_length (cfg : Settings) (st : State) : Result State :=
  if length_requested cfg
  then match st_header st with
       | None => Fail Error_Invalid
       | Some hdr =>
           match find_word hdr "length"%string with
           | None => Fail Error_Invalid
           | Some i =>
               let v := length_of (st_data st) in
               let* hdr' := change_at hdr (S i) v in
               Ok (mkState (Some hdr') (st_data st)
                     (st_trace st ++ [Ev_change hdr (S i) v]))
           end
       end
  else Ok st.

Definition branch_header (st : State) : Result State :=
  match st_header st, st_data st with
  | None, _ => Ok st
  | Some hdr, D_binary bytes =>
      Ok (mkState (st_header st)
            (D_binary (to_binary (header_text hdr) ++ bytes)) (st_trace st))
  | Some hdr, D_text chars =>
      Ok (mkState (st_header st)
            (D_text (String.append (header_text hdr) chars)) (st_trace st))
  end.

(** The molded body with its newline: [mold/only] or [mold/all/only],
    then [append data newline]. *)
Definition molded_body (cfg : Settings) (value : Value) : string :=
  String.append (mold_only (all_SAVE cfg) value) newline.

(** From the mold to the end of [case/all]. *)
Definition serialize (cfg : Settings) (value : Value) : Result State :=
  let data := D_text (molded_body cfg value) in
  let* st := branch_checksum (mkState (header_data cfg) data []) in
  let* st := branch_compress cfg st in
  let* st := branch_script cfg st in
  let* st := branch_to_binary st in
  let* st := branch_length cfg st in
  branch_header st.

(** The effect of the last [case]: a WRITE, the bytes returned, or an
    insertion at the tail of the target. *)
Inductive Outcome : Type :=
| Out_write (target : Where) (data : Data)
| Out_return (data : Data)
| Out_insert_tail (target : Data) (data : Data).

Definition save_from_mold (where_ : Where) (cfg : Settings) (value : Value)
  : Result (Outcome * list Event) :=
  let* st := serialize cfg value in
  Ok (match where_ with
      | W_file _ | W_url _ => Out_write where_ (st_data st)
      | W_blank => Out_return (st_data st)
      | W_series target => Out_insert_tail target (st_data st)
      end, st_trace st).

(** The checksum requested by the header: the index of the word
    [checksum] in it. *)
Definition checksum_index (cfg : Settings) : option nat :=
  match header_data cfg with
  | None => None
  | Some hdr => find_word hdr "checksum"%string
  end.

(** The data the compression step receives. *)
Definition body_for_gzip (cfg : Settings) (value : Value) : Data :=
  match checksum_index cfg with
  | Some _ => D_binary (to_binary (molded_body cfg value))
  | None => D_text (molded_body cfg value)
  end.

(** The data the base-64 step receives. *)
Definition body_for_mold64 (cfg : Settings) (value : Value) : Data :=
  if compress cfg then D_binary (gzip (body_for_gzip cfg value))
  else body_for_gzip cfg value.

(** *** Properties *)


End Save.

(** An instance of the natives, to run the serialization: values and
    header items are strings, a text is turned into the codes of its
    characters, the checksum is a fixed word, compression prefixes a
    byte, and CHANGE overwrites an item or appends at the tail. *)
Definition sample_to_binary (chars : string) : list Z :=
  (fun c => Z.of_nat (Ascii.nat_of_ascii c)) <$> String.list_ascii_of_string chars.

Definition sample_gzip (d : Data) : list Z :=
  31%Z :: match d with
          | D_text chars => sample_to_binary chars
          | D_binary bytes => bytes
          end.

Fixpoint sample_find (b : list string) (w : string) : option nat :=
  match b with
  | [] => None
  | item :: rest =>
      if String.eqb item w then Some O
      else match sample_find rest w with
           | Some i => Some (S i)
           | None => None
           end
  end.

Definition sample_change (b : list string) (i : nat) (v : string)
  : Result (list string) :=
  if (i <? length b)%nat then Ok (<[i := v]> b)
  else if (i =? length b)%nat then Ok (b ++ [v])
  else Fail Error_Past_End_Raw.


Definition sample_settings : Settings (list string) :=
  mkSettings _ (Some ["title"; "x"; "checksum"; "none"]%string)
    true M_blank false false.


End Save.

(** ** Series expansion (%m-pools.c, %sys-rebser.h) *)

Module Series.

Local Open Scope Z_scope.

(** Sizes of the 64-bit build: a cell is four pointer-sized slots, and
    [union Reb_Series_Content] is as large as the one cell it can hold. *)
Definition sizeof_REBVAL : Z := 32.
Definition sizeof_content : Z := 32.

(** *** Raw memory

    An allocation is the list of its bytes.  A pointer into it is an
    offset; forming a pointer outside of [0, length] or touching bytes
    outside of the allocation is not defined. *)
Definition in_bounds (m : list Byte.byte) (off n : Z) : bool :=
  (0 <=? off) && (0 <=? n) && (off + n <=? Z.of_nat (length m)).

Definition mem_read (m : list Byte.byte) (off n : Z) : Result (list Byte.byte) :=
  if in_bounds m off n
  then Ok (take (Z.to_nat n) (drop (Z.to_nat off) m))
  else Undefined.

Definition mem_write (m : list Byte.byte) (off : Z) (bs : list Byte.byte)
  : Result (list Byte.byte) :=
  if in_bounds m off (Z.of_nat (length bs))
  then Ok (take (Z.to_nat off) m ++ bs
           ++ drop (Z.to_nat off + length bs) m)
  else Undefined.

(** [memmove(m + dst, m + src, n)] and [memcpy(to + dst, from + src, n)]. *)
Definition memmove (m : list Byte.byte) (dst src n : Z) : Result (list Byte.byte) :=
  let* bs := mem_read m src n in mem_write m dst bs.

Definition memcpy (to : list Byte.byte) (dst : Z) (from : list Byte.byte)
    (src n : Z) : Result (list Byte.byte) :=
  let* bs := mem_read from src n in mem_write to dst bs.

(** *** The series node *)

(** [struct Reb_Series_Dynamic]; [data] is the offset of the head in the
    allocation [mem], which starts at the unbiased address. *)
Record Reb_Series_Dynamic : Type := mkDyn {
  mem : list Byte.byte;
  data : Z;
  len : Z;
  rest : Z;
  bias : Z
}.

(** [union Reb_Series_Content], told apart by [LEN_BYTE_OR_255]: 255 for
    the dynamic member, otherwise the length of the content held in the
    node itself. *)
Inductive Reb_Series_Content : Type :=
| Dynamic (d : Reb_Series_Dynamic)
| Fixed (len_byte : Z) (bytes : list Byte.byte).

Record REBSER : Type := mkSer {
  SERIES_FLAG_FIXED_SIZE : bool;
  SERIES_FLAG_POWER_OF_2 : bool;
  WIDE_BYTE_OR_0 : Z;
  content : Reb_Series_Content
}.

Definition LEN_BYTE_OR_255 (s : REBSER) : Z :=
  match content s with Dynamic _ => 255 | Fixed lb _ => lb end.

Definition IS_SER_ARRAY (s : REBSER) : bool := WIDE_BYTE_OR_0 s =? 0.
Definition IS_SER_DYNAMIC (s : REBSER) : bool := LEN_BYTE_OR_255 s =? 255.

Definition SER_WIDE (s : REBSER) : Z :=
  if WIDE_BYTE_OR_0 s =? 0 then sizeof_REBVAL else WIDE_BYTE_OR_0 s.

(** [(bias >> 16) & 0xffff] *)
Definition SER_BIAS (d : Reb_Series_Dynamic) : Z :=
  Z.land (Z.shiftr (bias d) 16) 65535.

(** [s->content.dynamic.bias -= b << 16] *)
Definition SER_SUB_BIAS (d : Reb_Series_Dynamic) (b : Z) : Z :=
  u32 (bias d - u32 (Z.shiftl b 16)).

Definition SER_REST (s : REBSER) : Z :=
  match content s with
  | Dynamic d => rest d
  | Fixed _ _ => if IS_SER_ARRAY s then 2 else sizeof_content / SER_WIDE s
  end.

(** [SER_LEN]: the [len] field of a dynamic series, the length byte of the
    header otherwise (%sys-rebser.h, "BITS 16-23 ARE SER_LEN() FOR
    NON-DYNAMIC SERIES"). *)
Definition SER_LEN (s : REBSER) : Z :=
  match content s with
  | Dynamic d => len d
  | Fixed lb _ => lb
  end.

Definition with_content (s : REBSER) (c : Reb_Series_Content) : REBSER :=
  mkSer (SERIES_FLAG_FIXED_SIZE s) (SERIES_FLAG_POWER_OF_2 s)
    (WIDE_BYTE_OR_0 s) c.

(** [SER_DATA_RAW]: the block of memory the data lives in and the offset
    of the head in it. *)
Definition SER_DATA_RAW (s : REBSER) : list Byte.byte * Z :=
  match content s with
  | Dynamic d => (mem d, data d)
  | Fixed _ bytes => (bytes, 0)
  end.

(** The same series with the bytes of that block replaced. *)
Definition with_memory (s : REBSER) (m : list Byte.byte) : REBSER :=
  with_content s
    match content s with
    | Dynamic d => Dynamic (mkDyn m (data d) (len d) (rest d) (bias d))
    | Fixed lb _ => Fixed lb m
    end.

(** The elements of the series, as the bytes from its head to its tail. *)
Definition SER_BYTES (s : REBSER) : Result (list Byte.byte) :=
  let '(m, head) := SER_DATA_RAW s in
  mem_read m head (SER_LEN s * SER_WIDE s).

(** Modelled from the spec: SET_SERIES_LEN of %sys-series.h is not in the
    tree.  The length goes to the [len] field of a dynamic series and to
    the length byte otherwise, which holds it only while the content
    fits in the node. *)
Definition SET_SERIES_LEN (s : REBSER) (l : Z) : Result REBSER :=
  match content s with
  | Dynamic d => Ok (with_content s (Dynamic (mkDyn (mem d) (data d) l (rest d) (bias d))))
  | Fixed _ bytes =>
      if (0 <=? l) && (l <? sizeof_content)
      then Ok (with_content s (Fixed l bytes))
      else Undefined
  end.

Section Expand.

(** [SET_END] on the bytes of a cell, and [Prep_Array] on the bytes of a
    fresh array allocation (%sys-value.h, %sys-array.h). *)
Variable SET_END : list Byte.byte -> list Byte.byte.
Variable Prep_Array : list Byte.byte -> list Byte.byte.

(** [Did_Series_Data_Alloc(s, units)] for a series of the given width:
    the fresh allocation and its capacity in units, or failure. *)
Variable Did_Series_Data_Alloc : Z -> Z -> option (list Byte.byte * Z).

(** Modelled from the spec: TERM_SERIES of %sys-series.h is not in the
    tree; "arrays maintain an implicit or explicit end-marker one past
    their logical length".  An array gets an END in the cell past its
    tail (for an array held in the node with one cell, the info bits of
    the node are that END); other series get one zeroed unit. *)
Definition TERM_SERIES (s : REBSER) : Result REBSER :=
  let '(m, head) := SER_DATA_RAW s in
  let at_tail := head + SER_LEN s * SER_WIDE s in
  if IS_SER_ARRAY s then
    if negb (IS_SER_DYNAMIC s) && (SER_LEN s =? 1) then Ok s
    else
      let* cell := mem_read m at_tail sizeof_REBVAL in
      let* m' := mem_write m at_tail (SET_END cell) in
      Ok (with_memory s m')
  else
    let* m' := mem_write m at_tail
                 (replicate (Z.to_nat (SER_WIDE s)) Byte.x00) in
    Ok (with_memory s m').

(** The scan of [Prior_Expand] for the series [sp]: [None] when it is
    found, otherwise the slot [n_available] to record it in. *)
Fixpoint scan_prior (prior : list Z) (sp : Z) (n n_available : nat)
  : option nat :=
  match prior with
  | [] => Some n_available
  | p :: prior' =>
      if p =? sp then None
      else scan_prior prior' sp (S n) (if p =? 0 then n else n_available)
  end.

(** [Expand_Series(s, index, delta)]; [sp] is the address of the node [s]
    and [Prior_Expand] the table of recently expanded series.  The
    scribbling of the opened slots, which only the checked build does, is
    left out. *)
Definition Expand_Series (Prior_Expand : list Z) (sp : Z) (s : REBSER)
    (index delta : Z) : Result (REBSER * list Z) :=
  if negb (Z.land delta 2147483648 =? 0) then Fail Error_Past_End_Raw
  else if delta =? 0 then Ok (s, Prior_Expand)
  else
    let len_old := SER_LEN s in
    let wide := SER_WIDE s in
    let head_insertion :=
      match content s with
      | Dynamic d =>
          if (index =? 0) && (delta <=? SER_BIAS d) then Some d else None
      | Fixed _ _ => None
      end in
    match head_insertion with
    | Some d =>
        let data' := data d - u32 (wide * delta) in
        if data' <? 0 then Undefined
        else Ok (with_content s
                   (Dynamic (mkDyn (mem d) data' (u32 (len d + delta))
                               (u32 (rest d + delta)) (SER_SUB_BIAS d delta))),
                 Prior_Expand)
    | None =>
        let start := u32 (index * wide) in
        let extra := u32 (delta * wide) in
        let size := u32 (SER_LEN s * wide) in
        if u32 (u32 (size + extra) + wide) <=? u32 (SER_REST s * SER_WIDE s)
        then
          let '(m, head) := SER_DATA_RAW s in
          let* m' := memmove m (head + start + extra) (head + start)
                       (u32 (size - start)) in
          let* s1 := SET_SERIES_LEN (with_memory s m') (u32 (len_old + delta)) in
          let* s2 := TERM_SERIES s1 in
          Ok (s2, Prior_Expand)
        else if SERIES_FLAG_FIXED_SIZE s then Fail Error_Locked_Series_Raw
        else
          let found := scan_prior Prior_Expand sp 0 0 in
          let x := match found with
                   | None => u32 (u32 (SER_LEN s + delta) + 1)
                   | Some _ => 1
                   end in
          let '(data_old, head_old) := SER_DATA_RAW s in
          let units := u32 (u32 (len_old + delta) + x) in
          match Did_Series_Data_Alloc units wide with
          | None => Fail (Error_No_Memory (u32 (units * wide)))
          | Some (fresh, rest') =>
              let fresh := if IS_SER_ARRAY s then Prep_Array fresh else fresh in
              let Prior_Expand' :=
                match found with
                | Some n_available => <[n_available := sp]> Prior_Expand
                | None => Prior_Expand
                end in
              let* m1 := memcpy fresh 0 data_old head_old start in
              let* m2 := memcpy m1 (start + extra) data_old (head_old + start)
                           (u32 (size - start)) in
              let s1 := mkSer (SERIES_FLAG_FIXED_SIZE s) true (WIDE_BYTE_OR_0 s)
                          (Dynamic (mkDyn m2 0 (u32 (len_old + delta)) rest' 0)) in
              let* s2 := TERM_SERIES s1 in
              Ok (s2, Prior_Expand')
          end
    end.

(** Whether the expansion needs a new allocation: neither the head bias
    nor the capacity left in the present allocation takes it. *)
Definition needs_new_allocation (s : REBSER) (index delta : Z) : bool :=
  negb match content s with
       | Dynamic d => (index =? 0) && (delta <=? SER_BIAS d)
       | Fixed _ _ => false
       end
  && negb (u32 (u32 (u32 (SER_LEN s * SER_WIDE s) + u32 (delta * SER_WIDE s))
                + SER_WIDE s)
           <=? u32 (SER_REST s * SER_WIDE s)).

(** A series whose fields are in the range of their C types and whose
    elements lie inside its memory, which is smaller than 4GB. *)
Definition series_valid (s : REBSER) : Prop :=
  0 <= WIDE_BYTE_OR_0 s < 256
  /\ 0 <= SER_LEN s
  /\ Z.of_nat (length (fst (SER_DATA_RAW s))) < 2 ^ 32
  /\ match content s with
     | Dynamic d =>
         0 <= data d
         /\ data d + len d * SER_WIDE s <= Z.of_nat (length (mem d))
     | Fixed lb bytes =>
         Z.of_nat (length bytes) = sizeof_content
         /\ lb * SER_WIDE s <= sizeof_content
     end.


(** A valid series with the bookkeeping the allocator gives it: the head
    stands [SER_BIAS] units into an allocation of [SER_TOTAL] bytes, and
    the capacity has room for the terminator. *)
Definition series_wellformed (s : REBSER) : Prop :=
  series_valid s
  /\ match content s with
     | Dynamic d =>
         data d = SER_BIAS d * SER_WIDE s
         /\ Z.of_nat (length (mem d)) = (rest d + SER_BIAS d) * SER_WIDE s
         /\ len d < rest d
     | Fixed lb _ =>
         if IS_SER_ARRAY s then lb <= 1
         else (lb + 1) * SER_WIDE s <= sizeof_content
     end.

(** An allocator that serves every request of less than 4GB. *)
Definition allocator_serves : Prop :=
  forall units wide,
    0 <= units -> 0 < wide -> units * wide < 2 ^ 32 ->
    exists fresh rest',
      Did_Series_Data_Alloc units wide = Some (fresh, rest')
      /\ units <= rest'
      /\ Z.of_nat (length fresh) = rest' * wide.

(** *** Properties *)

(** What the allocator, [Prep_Array] and [SET_END] are relied on for: a
    fresh allocation has at least the capacity asked for, as many bytes
    as its capacity takes, and less than 4GB; formatting bytes keeps
    their number. *)
Definition allocator_sound : Prop :=
  forall units wide fresh rest',
    Did_Series_Data_Alloc units wide = Some (fresh, rest') ->
    units <= rest'
    /\ Z.of_nat (length fresh) = rest' * wide
    /\ rest' * wide < 2 ^ 32.

Definition keeps_length (f : list Byte.byte -> list Byte.byte) : Prop :=
  forall bs, length (f bs) = length bs.

Lemma in_bounds_spec (m : list Byte.byte) (off n : Z) :
  in_bounds m off n = true <->
  0 <= off /\ 0 <= n /\ off + n <= Z.of_nat (length m).
Proof. unfold in_bounds. rewrite !andb_true_iff. lia. Qed.

Lemma mem_read_Ok (m : list Byte.byte) (off n : Z) (bs : list Byte.byte) :
  mem_read m off n = Ok bs ->
  (0 <= off /\ 0 <= n /\ off + n <= Z.of_nat (length m))
  /\ bs = take (Z.to_nat n) (drop (Z.to_nat off) m)
  /\ length bs = Z.to_nat n.
Proof.
  unfold mem_read. destruct (in_bounds m off n) eqn:Hb; [|done].
  apply in_bounds_spec in Hb. intros [= <-]. split; [done|]. split; [done|].
  rewrite length_take, length_drop. lia.
Qed.

Lemma mem_write_Ok (m : list Byte.byte) (off : Z) (bs m' : list Byte.byte) :
  mem_write m off bs = Ok m' ->
  (0 <= off /\ off + Z.of_nat (length bs) <= Z.of_nat (length m))
  /\ m' = take (Z.to_nat off) m ++ bs ++ drop (Z.to_nat off + length bs) m
  /\ length m' = length m.
Proof.
  unfold mem_write. destruct (in_bounds m off _) eqn:Hb; [|done].
  apply in_bounds_spec in Hb. intros [= <-]. split; [lia|]. split; [done|].
  rewrite !length_app, length_take, length_drop. lia.
Qed.

(** A write leaves the bytes before it as they were. *)
Lemma mem_write_before (m : list Byte.byte) (off : Z) (bs m' : list Byte.byte)
    (a k : nat) :
  mem_write m off bs = Ok m' ->
  (a + k <= Z.to_nat off)%nat ->
  take k (drop a m') = take k (drop a m).
Proof.
  intros (Hb & -> & _)%mem_write_Ok Hak.
  apply list_eq. intros j.
  destruct (decide (j < k)%nat) as [Hj|Hj].
  - rewrite !lookup_take_lt, !lookup_drop by done.
    rewrite lookup_app_l by (rewrite length_take; lia).
    by rewrite lookup_take_lt by lia.
  - by rewrite !lookup_take_ge by lia.
Qed.

(** A write shows up where it was made. *)
Lemma mem_write_at (m : list Byte.byte) (off : Z) (bs m' : list Byte.byte) :
  mem_write m off bs = Ok m' ->
  take (length bs) (drop (Z.to_nat off) m') = bs.
Proof.
  intros (Hb & -> & _)%mem_write_Ok.
  rewrite drop_app_length' by (rewrite length_take; lia).
  by rewrite take_app_length.
Qed.

(** How the expanded elements relate to the old ones, once the part
    before the insertion point and the part after it are where they
    belong. *)
Lemma region_splice (m m' : list Byte.byte) (b b' st ex n : nat) :
  take st (drop b' m') = take st (drop b m) ->
  take n (drop (b' + st + ex) m') = take n (drop (b + st) m) ->
  (b' + st + ex + n <= length m')%nat ->
  take st (take (st + ex + n) (drop b' m')) = take st (take (st + n) (drop b m))
  /\ drop (st + ex) (take (st + ex + n) (drop b' m'))
     = drop st (take (st + n) (drop b m))
  /\ length (take (st + ex + n) (drop b' m')) = (st + ex + n)%nat.
Proof.
  intros Hpre Hpost Hlen. split; [|split].
  - rewrite !take_take. by replace (st `min` (st + ex + n))%nat with st by lia;
      replace (st `min` (st + n))%nat with st by lia.
  - rewrite <- !take_drop_commute, !drop_drop.
    by rewrite Nat.add_assoc.
  - rewrite length_take, length_drop. lia.
Qed.


Lemma u32_small (x : Z) : 0 <= x < 2 ^ 32 -> u32 x = x.
Proof. apply Z.mod_small. Qed.

(** No 32-bit quantity of the expansion wraps around once the moved
    part and the terminator both lie inside a memory block of less than
    4GB. *)
Lemma expansion_no_wrap (w i L d M : Z) :
  0 < w < 256 -> 0 <= i <= L -> L * w < 2 ^ 32 -> 0 <= d < 2 ^ 31 ->
  M < 2 ^ 32 ->
  i * w + u32 (d * w) + (L * w - i * w) <= M ->
  (u32 (L + d) + 1) * w <= M ->
  u32 (L + d) = L + d /\ u32 (d * w) = d * w.
Proof.
  intros Hw Hi HL Hd HM Hmove Hterm.
  destruct (Z_lt_le_dec (L + d) (2 ^ 32)) as [Hlt|Hge].
  - rewrite (u32_small (L + d)) in * by lia. split; [done|].
    apply u32_small. nia.
  - exfalso. assert (w = 1) as -> by nia.
    rewrite !Z.mul_1_r in *. rewrite (u32_small d) in Hmove by lia. lia.
Qed.

Lemma series_valid_bytes (s : REBSER) :
  series_valid s ->
  0 < SER_WIDE s < 256
  /\ 0 <= snd (SER_DATA_RAW s)
  /\ snd (SER_DATA_RAW s) + SER_LEN s * SER_WIDE s
     <= Z.of_nat (length (fst (SER_DATA_RAW s)))
  /\ SER_BYTES s
     = Ok (take (Z.to_nat (SER_LEN s * SER_WIDE s))
             (drop (Z.to_nat (snd (SER_DATA_RAW s))) (fst (SER_DATA_RAW s)))).
Proof.
  intros (Hw & HL & HM & Hc).
  assert (Hwide : 0 < SER_WIDE s < 256).
  { unfold SER_WIDE, sizeof_REBVAL. destruct (WIDE_BYTE_OR_0 s =? 0) eqn:E; lia. }
  unfold SER_BYTES, SER_DATA_RAW, SER_LEN in *.
  destruct (content s) as [d|lb bytes]; cbn [fst snd] in *.
  - destruct Hc as [Hd Hfit]. repeat split; try lia.
    unfold mem_read.
    rewrite (proj2 (in_bounds_spec _ _ _)); [done|]. nia.
  - destruct Hc as [Hlen Hfit]. unfold sizeof_content in *.
    repeat split; try lia.
    unfold mem_read.
    rewrite (proj2 (in_bounds_spec _ _ _)); [done|]. nia.
Qed.

(** The statement of content preservation, for a series [s'] that
    stands for [s] expanded at [index] by [delta]. *)
Definition expanded (s s' : REBSER) (index delta : Z) : Prop :=
  SER_LEN s' = SER_LEN s + delta
  /\ exists old new,
       SER_BYTES s = Ok old /\ SER_BYTES s' = Ok new
       /\ take (Z.to_nat (index * SER_WIDE s)) new
          = take (Z.to_nat (index * SER_WIDE s)) old
       /\ drop (Z.to_nat ((index + delta) * SER_WIDE s)) new
          = drop (Z.to_nat (index * SER_WIDE s)) old
       /\ Z.of_nat (length new) = (SER_LEN s + delta) * SER_WIDE s.

(** From bytes in place to the statement. *)
Lemma expanded_intro (s s' : REBSER) (index delta : Z) :
  series_valid s -> 0 <= index <= SER_LEN s -> 0 <= delta ->
  SER_LEN s' = SER_LEN s + delta ->
  SER_WIDE s' = SER_WIDE s ->
  0 <= snd (SER_DATA_RAW s') ->
  snd (SER_DATA_RAW s') + (SER_LEN s + delta) * SER_WIDE s
    <= Z.of_nat (length (fst (SER_DATA_RAW s'))) ->
  take (Z.to_nat (index * SER_WIDE s))
    (drop (Z.to_nat (snd (SER_DATA_RAW s'))) (fst (SER_DATA_RAW s')))
  = take (Z.to_nat (index * SER_WIDE s))
      (drop (Z.to_nat (snd (SER_DATA_RAW s))) (fst (SER_DATA_RAW s))) ->
  take (Z.to_nat (SER_LEN s * SER_WIDE s - index * SER_WIDE s))
    (drop (Z.to_nat (snd (SER_DATA_RAW s')
                     + index * SER_WIDE s + delta * SER_WIDE s))
       (fst (SER_DATA_RAW s')))
  = take (Z.to_nat (SER_LEN s * SER_WIDE s - index * SER_WIDE s))
      (drop (Z.to_nat (snd (SER_DATA_RAW s) + index * SER_WIDE s))
         (fst (SER_DATA_RAW s))) ->
  expanded s s' index delta.
Proof.
  intros Hv Hi Hd Hlen Hwide Hb' Hfit Hpre Hpost.
  destruct (series_valid_bytes s Hv) as (Hw & Hb & Hbfit & Hold).
  unfold expanded.
  set (w := SER_WIDE s) in *. set (L := SER_LEN s) in *.
  assert (Hiw : 0 <= index * w <= L * w) by nia.
  assert (Hdw : 0 <= delta * w) by nia.
  split; [done|].
  eexists _, _. split; [exact Hold|].
  assert (Hnew : SER_BYTES s'
                 = Ok (take (Z.to_nat ((L + delta) * w))
                         (drop (Z.to_nat (snd (SER_DATA_RAW s')))
                            (fst (SER_DATA_RAW s'))))).
  { unfold SER_BYTES. destruct (SER_DATA_RAW s') as [m' b'] eqn:E.
    cbn [fst snd] in *. rewrite Hlen, Hwide. fold w. unfold mem_read.
    rewrite (proj2 (in_bounds_spec _ _ _)); [done|]. nia. }
  split; [exact Hnew|].
  destruct (region_splice (fst (SER_DATA_RAW s)) (fst (SER_DATA_RAW s'))
              (Z.to_nat (snd (SER_DATA_RAW s)))
              (Z.to_nat (snd (SER_DATA_RAW s')))
              (Z.to_nat (index * w)) (Z.to_nat (delta * w))
              (Z.to_nat (L * w - index * w))) as (R1 & R2 & R3).
  - exact Hpre.
  - replace (Z.to_nat (snd (SER_DATA_RAW s')) + Z.to_nat (index * w)
             + Z.to_nat (delta * w))%nat
      with (Z.to_nat (snd (SER_DATA_RAW s') + index * w + delta * w)) by lia.
    replace (Z.to_nat (snd (SER_DATA_RAW s)) + Z.to_nat (index * w))%nat
      with (Z.to_nat (snd (SER_DATA_RAW s) + index * w)) by lia.
    exact Hpost.
  - rewrite Z.mul_add_distr_r in Hfit. lia.
  - replace (Z.to_nat ((L + delta) * w))
      with (Z.to_nat (index * w) + Z.to_nat (delta * w)
            + Z.to_nat (L * w - index * w))%nat
      by (rewrite Z.mul_add_distr_r; lia).
    replace (Z.to_nat ((index + delta) * w))
      with (Z.to_nat (index * w) + Z.to_nat (delta * w))%nat
      by (rewrite Z.mul_add_distr_r; lia).
    replace (Z.to_nat (L * w))
      with (Z.to_nat (index * w) + Z.to_nat (L * w - index * w))%nat by lia.
    split; [exact R1|]. split; [exact R2|].
    rewrite R3, Z.mul_add_distr_r. lia.
Qed.


Lemma with_memory_raw (s : REBSER) (m : list Byte.byte) :
  SER_DATA_RAW (with_memory s m) = (m, snd (SER_DATA_RAW s))
  /\ SER_LEN (with_memory s m) = SER_LEN s
  /\ WIDE_BYTE_OR_0 (with_memory s m) = WIDE_BYTE_OR_0 s
  /\ IS_SER_DYNAMIC (with_memory s m) = IS_SER_DYNAMIC s.
Proof.
  unfold with_memory, with_content, SER_DATA_RAW, SER_LEN, IS_SER_DYNAMIC,
    LEN_BYTE_OR_255.
  by destruct (content s).
Qed.

Lemma SER_WIDE_eq (s s' : REBSER) :
  WIDE_BYTE_OR_0 s' = WIDE_BYTE_OR_0 s -> SER_WIDE s' = SER_WIDE s.
Proof. unfold SER_WIDE. by intros ->. Qed.

(** The terminator is written past the tail, inside the memory, and
    nothing before the tail changes. *)
Lemma TERM_SERIES_Ok (s s2 : REBSER) :
  keeps_length SET_END ->
  TERM_SERIES s = Ok s2 ->
  0 < SER_WIDE s ->
  0 <= snd (SER_DATA_RAW s) + SER_LEN s * SER_WIDE s ->
  SER_LEN s2 = SER_LEN s
  /\ WIDE_BYTE_OR_0 s2 = WIDE_BYTE_OR_0 s
  /\ snd (SER_DATA_RAW s2) = snd (SER_DATA_RAW s)
  /\ length (fst (SER_DATA_RAW s2)) = length (fst (SER_DATA_RAW s))
  /\ (forall a k : nat,
        (a + k <= Z.to_nat (snd (SER_DATA_RAW s) + SER_LEN s * SER_WIDE s))%nat ->
        take k (drop a (fst (SER_DATA_RAW s2)))
        = take k (drop a (fst (SER_DATA_RAW s))))
  /\ (IS_SER_DYNAMIC s = true ->
      snd (SER_DATA_RAW s) + (SER_LEN s + 1) * SER_WIDE s
      <= Z.of_nat (length (fst (SER_DATA_RAW s)))).
Proof.
  intros Hend Hterm Hw0 Htail. unfold TERM_SERIES in Hterm.
  destruct (SER_DATA_RAW s) as [m head] eqn:Hraw. cbn [fst snd] in *.
  assert (Hwm : forall m', Ok (with_memory s m') = Ok s2 ->
                  Z.of_nat (length m') = Z.of_nat (length m) ->
                  (forall a k : nat,
                     (a + k <= Z.to_nat (head + SER_LEN s * SER_WIDE s))%nat ->
                     take k (drop a m') = take k (drop a m)) ->
                  head + (SER_LEN s + 1) * SER_WIDE s <= Z.of_nat (length m) ->
                  SER_LEN s2 = SER_LEN s
                  /\ WIDE_BYTE_OR_0 s2 = WIDE_BYTE_OR_0 s
                  /\ snd (SER_DATA_RAW s2) = head
                  /\ length (fst (SER_DATA_RAW s2)) = length m
                  /\ (forall a k : nat,
                        (a + k <= Z.to_nat (head + SER_LEN s * SER_WIDE s))%nat ->
                        take k (drop a (fst (SER_DATA_RAW s2)))
                        = take k (drop a m))
                  /\ (IS_SER_DYNAMIC s = true ->
                      head + (SER_LEN s + 1) * SER_WIDE s
                      <= Z.of_nat (length m))).
  { intros m' [= <-] Hlen Hbefore Hcap.
    destruct (with_memory_raw s m') as (R1 & R2 & R3 & _).
    rewrite R1, R2, R3, Hraw. cbn [fst snd]. repeat split; try done. lia. }
  destruct (IS_SER_ARRAY s) eqn:Harr.
  - destruct (negb (IS_SER_DYNAMIC s) && (SER_LEN s =? 1)) eqn:Himp.
    + injection Hterm as <-. rewrite Hraw. cbn [fst snd].
      repeat split; try done.
      intros Hdyn. rewrite Hdyn in Himp. done.
    + apply bind_Ok in Hterm as (cell & Hcell & Hterm).
      apply bind_Ok in Hterm as (m' & Hwrite & Hterm).
      apply mem_read_Ok in Hcell as (_ & _ & Hclen).
      pose proof (mem_write_Ok _ _ _ _ Hwrite) as (Hb & _ & Hlen).
      assert (Hw : SER_WIDE s = sizeof_REBVAL).
      { unfold SER_WIDE. unfold IS_SER_ARRAY in Harr. by rewrite Harr. }
      apply (Hwm m'); [done | lia | |].
      * intros a k Hak. eapply mem_write_before; [exact Hwrite|]. lia.
      * rewrite Hend, Hclen in Hb. rewrite Hw. unfold sizeof_REBVAL in *. lia.
  - apply bind_Ok in Hterm as (m' & Hwrite & Hterm).
    pose proof (mem_write_Ok _ _ _ _ Hwrite) as (Hb & _ & Hlen).
    apply (Hwm m'); [done | lia | |].
    + intros a k Hak. eapply mem_write_before; [exact Hwrite|]. lia.
    + rewrite length_replicate in Hb. lia.
Qed.


Lemma SER_BIAS_range (d : Reb_Series_Dynamic) : 0 <= SER_BIAS d < 65536.
Proof.
  unfold SER_BIAS. change 65535 with (Z.ones 16).
  rewrite Z.land_ones by lia. apply Z.mod_pos_bound. lia.
Qed.

(** The head insertion: the head moves back over the bias, the bytes
    stay where they are. *)
Lemma head_insertion_expanded (s : REBSER) (d : Reb_Series_Dynamic) (delta : Z) :
  series_valid s -> content s = Dynamic d ->
  0 <= delta <= SER_BIAS d ->
  0 <= data d - u32 (SER_WIDE s * delta) ->
  expanded s
    (with_content s
       (Dynamic (mkDyn (mem d) (data d - u32 (SER_WIDE s * delta))
                   (u32 (len d + delta)) (u32 (rest d + delta))
                   (SER_SUB_BIAS d delta))))
    0 delta.
Proof.
  intros Hv Hc Hd Hdata.
  destruct (series_valid_bytes s Hv) as (Hw & Hb & Hbfit & _).
  pose proof Hv as (_ & HL & HM & _).
  pose proof (SER_BIAS_range d) as Hbias.
  unfold SER_DATA_RAW, SER_LEN in *. rewrite Hc in *. cbn [fst snd] in *.
  set (w := SER_WIDE s) in *.
  rewrite (u32_small (w * delta)) in * by nia.
  assert (Hlen : u32 (len d + delta) = len d + delta).
  { apply u32_small. nia. }
  apply expanded_intro; try done;
    unfold SER_DATA_RAW, SER_LEN, with_content; cbn; rewrite ?Hc; cbn [fst snd];
    fold w; try lia.
  f_equal. f_equal. lia.
Qed.

(** The expansion inside the present memory. *)
Lemma in_place_expanded (s s1 s2 : REBSER) (index delta : Z)
    (m' : list Byte.byte) :
  keeps_length SET_END ->
  series_valid s -> 0 <= index <= SER_LEN s -> 0 <= delta < 2 ^ 31 ->
  memmove (fst (SER_DATA_RAW s))
    (snd (SER_DATA_RAW s) + u32 (index * SER_WIDE s) + u32 (delta * SER_WIDE s))
    (snd (SER_DATA_RAW s) + u32 (index * SER_WIDE s))
    (u32 (u32 (SER_LEN s * SER_WIDE s) - u32 (index * SER_WIDE s))) = Ok m' ->
  SET_SERIES_LEN (with_memory s m') (u32 (SER_LEN s + delta)) = Ok s1 ->
  TERM_SERIES s1 = Ok s2 ->
  expanded s s2 index delta.
Proof.
  intros Hend Hv Hi Hd Hmove Hset Hterm.
  destruct (series_valid_bytes s Hv) as (Hw & Hb & Hbfit & _).
  pose proof Hv as (_ & HL & HM & Hshape).
  set (w := SER_WIDE s) in *. set (L := SER_LEN s) in *.
  destruct (SER_DATA_RAW s) as [m head] eqn:Hraw. cbn [fst snd] in *.
  assert (Hiw : 0 <= index * w <= L * w) by nia.
  rewrite (u32_small (L * w)), (u32_small (index * w)) in Hmove by lia.
  rewrite (u32_small (L * w - index * w)) in Hmove by lia.
  apply bind_Ok in Hmove as (bs & Hread & Hwrite).
  apply mem_read_Ok in Hread as (_ & -> & Hbs).
  pose proof (mem_write_Ok _ _ _ _ Hwrite) as (Hwb & _ & Hlen').
  rewrite Hbs in Hwb.
  destruct (with_memory_raw s m') as (R1 & R2 & R3 & R4).
  (* the state after SET_SERIES_LEN *)
  assert (Hs1 : SER_DATA_RAW s1 = (m', head)
                /\ SER_LEN s1 = u32 (L + delta)
                /\ WIDE_BYTE_OR_0 s1 = WIDE_BYTE_OR_0 s
                /\ IS_SER_DYNAMIC s1 = IS_SER_DYNAMIC s
                /\ (IS_SER_DYNAMIC s = false -> u32 (L + delta) < sizeof_content)).
  { unfold SET_SERIES_LEN in Hset.
    unfold with_memory, with_content, SER_DATA_RAW, SER_LEN, IS_SER_DYNAMIC,
      LEN_BYTE_OR_255 in *.
    destruct (content s) as [dyn|lb bytes]; cbn in *.
    - injection Hset as <-. cbn. injection Hraw as <- <-. done.
    - destruct ((0 <=? u32 (L + delta)) && (u32 (L + delta) <? sizeof_content))
        eqn:Hfit; [|done].
      injection Hset as <-. cbn. injection Hraw as <- <-.
      repeat split; try done.
      + apply andb_true_iff in Hfit as [_ Hfit]. destruct (u32 (L + delta) =? 255) eqn:E.
        * unfold sizeof_content in *. lia.
        * destruct (lb =? 255) eqn:E'; [|done].
          destruct Hshape as [_ Hshape]. unfold sizeof_content in *. nia.
      + intros _. apply andb_true_iff in Hfit. lia. }
  destruct Hs1 as (S1 & S2 & S3 & S4 & S5).
  assert (Hw1 : SER_WIDE s1 = w) by (by apply SER_WIDE_eq).
  assert (Hu32 : 0 <= u32 (L + delta)) by (apply Z.mod_pos_bound; lia).
  assert (HuE : 0 <= u32 (delta * w)) by (apply Z.mod_pos_bound; lia).
  destruct (TERM_SERIES_Ok s1 s2 Hend Hterm) as (T1 & T2 & T3 & T4 & T5 & T6).
  { rewrite Hw1. lia. }
  { rewrite S1, S2, Hw1. cbn [snd]. nia. }
  rewrite S1, S2, Hw1 in *. cbn [fst snd] in *.
  (* nothing wrapped *)
  assert (Hnw : u32 (L + delta) = L + delta /\ u32 (delta * w) = delta * w).
  { destruct (IS_SER_DYNAMIC s) eqn:Hdyn.
    - rewrite S4 in T6. specialize (T6 eq_refl).
      apply (expansion_no_wrap w index L delta (Z.of_nat (length m)));
        try done; lia.
    - specialize (S5 eq_refl). unfold sizeof_content in S5.
      assert (HLs : L <= 32).
      { unfold IS_SER_DYNAMIC, LEN_BYTE_OR_255, SER_LEN in *. subst L.
        destruct (content s); [done|].
        destruct Hshape as [_ Hshape]. unfold sizeof_content in *. nia. }
      assert (E : u32 (L + delta) = L + delta) by (apply u32_small; lia).
      split; [done|]. apply u32_small. nia. }
  destruct Hnw as [E1 E2]. rewrite E1, E2 in *.
  rewrite Z.mul_add_distr_r in T5.
  apply expanded_intro; try done; try lia.
  - apply SER_WIDE_eq. congruence.
  - rewrite T3, Hraw. cbn [fst snd]. fold w. rewrite T5 by lia.
    eapply mem_write_before; [exact Hwrite|]. lia.
  - rewrite T3, Hraw. cbn [fst snd]. fold w L. rewrite T5 by lia.
    pose proof (mem_write_at _ _ _ _ Hwrite) as Hat.
    rewrite Hbs in Hat. by rewrite Hat.
Qed.


(** The expansion into a fresh allocation. *)
Lemma realloc_expanded (s s2 : REBSER) (index delta rest' : Z)
    (fresh m1 m2 : list Byte.byte) (fixed_size : bool) :
  keeps_length SET_END ->
  series_valid s -> 0 <= index <= SER_LEN s -> 0 <= delta < 2 ^ 31 ->
  Z.of_nat (length fresh) < 2 ^ 32 ->
  memcpy fresh 0 (fst (SER_DATA_RAW s)) (snd (SER_DATA_RAW s))
    (u32 (index * SER_WIDE s)) = Ok m1 ->
  memcpy m1 (u32 (index * SER_WIDE s) + u32 (delta * SER_WIDE s))
    (fst (SER_DATA_RAW s)) (snd (SER_DATA_RAW s) + u32 (index * SER_WIDE s))
    (u32 (u32 (SER_LEN s * SER_WIDE s) - u32 (index * SER_WIDE s))) = Ok m2 ->
  TERM_SERIES
    (mkSer fixed_size true (WIDE_BYTE_OR_0 s)
       (Dynamic (mkDyn m2 0 (u32 (SER_LEN s + delta)) rest' 0))) = Ok s2 ->
  expanded s s2 index delta.
Proof.
  intros Hend Hv Hi Hd Hfresh Hcopy1 Hcopy2 Hterm.
  destruct (series_valid_bytes s Hv) as (Hw & Hb & Hbfit & _).
  pose proof Hv as (_ & HL & HM & _).
  set (w := SER_WIDE s) in *. set (L := SER_LEN s) in *.
  destruct (SER_DATA_RAW s) as [m head] eqn:Hraw. cbn [fst snd] in *.
  assert (Hiw : 0 <= index * w <= L * w) by nia.
  rewrite (u32_small (index * w)) in Hcopy1, Hcopy2 by lia.
  rewrite (u32_small (L * w)) in Hcopy2 by lia.
  rewrite (u32_small (L * w - index * w)) in Hcopy2 by lia.
  apply bind_Ok in Hcopy1 as (bs1 & Hread1 & Hwrite1).
  apply mem_read_Ok in Hread1 as (_ & -> & Hbs1).
  pose proof (mem_write_Ok _ _ _ _ Hwrite1) as (_ & _ & Hlen1).
  apply bind_Ok in Hcopy2 as (bs2 & Hread2 & Hwrite2).
  apply mem_read_Ok in Hread2 as (_ & -> & Hbs2).
  pose proof (mem_write_Ok _ _ _ _ Hwrite2) as (Hwb2 & _ & Hlen2).
  rewrite Hbs2 in Hwb2.
  set (s1 := mkSer fixed_size true (WIDE_BYTE_OR_0 s)
               (Dynamic (mkDyn m2 0 (u32 (L + delta)) rest' 0))) in *.
  assert (Hw1 : SER_WIDE s1 = w) by (by apply SER_WIDE_eq).
  assert (Hu32 : 0 <= u32 (L + delta)) by (apply Z.mod_pos_bound; lia).
  assert (HuE : 0 <= u32 (delta * w)) by (apply Z.mod_pos_bound; lia).
  destruct (TERM_SERIES_Ok s1 s2 Hend Hterm) as (T1 & T2 & T3 & T4 & T5 & T6).
  { rewrite Hw1. lia. }
  { rewrite Hw1. cbn. nia. }
  rewrite Hw1 in *. cbn [s1 SER_DATA_RAW SER_LEN content fst snd len mem data] in *.
  specialize (T6 eq_refl).
  destruct (expansion_no_wrap w index L delta (Z.of_nat (length fresh)))
    as [E1 E2]; try done; try lia.
  rewrite E1, E2 in *.
  rewrite Z.add_0_l, Z.mul_add_distr_r in T5.
  apply expanded_intro; try done; try lia.
  - apply SER_WIDE_eq. by rewrite T2.
  - rewrite T3, Hraw. cbn [fst snd]. fold w. rewrite T5 by lia.
    rewrite (mem_write_before _ _ _ _ _ _ Hwrite2) by lia.
    pose proof (mem_write_at _ _ _ _ Hwrite1) as Hat.
    rewrite Hbs1 in Hat. exact Hat.
  - rewrite T3, Hraw. cbn [fst snd]. fold w L. rewrite T5 by lia.
    pose proof (mem_write_at _ _ _ _ Hwrite2) as Hat.
    rewrite Hbs2 in Hat. rewrite Z.add_0_l. by rewrite Hat.
Qed.

Lemma high_bit_clear (delta : Z) :
  0 <= delta < 2 ^ 32 -> Z.land delta 2147483648 = 0 -> delta < 2 ^ 31.
Proof.
  intros Hd Hland.
  destruct (Z_lt_le_dec delta (2 ^ 31)) as [|Hge]; [done|exfalso].
  assert (Hbit : Z.testbit delta 31 = true).
  { assert (Hq : delta / 2 ^ 31 = 1).
    { symmetry. apply (Z.div_unique delta (2 ^ 31) 1 (delta - 2 ^ 31)); lia. }
    apply Z.testbit_true; [lia|]. by rewrite Hq. }
  assert (Hbit' : Z.testbit (Z.land delta 2147483648) 31 = true).
  { rewrite Z.land_spec, Hbit. reflexivity. }
  rewrite Hland, Z.bits_0 in Hbit'. done.
Qed.

(** What a run that returns has done.  For a valid series of length L,
    an index 0 <= i <= L and a delta d, whenever [Expand_Series] returns
    (by the head insertion, in the present memory, or after an allocation
    that succeeded) the series reports the length L+d, its elements
    before i are the bytes they were, and the elements that were at i and
    after are, byte for byte, at i+d and after. *)
Theorem Expand_Series_preserves_content
    (Prior_Expand Prior_Expand' : list Z) (sp : Z) (s s' : REBSER)
    (index delta : Z) :
  allocator_sound -> keeps_length Prep_Array -> keeps_length SET_END ->
  series_valid s ->
  0 <= index <= SER_LEN s ->
  0 <= delta < 2 ^ 32 ->
  Expand_Series Prior_Expand sp s index delta = Ok (s', Prior_Expand') ->
  SER_LEN s' = SER_LEN s + delta
  /\ exists old new,
       SER_BYTES s = Ok old /\ SER_BYTES s' = Ok new
       /\ take (Z.to_nat (index * SER_WIDE s)) new
          = take (Z.to_nat (index * SER_WIDE s)) old
       /\ drop (Z.to_nat ((index + delta) * SER_WIDE s)) new
          = drop (Z.to_nat (index * SER_WIDE s)) old
       /\ Z.of_nat (length new) = (SER_LEN s + delta) * SER_WIDE s.
Proof.
  intros Halloc Hprep Hend Hv Hi Hd Hrun.
  change (expanded s s' index delta).
  unfold Expand_Series in Hrun.
  destruct (negb (Z.land delta 2147483648 =? 0)) eqn:Hhigh; [done|].
  apply negb_false_iff, Z.eqb_eq in Hhigh.
  pose proof (high_bit_clear delta Hd Hhigh) as Hd31.
  destruct (delta =? 0) eqn:Hzero.
  { apply Z.eqb_eq in Hzero as ->. injection Hrun as <- _.
    destruct (series_valid_bytes s Hv) as (Hw & Hb & Hbfit & _).
    apply expanded_intro; try done; try lia.
    - rewrite Z.mul_0_l, Z.add_0_r.
      rewrite take_drop_commute.
      replace (Z.to_nat (snd (SER_DATA_RAW s) + index * SER_WIDE s))
        with (Z.to_nat (snd (SER_DATA_RAW s)) + Z.to_nat (index * SER_WIDE s))%nat
        by nia.
      done. }
  match type of Hrun with
  | match ?hi with _ => _ end = _ => destruct hi as [d|] eqn:Hhead
  end.
  { (* head insertion *)
    destruct (content s) as [d0|] eqn:Hc; [|done].
    destruct ((index =? 0) && (delta <=? SER_BIAS d0)) eqn:Hcond; [|done].
    injection Hhead as ->.
    apply andb_true_iff in Hcond as [->%Z.eqb_eq Hbias%Z.leb_le].
    destruct (data d - u32 (SER_WIDE s * delta) <? 0) eqn:Hneg; [done|].
    apply Z.ltb_ge in Hneg. injection Hrun as <- _.
    apply head_insertion_expanded; try done; lia. }
  clear Hhead.
  destruct (u32 (u32 (u32 (SER_LEN s * SER_WIDE s) + u32 (delta * SER_WIDE s))
                 + SER_WIDE s) <=? u32 (SER_REST s * SER_WIDE s)) eqn:Hcap.
  { (* in the present memory *)
    destruct (SER_DATA_RAW s) as [m head] eqn:Hraw.
    apply bind_Ok in Hrun as (m' & Hmove & Hrun).
    apply bind_Ok in Hrun as (s1 & Hset & Hrun).
    apply bind_Ok in Hrun as (s2 & Hterm & Hrun).
    injection Hrun as <- _.
    eapply in_place_expanded; try done; rewrite ?Hraw; try done; lia. }
  destruct (SERIES_FLAG_FIXED_SIZE s) eqn:Hfixed; [done|].
  destruct (SER_DATA_RAW s) as [data_old head_old] eqn:Hraw.
  match type of Hrun with
  | match Did_Series_Data_Alloc ?u ?w with _ => _ end = _ =>
      destruct (Did_Series_Data_Alloc u w) as [[fresh rest']|] eqn:Hfresh;
        [|done]
  end.
  apply Halloc in Hfresh as (_ & Hflen & Hfsize).
  apply bind_Ok in Hrun as (m1 & Hcopy1 & Hrun).
  apply bind_Ok in Hrun as (m2 & Hcopy2 & Hrun).
  apply bind_Ok in Hrun as (s2 & Hterm & Hrun).
  injection Hrun as <- _.
  eapply (realloc_expanded s s2 index delta rest'
            (if IS_SER_ARRAY s then Prep_Array fresh else fresh));
    try done; rewrite ?Hraw; try done; try lia.
  destruct (IS_SER_ARRAY s); rewrite ?Hprep; lia.
Qed.


(** The memory routines and the helpers of the in-place expansion return
    or are undefined; they raise no error of the language. *)
Lemma mem_write_no_Fail (m : list Byte.byte) (off : Z) (bs : list Byte.byte)
    (err : Reb_Error) :
  mem_write m off bs <> Fail err.
Proof. unfold mem_write. by destruct (in_bounds _ _ _). Qed.

Lemma mem_read_no_Fail (m : list Byte.byte) (off n : Z) (err : Reb_Error) :
  mem_read m off n <> Fail err.
Proof. unfold mem_read. by destruct (in_bounds _ _ _). Qed.

Lemma bind_no_Fail {A B : Type} (m : Result A) (k : A -> Result B) :
  (forall err, m <> Fail err) -> (forall a err, k a <> Fail err) ->
  forall err, bind m k <> Fail err.
Proof.
  intros Hm Hk err. destruct m as [a|e|]; cbn; [apply Hk | | done].
  by destruct (Hm e).
Qed.

Lemma TERM_SERIES_no_Fail (s : REBSER) (err : Reb_Error) :
  TERM_SERIES s <> Fail err.
Proof.
  unfold TERM_SERIES. destruct (SER_DATA_RAW s) as [m head].
  destruct (IS_SER_ARRAY s).
  - destruct (negb (IS_SER_DYNAMIC s) && (SER_LEN s =? 1)); [done|].
    apply bind_no_Fail; [intros; apply mem_read_no_Fail|].
    intros cell. apply bind_no_Fail; [intros; apply mem_write_no_Fail|done].
  - apply bind_no_Fail; [intros; apply mem_write_no_Fail|done].
Qed.

Lemma SET_SERIES_LEN_no_Fail (s : REBSER) (l : Z) (err : Reb_Error) :
  SET_SERIES_LEN s l <> Fail err.
Proof.
  unfold SET_SERIES_LEN. destruct (content s); [done|].
  by destruct ((0 <=? l) && (l <? sizeof_content)).
Qed.

Lemma high_bit_of_small (delta : Z) :
  0 <= delta < 2 ^ 31 -> Z.land delta 2147483648 = 0.
Proof.
  intros Hd. apply Z.bits_inj'. intros i Hi.
  rewrite Z.land_spec, Z.bits_0.
  destruct (decide (i = 31)) as [->|Hne].
  - assert (Z.testbit delta 31 = false) as ->; [|done].
    apply Z.testbit_false; [lia|]. by rewrite Z.div_small by lia.
  - change 2147483648 with (2 ^ 31).
    rewrite (Z.pow2_bits_false 31 i) by lia. apply andb_false_r.
Qed.

Lemma mem_read_in (m : list Byte.byte) (off n : Z) :
  0 <= off -> 0 <= n -> off + n <= Z.of_nat (length m) ->
  exists bs, mem_read m off n = Ok bs /\ Z.of_nat (length bs) = n.
Proof.
  intros H1 H2 H3. unfold mem_read.
  rewrite (proj2 (in_bounds_spec _ _ _)) by done.
  eexists. split; [done|]. rewrite length_take, length_drop. lia.
Qed.

Lemma mem_write_in (m : list Byte.byte) (off : Z) (bs : list Byte.byte) :
  0 <= off -> off + Z.of_nat (length bs) <= Z.of_nat (length m) ->
  exists m', mem_write m off bs = Ok m' /\ length m' = length m.
Proof.
  intros H1 H2.
  destruct (mem_write m off bs) as [m'| |] eqn:E.
  - exists m'. split; [done|]. by apply mem_write_Ok in E as (_ & _ & ?).
  - by apply mem_write_no_Fail in E.
  - unfold mem_write in E.
    rewrite (proj2 (in_bounds_spec _ _ _)) in E by lia. done.
Qed.

Lemma memcpy_in (to from : list Byte.byte) (dst src n : Z) :
  0 <= src -> 0 <= n -> src + n <= Z.of_nat (length from) ->
  0 <= dst -> dst + n <= Z.of_nat (length to) ->
  exists m', memcpy to dst from src n = Ok m' /\ length m' = length to.
Proof.
  intros H1 H2 H3 H4 H5. unfold memcpy.
  destruct (mem_read_in from src n) as (bs & -> & Hbs); try done. cbn.
  apply mem_write_in; lia.
Qed.

(** The terminator fits whenever the capacity has a unit past the tail. *)
Lemma TERM_SERIES_returns (s : REBSER) :
  keeps_length SET_END ->
  0 < SER_WIDE s -> 0 <= snd (SER_DATA_RAW s) -> 0 <= SER_LEN s ->
  (if IS_SER_ARRAY s && negb (IS_SER_DYNAMIC s) then SER_LEN s = 1
   else snd (SER_DATA_RAW s) + (SER_LEN s + 1) * SER_WIDE s
        <= Z.of_nat (length (fst (SER_DATA_RAW s)))) ->
  exists s2, TERM_SERIES s = Ok s2.
Proof.
  intros Hend Hw Hhead Hlen Hroom. unfold TERM_SERIES.
  destruct (SER_DATA_RAW s) as [m head]. cbn [fst snd] in *.
  destruct (IS_SER_ARRAY s) eqn:Harr; cbn [andb] in Hroom.
  - destruct (IS_SER_DYNAMIC s) eqn:Hdyn; cbn [negb andb] in *.
    + assert (Hwide : SER_WIDE s = sizeof_REBVAL).
      { unfold SER_WIDE. unfold IS_SER_ARRAY in Harr. by rewrite Harr. }
      rewrite Hwide in *. unfold sizeof_REBVAL in *.
      destruct (mem_read_in m (head + SER_LEN s * 32) 32) as (cell & -> & Hc);
        try nia.
      cbn. destruct (mem_write_in m (head + SER_LEN s * 32) (SET_END cell))
        as (m' & -> & _); try nia.
      { rewrite Hend. nia. }
      cbn. by eexists.
    + rewrite Hroom. cbn. by eexists.
  - destruct (mem_write_in m (head + SER_LEN s * SER_WIDE s)
                (replicate (Z.to_nat (SER_WIDE s)) Byte.x00))
      as (m' & -> & _); try nia.
    { rewrite length_replicate. nia. }
    cbn. by eexists.
Qed.


(** The expansion in the present memory returns when the capacity takes
    it. *)
Lemma in_place_returns (Prior_Expand : list Z) (s : REBSER) (index delta : Z) :
  keeps_length SET_END ->
  series_wellformed s -> 0 <= index <= SER_LEN s -> 0 < delta ->
  (SER_LEN s + delta + 1) * SER_WIDE s < 2 ^ 32 ->
  (SER_LEN s + delta + 1) * SER_WIDE s <= SER_REST s * SER_WIDE s ->
  exists s2,
    (let '(m, head) := SER_DATA_RAW s in
     let* m' := memmove m
                  (head + index * SER_WIDE s + delta * SER_WIDE s)
                  (head + index * SER_WIDE s)
                  (SER_LEN s * SER_WIDE s - index * SER_WIDE s) in
     let* s1 := SET_SERIES_LEN (with_memory s m') (SER_LEN s + delta) in
     let* s2 := TERM_SERIES s1 in
     Ok (s2, Prior_Expand)) = Ok (s2, Prior_Expand).
Proof.
  intros Hend [Hv Hwf] Hi Hd Hsmall Hcap.
  destruct (series_valid_bytes s Hv) as (Hw & Hb & Hbfit & _).
  pose proof Hv as (_ & HL & HM & _).
  set (w := SER_WIDE s) in *. set (L := SER_LEN s) in *.
  destruct (SER_DATA_RAW s) as [m head] eqn:Hraw. cbn [fst snd] in *.
  assert (Hiw : 0 <= index * w <= L * w) by nia.
  assert (Hdw : 0 < delta * w) by nia.
  (* the room the capacity gives *)
  assert (Hroom : head + (L + delta) * w <= Z.of_nat (length m)
                  /\ (IS_SER_ARRAY s && negb (IS_SER_DYNAMIC s) = false ->
                      head + (L + delta + 1) * w <= Z.of_nat (length m))
                  /\ (IS_SER_DYNAMIC s = false ->
                      L + delta < sizeof_content
                      /\ (IS_SER_ARRAY s = true -> L + delta = 1))).
  { unfold SER_REST, SER_DATA_RAW, SER_LEN, IS_SER_DYNAMIC, LEN_BYTE_OR_255 in *.
    destruct (content s) as [d|lb bytes] eqn:Hc.
    - injection Hraw as <- <-. cbn beta iota in Hwf.
      destruct Hwf as (Hdata & Htotal & Hterm).
      pose proof (SER_BIAS_range d). fold w in Hdata, Htotal.
      split; [nia|]. split; [intros _; nia|].
      intros Hdyn. done.
    - injection Hraw as <- <-. cbn beta iota in Hwf.
      pose proof Hv as (_ & _ & _ & Hshape). rewrite Hc in Hshape.
      destruct Hshape as (Hlen & Hfit). cbn [fst snd] in *.
      unfold sizeof_content in *.
      assert (Hlb : lb < 255).
      { destruct (IS_SER_ARRAY s); nia. }
      assert (Hne : (lb =? 255) = false) by (apply Z.eqb_neq; lia).
      rewrite Hne. cbn [negb].
      destruct (IS_SER_ARRAY s) eqn:Harr; cbn [andb].
      + assert (Hwide : w = 32).
        { subst w. unfold SER_WIDE, sizeof_REBVAL. unfold IS_SER_ARRAY in Harr.
          by rewrite Harr. }
        split; [nia|]. split; [done|]. intros _.
        split; [nia|]. intros _. nia.
      + pose proof (Z.mul_div_le 32 w ltac:(lia)) as Hdiv. fold w in Hcap.
        split; [nia|]. split; [intros _; nia|]. intros _.
        split; [nia|]. done. }
  destruct Hroom as (Hfit & Hdynroom & Hfixroom).
  (* the move *)
  destruct (mem_read_in m (head + index * w) (L * w - index * w))
    as (bs & Hread & Hbs); try lia.
  destruct (mem_write_in m (head + index * w + delta * w) bs)
    as (m' & Hwrite & Hlen');
    [lia | rewrite Hbs; rewrite Z.mul_add_distr_r in Hfit; lia |].
  unfold memmove. rewrite Hread. cbn [bind]. rewrite Hwrite. cbn [bind].
  destruct (with_memory_raw s m') as (R1 & R2 & R3 & R4).
  (* the length *)
  assert (Hset : exists s1,
             SET_SERIES_LEN (with_memory s m') (L + delta) = Ok s1
             /\ SER_DATA_RAW s1 = (m', head) /\ SER_LEN s1 = L + delta
             /\ WIDE_BYTE_OR_0 s1 = WIDE_BYTE_OR_0 s
             /\ IS_SER_DYNAMIC s1 = IS_SER_DYNAMIC s
             /\ IS_SER_ARRAY s1 = IS_SER_ARRAY s).
  { unfold SET_SERIES_LEN, with_memory, with_content, SER_DATA_RAW, SER_LEN,
      IS_SER_DYNAMIC, LEN_BYTE_OR_255, IS_SER_ARRAY in *.
    destruct (content s) as [d|lb bytes]; cbn in *.
    - eexists. split; [done|]. cbn. by injection Hraw as <- <-.
    - destruct (lb =? 255) eqn:E255.
      { apply Z.eqb_eq in E255. destruct (WIDE_BYTE_OR_0 s =? 0); 
          unfold sizeof_content in *; nia. }
      destruct (Hfixroom eq_refl) as [Hlt _].
      rewrite (proj2 (andb_true_iff _ _)) by (split; lia).
      eexists. split; [done|]. cbn. injection Hraw as <- <-.
      repeat split; try done.
      destruct (L + delta =? 255) eqn:E; [|done].
      unfold sizeof_content in *. lia. }
  destruct Hset as (s1 & -> & S1 & S2 & S3 & S4 & S5). cbn [bind].
  assert (Hw1 : SER_WIDE s1 = w) by (by apply SER_WIDE_eq).
  destruct (TERM_SERIES_returns s1 Hend) as (s2 & ->).
  - rewrite Hw1. lia.
  - rewrite S1. cbn. lia.
  - rewrite S2. lia.
  - rewrite S1, S2, S4, S5, Hw1. cbn [fst snd]. rewrite Hlen'.
    destruct (IS_SER_ARRAY s && negb (IS_SER_DYNAMIC s)) eqn:Himp.
    + apply andb_true_iff in Himp as [Harr Hdyn%negb_true_iff].
      by apply Hfixroom.
    + by apply Hdynroom.
  - cbn. by eexists.
Qed.


Lemma SER_REST_bytes (s : REBSER) :
  series_wellformed s -> 0 <= SER_REST s * SER_WIDE s < 2 ^ 32.
Proof.
  intros [Hv Hwf].
  destruct (series_valid_bytes s Hv) as (Hw & _).
  pose proof Hv as (_ & HL & HM & _).
  unfold SER_REST, SER_DATA_RAW, SER_LEN in *.
  destruct (content s) as [d|lb bytes]; cbn beta iota in *; cbn [fst snd] in *.
  - destruct Hwf as (_ & Htotal & Hterm). pose proof (SER_BIAS_range d). nia.
  - unfold sizeof_content. destruct (IS_SER_ARRAY s).
    + nia.
    + pose proof (Z.mul_div_le 32 (SER_WIDE s) ltac:(lia)).
      pose proof (Z.div_pos 32 (SER_WIDE s) ltac:(lia) ltac:(lia)). nia.
Qed.

(** X10.  [Expand_Series] returns, with a series and a table, on every
    well-formed series and every insertion point within it, for a
    positive delta, provided that twice the new length with its
    terminators fits 32 bits, that the allocator serves any request
    below 4GB, and that the series is not locked if the expansion needs a
    new allocation. *)
Lemma Expand_Series_returns
    (Prior_Expand : list Z) (sp : Z) (s : REBSER) (index delta : Z) :
  keeps_length Prep_Array -> keeps_length SET_END -> allocator_serves ->
  series_wellformed s -> 0 <= index <= SER_LEN s -> 0 < delta ->
  (2 * (SER_LEN s + delta) + 2) * SER_WIDE s < 2 ^ 32 ->
  (needs_new_allocation s index delta = true ->
   SERIES_FLAG_FIXED_SIZE s = false) ->
  exists s' Prior_Expand',
    Expand_Series Prior_Expand sp s index delta = Ok (s', Prior_Expand').
Proof.
  intros Hprep Hend Hserves Hwf Hi Hd Hsmall Hlock.
  pose proof Hwf as [Hv Hshape].
  destruct (series_valid_bytes s Hv) as (Hw & Hb & Hbfit & _).
  pose proof Hv as (_ & HL & HM & _).
  pose proof (SER_REST_bytes s Hwf) as Hrest.
  unfold Expand_Series. unfold needs_new_allocation in Hlock.
  set (w := SER_WIDE s) in *. set (L := SER_LEN s) in *.
  assert (Hiw : 0 <= index * w <= L * w) by nia.
  rewrite high_bit_of_small by nia. cbn [Z.eqb negb].
  destruct (delta =? 0) eqn:Hz; [apply Z.eqb_eq in Hz; lia|].
  rewrite (u32_small (L * w)), (u32_small (delta * w)) in * by nia.
  rewrite (u32_small (index * w)), (u32_small (L * w - index * w)) by nia.
  rewrite (u32_small (L * w + delta * w)) in * by nia.
  rewrite (u32_small (L * w + delta * w + w)) in * by nia.
  rewrite (u32_small (SER_REST s * w)) in * by lia.
  rewrite (u32_small (L + delta)) by nia.
  rewrite (u32_small (L + delta + 1)) by nia.
  match goal with
  | |- context [match ?hi with Some _ => _ | None => _ end] =>
      destruct hi as [d|] eqn:Hhead
  end.
  { (* head insertion *)
    destruct (content s) as [d0|] eqn:Hc; [|done].
    destruct ((index =? 0) && (delta <=? SER_BIAS d0)) eqn:Hcond; [|done].
    injection Hhead as ->. cbn beta iota in Hshape.
    destruct Hshape as (Hdata & _).
    apply andb_true_iff in Hcond as [_ Hbias%Z.leb_le].
    pose proof (SER_BIAS_range d).
    rewrite (u32_small (w * delta)) by nia.
    destruct (data d - w * delta <? 0) eqn:Hneg.
    - apply Z.ltb_lt in Hneg. fold w in Hdata. nia.
    - by eexists _, _. }
  assert (Hnohead : match content s with
                    | Dynamic d => (index =? 0) && (delta <=? SER_BIAS d)
                    | Fixed _ _ => false
                    end = false).
  { destruct (content s); [|done].
    by destruct ((index =? 0) && (delta <=? SER_BIAS d)). }
  rewrite Hnohead in Hlock. cbn [negb andb] in Hlock. clear Hhead Hnohead.
  destruct (L * w + delta * w + w <=? SER_REST s * w) eqn:Hcap.
  { (* in the present memory *)
    apply Z.leb_le in Hcap.
    destruct (in_place_returns Prior_Expand s index delta) as (s2 & Hrun);
      try done; fold w L; try (rewrite !Z.mul_add_distr_r; lia).
    fold w L in Hrun. by exists s2, Prior_Expand. }
  rewrite (Hlock eq_refl).
  destruct (SER_DATA_RAW s) as [data_old head_old] eqn:Hraw.
  cbn [fst snd] in *.
  set (x := match scan_prior Prior_Expand sp 0 0 with
            | Some _ => 1
            | None => L + delta + 1
            end).
  assert (Hx : 1 <= x <= L + delta + 1).
  { subst x. destruct (scan_prior Prior_Expand sp 0 0); lia. }
  assert (Hdw : 0 < delta * w) by nia.
  assert (Hxw : w <= x * w <= L * w + delta * w + w) by nia.
  assert (Hall : 2 * (L * w) + 2 * (delta * w) + 2 * w < 2 ^ 32) by nia.
  assert (HLw : L <= L * w) by nia.
  assert (Hdlw : delta <= delta * w) by nia.
  rewrite (u32_small (L + delta + x)) by lia.
  destruct (Hserves (L + delta + x) w) as (fresh & rest' & -> & Hunits & Hflen);
    [lia | lia | rewrite !Z.mul_add_distr_r; lia |].
  assert (Hcapw : L * w + delta * w + x * w <= rest' * w).
  { rewrite <- !Z.mul_add_distr_r. apply Z.mul_le_mono_nonneg_r; lia. }
  set (fresh' := if IS_SER_ARRAY s then Prep_Array fresh else fresh).
  assert (Hflen' : Z.of_nat (length fresh') = rest' * w).
  { subst fresh'. destruct (IS_SER_ARRAY s); by rewrite ?Hprep. }
  destruct (memcpy_in fresh' data_old 0 head_old (index * w))
    as (m1 & -> & Hlen1); [lia | lia | lia | lia | lia |].
  cbn [bind].
  destruct (memcpy_in m1 data_old (index * w + delta * w)
              (head_old + index * w) (L * w - index * w))
    as (m2 & -> & Hlen2); [lia | lia | lia | lia | lia |].
  cbn [bind].
  set (s1 := mkSer _ _ _ _).
  destruct (TERM_SERIES_returns s1 Hend) as (s2 & ->).
  - change (SER_WIDE s1) with w. lia.
  - cbn. lia.
  - cbn. lia.
  - change (SER_WIDE s1) with w. cbn [s1 SER_DATA_RAW SER_LEN content fst snd].
    unfold IS_SER_DYNAMIC, LEN_BYTE_OR_255. cbn [content Z.eqb negb].
    rewrite andb_false_r. cbn [mem data len].
    rewrite !Z.mul_add_distr_r. lia.
  - cbn. by eexists _, _.
Qed.

(** Where the flag is tested.  For a series marked fixed-size and a
    delta with 0 < delta < 2^31, [Expand_Series] fails with the
    locked-series error exactly when the routine goes on to a new
    allocation, that is when neither its test of the head bias nor its
    test of the capacity, both in 32-bit arithmetic, lets it return
    before. *)
Theorem Expand_Series_fixed_size_locked
    (Prior_Expand : list Z) (sp : Z) (s : REBSER) (index delta : Z) :
  SERIES_FLAG_FIXED_SIZE s = true ->
  0 < delta < 2 ^ 31 ->
  Expand_Series Prior_Expand sp s index delta = Fail Error_Locked_Series_Raw
  <-> needs_new_allocation s index delta = true.
Proof.
  intros Hfixed Hd. unfold Expand_Series, needs_new_allocation.
  rewrite high_bit_of_small by lia. cbn [Z.eqb negb].
  destruct (delta =? 0) eqn:Hz; [apply Z.eqb_eq in Hz; lia|].
  destruct (content s) as [d|lb bytes] eqn:Hc.
  - destruct ((index =? 0) && (delta <=? SER_BIAS d)) eqn:Hhead; cbn [negb andb].
    + split; [|done].
      by destruct (data d - u32 (SER_WIDE s * delta) <? 0).
    + destruct (_ <=? u32 (SER_REST s * SER_WIDE s)) eqn:Hcap; cbn [negb].
      * split; [|done]. intros Hrun. exfalso. revert Hrun.
        destruct (SER_DATA_RAW s) as [m head].
        apply bind_no_Fail.
        { intros err. unfold memmove.
          apply bind_no_Fail; [intros; apply mem_read_no_Fail|].
          intros; apply mem_write_no_Fail. }
        intros m' err. apply bind_no_Fail; [intros; apply SET_SERIES_LEN_no_Fail|].
        intros s1 err'. apply bind_no_Fail; [intros; apply TERM_SERIES_no_Fail|done].
      * by rewrite Hfixed.
  - cbn [negb andb].
    destruct (_ <=? u32 (SER_REST s * SER_WIDE s)) eqn:Hcap; cbn [negb].
    + split; [|done]. intros Hrun. exfalso. revert Hrun.
      destruct (SER_DATA_RAW s) as [m head].
      apply bind_no_Fail.
      { intros err. unfold memmove.
        apply bind_no_Fail; [intros; apply mem_read_no_Fail|].
        intros; apply mem_write_no_Fail. }
      intros m' err. apply bind_no_Fail; [intros; apply SET_SERIES_LEN_no_Fail|].
      intros s1 err'. apply bind_no_Fail; [intros; apply TERM_SERIES_no_Fail|done].
    + by rewrite Hfixed.
Qed.

End Expand.

(** *** The routine at work

    An allocator that hands out exactly the units asked for, filled with
    0xFF, an END that zeroes the cell, and three byte series. *)
Definition sample_alloc (units wide : Z) : option (list Byte.byte * Z) :=
  if (0 <=? units) && (0 <=? wide) && (units * wide <? 2 ^ 32)
  then Some (replicate (Z.to_nat (units * wide)) Byte.xff, units)
  else None.

Definition sample_SET_END (cell : list Byte.byte) : list Byte.byte :=
  replicate (length cell) Byte.x00.

Definition sample_Prep_Array (m : list Byte.byte) : list Byte.byte := m.

Definition sample_Expand_Series :=
  Expand_Series sample_SET_END sample_Prep_Array sample_alloc.

(** "abc" with its terminator, in an allocation of four bytes. *)
Definition series_abc : REBSER :=
  mkSer false false 1
    (Dynamic (mkDyn [Byte.x61; Byte.x62; Byte.x63; Byte.x00] 0 3 4 0)).

(** "ab", fixed-size, in an allocation of eight bytes. *)
Definition series_fixed_roomy : REBSER :=
  mkSer true false 1
    (Dynamic (mkDyn [Byte.x61; Byte.x62; Byte.x00; Byte.xff;
                     Byte.xff; Byte.xff; Byte.xff; Byte.xff] 0 2 8 0)).

(** "ab", fixed-size, in an allocation of three bytes. *)
Definition series_fixed_full : REBSER :=
  mkSer true false 1
    (Dynamic (mkDyn [Byte.x61; Byte.x62; Byte.x00] 0 2 3 0)).

(** "bc" behind one unit of bias. *)
Definition series_biased : REBSER :=
  mkSer false false 1
    (Dynamic (mkDyn [Byte.x61; Byte.x62; Byte.x63; Byte.x00] 1 2 3 65536)).

Lemma sample_alloc_sound : allocator_sound sample_alloc.
Proof.
  intros units wide fresh rest'. unfold sample_alloc.
  destruct ((0 <=? units) && (0 <=? wide) && (units * wide <? 2 ^ 32)) eqn:E;
    [|done].
  intros [= <- <-]. rewrite length_replicate.
  apply andb_true_iff in E as [[H1 H2]%andb_true_iff H3]. nia.
Qed.

Lemma sample_SET_END_length : keeps_length sample_SET_END.
Proof. intros bs. apply length_replicate. Qed.

Lemma sample_Prep_Array_length : keeps_length sample_Prep_Array.
Proof. by intros bs. Qed.

Example Expand_Series_realloc_runs :
  sample_Expand_Series [1; 0; 0] 77 series_abc 1 2
  = Ok (mkSer false true 1
          (Dynamic (mkDyn [Byte.x61; Byte.xff; Byte.xff; Byte.x62;
                           Byte.x63; Byte.x00] 0 5 6 0)),
        [1; 0; 77]).
Proof. reflexivity. Qed.

Example Expand_Series_head_insertion_runs :
  sample_Expand_Series [1; 0; 0] 77 series_biased 0 1
  = Ok (mkSer false false 1
          (Dynamic (mkDyn [Byte.x61; Byte.x62; Byte.x63; Byte.x00] 0 3 4 0)),
        [1; 0; 0]).
Proof. reflexivity. Qed.

Lemma Expand_Series_preserves_content_witness :
  allocator_sound sample_alloc
  /\ keeps_length sample_Prep_Array
  /\ keeps_length sample_SET_END
  /\ series_valid series_abc
  /\ 0 <= 1 <= SER_LEN series_abc
  /\ 0 <= 2 < 2 ^ 32
  /\ sample_Expand_Series [1; 0; 0] 77 series_abc 1 2
     = Ok (mkSer false true 1
             (Dynamic (mkDyn [Byte.x61; Byte.xff; Byte.xff; Byte.x62;
                              Byte.x63; Byte.x00] 0 5 6 0)),
           [1; 0; 77])
  /\ SER_LEN (mkSer false true 1
                (Dynamic (mkDyn [Byte.x61; Byte.xff; Byte.xff; Byte.x62;
                                 Byte.x63; Byte.x00] 0 5 6 0)))
     = SER_LEN series_abc + 2.
Proof.
  assert (Hv : series_valid series_abc).
  { unfold series_valid, series_abc. cbn. lia. }
  assert (Hi : 0 <= 1 <= SER_LEN series_abc) by (cbn; lia).
  assert (Hd : 0 <= 2 < 2 ^ 32) by lia.
  assert (Hrun : sample_Expand_Series [1; 0; 0] 77 series_abc 1 2
                 = Ok (mkSer false true 1
                         (Dynamic (mkDyn [Byte.x61; Byte.xff; Byte.xff; Byte.x62;
                                          Byte.x63; Byte.x00] 0 5 6 0)),
                       [1; 0; 77])) by reflexivity.
  split; [exact sample_alloc_sound|].
  split; [exact sample_Prep_Array_length|].
  split; [exact sample_SET_END_length|].
  split; [exact Hv|]. split; [exact Hi|]. split; [exact Hd|].
  split; [exact Hrun|].
  exact (proj1 (Expand_Series_preserves_content
                  sample_SET_END sample_Prep_Array sample_alloc
                  [1; 0; 0] [1; 0; 77] 77 series_abc _ 1 2
                  sample_alloc_sound sample_Prep_Array_length
                  sample_SET_END_length Hv Hi Hd Hrun)).
Defined.

(** C7 (evaluation at the failing input).  On a series marked
    fixed-size that has room left in its allocation, [Expand_Series] with
    a positive delta does not fail with the locked-series error: the
    flag is only tested once the present allocation has been found too
    small, so the expansion is done in place, the series reports one
    element more, and the element after the insertion point has moved up
    by one. *)
Lemma Expand_Series_fixed_size_with_room :
  series_wellformed series_fixed_roomy
  /\ SERIES_FLAG_FIXED_SIZE series_fixed_roomy = true
  /\ sample_Expand_Series [1; 0; 0] 77 series_fixed_roomy 1 1
     = Ok (mkSer true false 1
             (Dynamic (mkDyn [Byte.x61; Byte.x62; Byte.x62; Byte.x00;
                              Byte.xff; Byte.xff; Byte.xff; Byte.xff] 0 3 8 0)),
           [1; 0; 0])
  /\ sample_Expand_Series [1; 0; 0] 77 series_fixed_roomy 1 1
     <> Fail Error_Locked_Series_Raw.
Proof.
  split.
  { split.
    - unfold series_valid. vm_compute. repeat split; discriminate.
    - vm_compute. repeat split. }
  split; [reflexivity|]. split; [reflexivity|discriminate].
Qed.

Lemma Expand_Series_fixed_size_locked_witness :
  SERIES_FLAG_FIXED_SIZE series_fixed_full = true
  /\ 0 < 1 < 2 ^ 31
  /\ (sample_Expand_Series [1; 0; 0] 77 series_fixed_full 2 1
      = Fail Error_Locked_Series_Raw
      <-> needs_new_allocation series_fixed_full 2 1 = true).
Proof.
  split; [reflexivity|]. split; [lia|].
  exact (Expand_Series_fixed_size_locked
           sample_SET_END sample_Prep_Array sample_alloc
           [1; 0; 0] 77 series_fixed_full 2 1 eq_refl (conj eq_refl eq_refl)).
Defined.

(** An array of one cell in an allocation of four cells. *)
Definition series_one_cell : REBSER :=
  mkSer false false 0 (Dynamic (mkDyn (replicate 128 Byte.x00) 0 1 4 0)).

(** C1 (evaluation at the failing input).  On a well-formed array of one
    cell with room for four, expanded at index 1 by 2^27 cells: the byte
    count [delta * wide] is 2^32 and wraps to 0 in the 32-bit [extra], so
    the test of the capacity passes although the allocation cannot take
    the new cells; no allocation is asked for, the length is set to
    1 + 2^27, and the terminator is written outside of the allocation.
    The run neither returns a series of length L+d nor fails. *)
Lemma Expand_Series_wrapped_size_out_of_bounds :
  series_wellformed series_one_cell
  /\ 0 <= 1 <= SER_LEN series_one_cell
  /\ u32 (2 ^ 27 * SER_WIDE series_one_cell) = 0
  /\ needs_new_allocation series_one_cell 1 (2 ^ 27) = false
  /\ sample_Expand_Series [1; 0; 0] 77 series_one_cell 1 (2 ^ 27) = Undefined
  /\ sample_Expand_Series [1; 0; 0] 77 series_one_cell 1 1
     = Ok (mkSer false false 0
             (Dynamic (mkDyn (replicate 128 Byte.x00) 0 2 4 0)),
           [1; 0; 0]).
Proof.
  split.
  { split.
    - unfold series_valid. vm_compute. repeat split; discriminate.
    - vm_compute. repeat split. }
  split; [by vm_compute|]. split; [by vm_compute|].
  split; [by vm_compute|]. split; by vm_compute.
Qed.

Example Expand_Series_fixed_size_full_fails :
  sample_Expand_Series [1; 0; 0] 77 series_fixed_full 2 1
  = Fail Error_Locked_Series_Raw.
Proof. reflexivity. Qed.

End Series.

(** ** Routines with errors of their own

    The routines below raise errors that the modules above do not; each
    has its own error type and returns a [Checked] outcome: a normal
    return, a [fail] with one of its errors, or an execution outside of
    defined behaviour. *)
Inductive Checked (E A : Type) : Type :=
| Done (a : A)
| Raised (e : E)
| Unspecified.

Arguments Done {E A} a.
Arguments Raised {E A} e.
Arguments Unspecified {E A}.

Definition cbind {E A B : Type} (m : Checked E A) (k : A -> Checked E B)
  : Checked E B :=
  match m with
  | Done a => k a
  | Raised e => Raised e
  | Unspecified => Unspecified
  end.

Notation "'let+' x := m 'in' k" := (cbind m (fun x => k))
  (at level 10, x name, m at level 100, k at level 200).

(** A [Result] read as a [Checked] outcome. *)
Definition lift {E A : Type} (inj : Reb_Error -> E) (m : Result A)
  : Checked E A :=
  match m with
  | Ok a => Done a
  | Fail e => Raised (inj e)
  | Undefined => Unspecified
  end.

Lemma cbind_Done {E A B : Type} (m : Checked E A) (k : A -> Checked E B) (b : B) :
  cbind m k = Done b -> exists a, m = Done a /\ k a = Done b.
Proof. destruct m; cbn; [eauto | done | done]. Qed.

(** Two 16-bit fields in one 32-bit word: the masks and shifts of the
    macros below as arithmetic. *)
Module Bits16.

Local Open Scope Z_scope.

Lemma land_65535 (x : Z) : Z.land x 65535 = (x mod 65536).
Proof. change 65535 with (Z.ones 16). by rewrite Z.land_ones. Qed.

Lemma shiftr_16 (x : Z) : Z.shiftr x 16 = (x / 65536).
Proof. by rewrite Z.shiftr_div_pow2. Qed.

Lemma shiftl_16 (x : Z) : Z.shiftl x 16 = (x * 65536).
Proof. by rewrite Z.shiftl_mul_pow2. Qed.

Lemma lor_high_low (h l : Z) :
  (0 <= l < 65536) -> Z.lor (h * 65536) l = (h * 65536 + l).
Proof.
  intros Hl.
  assert (Hz : Z.land (h * 65536) l = 0).
  { apply Z.bits_inj'. intros n Hn. rewrite Z.land_spec, Z.bits_0.
    destruct (Z.lt_ge_cases n 16).
    - by rewrite <- (shiftl_16 h), Z.shiftl_spec_low by lia.
    - destruct (Z.eq_dec l 0) as [->|Hne].
      + by rewrite Z.bits_0, andb_false_r.
      + rewrite (Z.bits_above_log2 l n), andb_false_r; [done|lia|].
        assert (Z.log2 l < 16) by (apply Z.log2_lt_pow2; lia). lia. }
  rewrite <- Z.lxor_lor by done. symmetry. by apply Z.add_nocarry_lxor.
Qed.

End Bits16.

(** ** EVENT! payload (%sys-value.h) *)

Module Event.

Import Bits16.

Local Open Scope Z_scope.

(** Conversion to the signed C types [short] and [REBINT], as the two's
    complement targets of the supported compilers perform it. *)
Definition i16 (x : Z) : Z := (x + 2 ^ 15) mod 2 ^ 16 - 2 ^ 15.
Definition i32 (x : Z) : Z := (x + 2 ^ 31) mod 2 ^ 32 - 2 ^ 31.

(** The members of [payload.event] the accessors touch; [data] is a
    32-bit unsigned word. *)
Record Reb_Event : Type := mkEvent {
  type : Z;
  flags : Z;
  win : Z;
  data : Z
}.

Definition VAL_EVENT_DATA (v : Reb_Event) : Z := data v.

(** [cast(REBINT, cast(short, VAL_EVENT_DATA(v) & 0xffff))] *)
Definition VAL_EVENT_X (v : Reb_Event) : Z :=
  i32 (i16 (Z.land (VAL_EVENT_DATA v) 65535)).

(** [cast(REBINT, cast(short, (VAL_EVENT_DATA(v) >> 16) & 0xffff))] *)
Definition VAL_EVENT_Y (v : Reb_Event) : Z :=
  i32 (i16 (Z.land (Z.shiftr (VAL_EVENT_DATA v) 16) 65535)).

(** [VAL_EVENT_DATA(v) = cast(uint32_t, ((y << 16) | (x & 0xffff)))], with
    [x] and [y] of type [REBINT]; the shift of a negative [y] is taken as
    the two's complement shift that the supported compilers perform. *)
Definition SET_EVENT_XY (v : Reb_Event) (x y : Z) : Reb_Event :=
  mkEvent (type v) (flags v) (win v)
    (u32 (Z.lor (i32 (Z.shiftl y 16)) (Z.land x 65535))).

(** [VAL_EVENT_DATA(v) & 0xffff] and [(VAL_EVENT_DATA(v) >> 16) & 0xffff] *)
Definition VAL_EVENT_KEY (v : Reb_Event) : Z :=
  Z.land (VAL_EVENT_DATA v) 65535.
Definition VAL_EVENT_KCODE (v : Reb_Event) : Z :=
  Z.land (Z.shiftr (VAL_EVENT_DATA v) 16) 65535.

(** [VAL_EVENT_DATA(v) = ((c << 16) + k)], with [k] and [c] of type
    [REBCNT]. *)
Definition SET_EVENT_KEY (v : Reb_Event) (k c : Z) : Reb_Event :=
  mkEvent (type v) (flags v) (win v) (u32 (u32 (Z.shiftl c 16) + k)).

(** *** Properties *)

Lemma i32_multiple (y : Z) : exists h, i32 (y * 65536) = h * 65536.
Proof.
  unfold i32. exists (y - 65536 * ((y * 65536 + 2 ^ 31) / 2 ^ 32)).
  pose proof (Z.div_mod (y * 65536 + 2 ^ 31) (2 ^ 32) ltac:(lia)). lia.
Qed.

Lemma i32_congr (z : Z) : i32 z mod 2 ^ 32 = z mod 2 ^ 32.
Proof.
  unfold i32.
  replace ((z + 2 ^ 31) mod 2 ^ 32 - 2 ^ 31)
    with (z + (- ((z + 2 ^ 31) / 2 ^ 32)) * 2 ^ 32).
  - by rewrite Z.mod_add.
  - pose proof (Z.div_mod (z + 2 ^ 31) (2 ^ 32) ltac:(lia)). lia.
Qed.

Lemma i32_small (z : Z) : - 2 ^ 31 <= z < 2 ^ 31 -> i32 z = z.
Proof. intros H. unfold i32. rewrite Z.mod_small; lia. Qed.

Lemma i16_of_low (x : Z) : i16 (x mod 65536) = i16 x.
Proof.
  unfold i16. change (2 ^ 16) with 65536.
  by rewrite Z.add_mod_idemp_l.
Qed.

(** What the packed word holds, for any two [REBINT]s. *)
Lemma SET_EVENT_XY_data (v : Reb_Event) (x y : Z) :
  data (SET_EVENT_XY v x y) = (y mod 65536) * 65536 + x mod 65536.
Proof.
  cbn. rewrite land_65535, shiftl_16.
  destruct (i32_multiple y) as [h Hh].
  pose proof (Z.mod_pos_bound x 65536 ltac:(lia)) as Hx.
  rewrite Hh, lor_high_low by done.
  assert (Hc : (h * 65536) mod 2 ^ 32 = (y * 65536) mod 2 ^ 32)
    by (rewrite <- Hh; apply i32_congr).
  unfold u32. rewrite <- Z.add_mod_idemp_l, Hc, Z.add_mod_idemp_l by lia.
  change (2 ^ 32) with (65536 * 65536).
  Z.to_euclidean_division_equations. lia.
Qed.

(** X1.  A position stored with [SET_EVENT_XY] is read back by
    [VAL_EVENT_X] and [VAL_EVENT_Y], negative coordinates included, as
    long as each coordinate fits the 16 bits of a [short]; the other
    members of the event are left as they were. *)
Theorem event_xy_round_trip (v : Reb_Event) (x y : Z) :
  - 32768 <= x <= 32767 -> - 32768 <= y <= 32767 ->
  VAL_EVENT_X (SET_EVENT_XY v x y) = x
  /\ VAL_EVENT_Y (SET_EVENT_XY v x y) = y
  /\ type (SET_EVENT_XY v x y) = type v
  /\ flags (SET_EVENT_XY v x y) = flags v
  /\ win (SET_EVENT_XY v x y) = win v.
Proof.
  intros Hx Hy.
  assert (Hxy : VAL_EVENT_X (SET_EVENT_XY v x y) = x
                /\ VAL_EVENT_Y (SET_EVENT_XY v x y) = y);
    [|by destruct Hxy].
  unfold VAL_EVENT_X, VAL_EVENT_Y, VAL_EVENT_DATA.
  rewrite !land_65535, shiftr_16, SET_EVENT_XY_data.
  pose proof (Z.mod_pos_bound x 65536 ltac:(lia)) as Bx.
  pose proof (Z.mod_pos_bound y 65536 ltac:(lia)) as By.
  replace ((y mod 65536 * 65536 + x mod 65536) mod 65536) with (x mod 65536)
    by (Z.to_euclidean_division_equations; lia).
  replace ((y mod 65536 * 65536 + x mod 65536) / 65536 mod 65536)
    with (y mod 65536) by (Z.to_euclidean_division_equations; lia).
  rewrite !i16_of_low.
  assert (Hi : forall z, - 32768 <= z <= 32767 -> i16 z = z).
  { intros z Hz. unfold i16. rewrite Z.mod_small; lia. }
  rewrite !Hi by done. split; apply i32_small; lia.
Qed.

Lemma event_xy_round_trip_witness :
  VAL_EVENT_X (SET_EVENT_XY (mkEvent 2 0 7 0) (-3) 200) = -3
  /\ VAL_EVENT_Y (SET_EVENT_XY (mkEvent 2 0 7 0) (-3) 200) = 200
  /\ type (SET_EVENT_XY (mkEvent 2 0 7 0) (-3) 200) = 2
  /\ flags (SET_EVENT_XY (mkEvent 2 0 7 0) (-3) 200) = 0
  /\ win (SET_EVENT_XY (mkEvent 2 0 7 0) (-3) 200) = 7.
Proof.
  exact (event_xy_round_trip (mkEvent 2 0 7 0) (-3) 200
           ltac:(lia) ltac:(lia)).
Defined.

(** X2.  [SET_EVENT_KEY] adds the key to the shifted key code instead of
    masking it: the key read back is [k] modulo 2^16, and the bits of
    [k] above the low 16 are added into the key code read back.  The
    pair is read back as stored exactly when both are below 2^16. *)
Theorem event_key_round_trip (v : Reb_Event) (k c : Z) :
  0 <= k < 2 ^ 32 -> 0 <= c < 2 ^ 32 ->
  VAL_EVENT_KEY (SET_EVENT_KEY v k c) = k mod 65536
  /\ VAL_EVENT_KCODE (SET_EVENT_KEY v k c) = (c + k / 65536) mod 65536
  /\ (k < 65536 -> c < 65536 ->
      VAL_EVENT_KEY (SET_EVENT_KEY v k c) = k
      /\ VAL_EVENT_KCODE (SET_EVENT_KEY v k c) = c).
Proof.
  intros Hk Hc. unfold VAL_EVENT_KEY, VAL_EVENT_KCODE, VAL_EVENT_DATA.
  cbn [SET_EVENT_KEY data]. rewrite !land_65535, shiftr_16, shiftl_16.
  unfold u32. change (2 ^ 32) with (65536 * 65536) in *.
  repeat split; intros; Z.to_euclidean_division_equations; lia.
Qed.

Lemma event_key_round_trip_witness :
  VAL_EVENT_KEY (SET_EVENT_KEY (mkEvent 2 0 7 0) 65601 30) = 65601 mod 65536
  /\ VAL_EVENT_KCODE (SET_EVENT_KEY (mkEvent 2 0 7 0) 65601 30)
     = (30 + 65601 / 65536) mod 65536
  /\ (65601 < 65536 -> 30 < 65536 ->
      VAL_EVENT_KEY (SET_EVENT_KEY (mkEvent 2 0 7 0) 65601 30) = 65601
      /\ VAL_EVENT_KCODE (SET_EVENT_KEY (mkEvent 2 0 7 0) 65601 30) = 30).
Proof.
  exact (event_key_round_trip (mkEvent 2 0 7 0) 65601 30
           ltac:(lia) ltac:(lia)).
Defined.

End Event.

(** ** Series bookkeeping (%sys-rebser.h, %m-pools.c) *)

Module SeriesOps.

Import Bits16.
Import Series.

Local Open Scope Z_scope.

(** *** Bias

    The [bias] field is a [REBCNT]; the count of units in front of the
    head is kept in its upper 16 bits. *)

Definition with_bias (d : Reb_Series_Dynamic) (field : Z) : Reb_Series_Dynamic :=
  mkDyn (mem d) (data d) (len d) (rest d) field.

(** [s->content.dynamic.bias =
       (s->content.dynamic.bias & 0xffff) | (bias << 16)] *)
Definition SER_SET_BIAS (d : Reb_Series_Dynamic) (b : Z) : Reb_Series_Dynamic :=
  with_bias d (Z.lor (Z.land (bias d) 65535) (u32 (Z.shiftl b 16))).

(** [s->content.dynamic.bias += b << 16] *)
Definition SER_ADD_BIAS (d : Reb_Series_Dynamic) (b : Z) : Reb_Series_Dynamic :=
  with_bias d (u32 (bias d + u32 (Z.shiftl b 16))).

(** [SER_SUB_BIAS] of the expansion routine, as an update of the record. *)
Definition SER_SUB_BIAS' (d : Reb_Series_Dynamic) (b : Z) : Reb_Series_Dynamic :=
  with_bias d (SER_SUB_BIAS d b).

(** *** The list of manual series

    [GC_Manuals] holds the pointers of the series that are not managed;
    the list is the first [content.dynamic.len] entries of its data. *)

(** The walk back from [last_ptr - 1] over the first [i] entries, to the
    entry that holds [s]: its index, or [None] when the walk leaves the
    data (where the checked build panics). *)
Fixpoint search_back (GC_Manuals : list Z) (s : Z) (i : nat) : option nat :=
  match i with
  | O => None
  | S i' =>
      match GC_Manuals !! i' with
      | Some p => if p =? s then Some i' else search_back GC_Manuals s i'
      | None => None
      end
  end.

(** [Untrack_Manual_Series(s)] *)
Definition Untrack_Manual_Series (GC_Manuals : list Z) (s : Z)
  : Result (list Z) :=
  match last GC_Manuals with
  | None => Undefined
  | Some last_ =>
      let n := (length GC_Manuals - 1)%nat in
      if last_ =? s then Ok (take n GC_Manuals)
      else
        match search_back GC_Manuals s n with
        | None => Undefined
        | Some current => Ok (take n (<[current := last_]> GC_Manuals))
        end
  end.

(** *** The table of recently expanded series *)

(** The loop of [Decay_Series] over the table:
    [for (n = 1; n < MAX_EXPAND_LIST; n++)
       if (Prior_Expand[n] == s) Prior_Expand[n] = 0;]
    (the release of the data, which follows it in [Decay_Series], is not
    part of this definition). *)
Definition Decay_Series_Prior_Expand (Prior_Expand : list Z) (s : Z) : list Z :=
  imap (fun n p => if (1 <=? n)%nat && (p =? s) then 0 else p) Prior_Expand.

(** Whether a slot other than the first is free. *)
Definition free_slot_after_first (Prior_Expand : list Z) : bool :=
  existsb (Z.eqb 0) (tail Prior_Expand).

(** *** Properties *)

Lemma lor_low_high (l h : Z) :
  0 <= l < 65536 -> Z.lor l (h * 65536) = h * 65536 + l.
Proof. intros Hl. rewrite Z.lor_comm. by apply lor_high_low. Qed.

(** X3.  [SER_SET_BIAS] stores the bias in the upper 16 bits of the field
    and leaves the lower 16 bits alone: [SER_BIAS] reads back the bias
    modulo 2^16, hence the bias itself when it is below 2^16. *)
Theorem SER_SET_BIAS_read_back (d : Reb_Series_Dynamic) (b : Z) :
  0 <= b < 2 ^ 32 ->
  SER_BIAS (SER_SET_BIAS d b) = b mod 65536
  /\ Z.land (bias (SER_SET_BIAS d b)) 65535 = Z.land (bias d) 65535
  /\ (b < 65536 -> SER_BIAS (SER_SET_BIAS d b) = b).
Proof.
  intros Hb. unfold SER_BIAS, SER_SET_BIAS. cbn [with_bias bias].
  rewrite !land_65535, shiftr_16, shiftl_16.
  pose proof (Z.mod_pos_bound (bias d) 65536 ltac:(lia)) as Hl.
  assert (Hu : u32 (b * 65536) = (b mod 65536) * 65536).
  { unfold u32. change (2 ^ 32) with (65536 * 65536).
    Z.to_euclidean_division_equations. lia. }
  rewrite Hu, lor_low_high by done.
  pose proof (Z.mod_pos_bound b 65536 ltac:(lia)) as Hm.
  repeat split; intros; Z.to_euclidean_division_equations; lia.
Qed.

Lemma SER_SET_BIAS_read_back_witness :
  SER_BIAS (SER_SET_BIAS (mkDyn [] 0 0 0 327685) 3) = 3 mod 65536
  /\ Z.land (bias (SER_SET_BIAS (mkDyn [] 0 0 0 327685) 3)) 65535
     = Z.land (bias (mkDyn [] 0 0 0 327685)) 65535
  /\ (3 < 65536 -> SER_BIAS (SER_SET_BIAS (mkDyn [] 0 0 0 327685) 3) = 3).
Proof.
  exact (SER_SET_BIAS_read_back (mkDyn [] 0 0 0 327685) 3 ltac:(lia)).
Defined.

(** X4.  [SER_SUB_BIAS] undoes [SER_ADD_BIAS]: adding a bias and then
    subtracting it gives the record back, whatever the wrap-around in
    between; the bias read after the addition is the sum modulo 2^16,
    and the lower 16 bits of the field are not touched. *)
Theorem SER_ADD_BIAS_then_SUB (d : Reb_Series_Dynamic) (b : Z) :
  0 <= bias d < 2 ^ 32 -> 0 <= b < 2 ^ 32 ->
  SER_SUB_BIAS' (SER_ADD_BIAS d b) b = d
  /\ SER_BIAS (SER_ADD_BIAS d b) = (SER_BIAS d + b) mod 65536
  /\ Z.land (bias (SER_ADD_BIAS d b)) 65535 = Z.land (bias d) 65535.
Proof.
  intros Hd Hb. unfold SER_SUB_BIAS', SER_SUB_BIAS, SER_BIAS, SER_ADD_BIAS.
  cbn [with_bias bias mem data len rest].
  rewrite !land_65535, !shiftr_16, !shiftl_16.
  split; [|split].
  - destruct d as [m dt l r bs]. cbn [with_bias bias mem data len rest] in *.
    f_equal. unfold u32. change (2 ^ 32) with (65536 * 65536) in *.
    Z.to_euclidean_division_equations. lia.
  - unfold u32. change (2 ^ 32) with (65536 * 65536) in *.
    Z.to_euclidean_division_equations. lia.
  - unfold u32. change (2 ^ 32) with (65536 * 65536) in *.
    Z.to_euclidean_division_equations. lia.
Qed.

Lemma SER_ADD_BIAS_then_SUB_witness :
  SER_SUB_BIAS' (SER_ADD_BIAS (mkDyn [] 0 0 0 4294901765) 2) 2
  = mkDyn [] 0 0 0 4294901765
  /\ SER_BIAS (SER_ADD_BIAS (mkDyn [] 0 0 0 4294901765) 2)
     = (SER_BIAS (mkDyn [] 0 0 0 4294901765) + 2) mod 65536
  /\ Z.land (bias (SER_ADD_BIAS (mkDyn [] 0 0 0 4294901765) 2)) 65535
     = Z.land (bias (mkDyn [] 0 0 0 4294901765)) 65535.
Proof.
  exact (SER_ADD_BIAS_then_SUB (mkDyn [] 0 0 0 4294901765) 2
           ltac:(cbn; lia) ltac:(lia)).
Defined.

Lemma search_back_Some (l : list Z) (s : Z) (i current : nat) :
  search_back l s i = Some current ->
  (current < i)%nat /\ l !! current = Some s.
Proof.
  induction i as [|i IH]; cbn; [done|].
  destruct (l !! i) as [p|] eqn:Hp; [|done].
  destruct (p =? s) eqn:E.
  - intros [= <-]. apply Z.eqb_eq in E as ->. split; [lia|done].
  - intros H. destruct (IH H). split; [lia|done].
Qed.

Lemma search_back_None (l : list Z) (s : Z) (i : nat) :
  (i <= length l)%nat -> search_back l s i = None -> s ∉ take i l.
Proof.
  induction i as [|i IH]; cbn [search_back]; intros Hi.
  - intros _. rewrite take_0. apply not_elem_of_nil.
  - destruct (l !! i) as [p|] eqn:Hp.
    + destruct (p =? s) eqn:E; [done|]. intros H.
      rewrite (take_S_r _ _ _ Hp). rewrite not_elem_of_app. split.
      * apply IH; [lia|done].
      * apply Z.eqb_neq in E. intros ->%list_elem_of_singleton. done.
    + apply lookup_ge_None in Hp. lia.
Qed.

(** X5.  [Untrack_Manual_Series] removes exactly one entry for the
    series from the list of manual series and keeps every other entry
    (the last entry takes the place of the one removed, so the order may
    change); it never fails, and it leaves defined behaviour exactly when
    the series is not in the list, the case in which the checked build
    panics. *)
Theorem Untrack_Manual_Series_removes_one (GC_Manuals : list Z) (s : Z) :
  match Untrack_Manual_Series GC_Manuals s with
  | Ok l' => s :: l' ≡ₚ GC_Manuals
  | Undefined => s ∉ GC_Manuals
  | Fail _ => False
  end.
Proof.
  unfold Untrack_Manual_Series.
  destruct (last GC_Manuals) as [x|] eqn:Hlast.
  2:{ apply last_None in Hlast as ->. apply not_elem_of_nil. }
  apply last_Some in Hlast as [pre ->].
  rewrite length_app. cbn [length].
  replace (length pre + 1 - 1)%nat with (length pre) by lia.
  destruct (x =? s) eqn:E.
  - apply Z.eqb_eq in E as ->. rewrite take_app_length.
    by rewrite Permutation_cons_append.
  - apply Z.eqb_neq in E.
    destruct (search_back (pre ++ [x]) s (length pre)) as [current|] eqn:Hs.
    + apply search_back_Some in Hs as [Hlt Hcur].
      rewrite lookup_app_l in Hcur by done.
      rewrite insert_app_l by done.
      rewrite take_app_length' by (by rewrite length_insert).
      apply list_elem_of_split_length in Hcur as (p1 & p2 & -> & ->).
      rewrite insert_app_r_alt by lia.
      replace (length p1 - length p1)%nat with O by lia. cbn.
      rewrite <- !app_assoc. cbn.
      solve_Permutation.
    + apply search_back_None in Hs; [|rewrite length_app; lia].
      rewrite take_app_length in Hs.
      rewrite not_elem_of_app. split; [done|].
      by intros ->%list_elem_of_singleton.
Qed.

Lemma scan_prior_None (prior : list Z) (sp : Z) (n n_available : nat) :
  scan_prior prior sp n n_available = None <-> sp ∈ prior.
Proof.
  revert n n_available. induction prior as [|p prior IH]; intros n na; cbn.
  - split; [done|]. by intros ?%elem_of_nil.
  - destruct (p =? sp) eqn:E.
    + apply Z.eqb_eq in E as ->. split; [intros _; apply list_elem_of_here|done].
    + apply Z.eqb_neq in E. rewrite IH, elem_of_cons. split; [tauto|].
      intros [Heq|Hin]; [congruence|done].
Qed.

Lemma scan_prior_Some (prior : list Z) (sp : Z) (n n_available k : nat) :
  scan_prior prior sp n n_available = Some k ->
  k = n_available \/ (n <= k < n + length prior)%nat.
Proof.
  revert n n_available. induction prior as [|p prior IH]; intros n na; cbn.
  - intros [= <-]. by left.
  - destruct (p =? sp); [done|]. intros H. apply IH in H.
    destruct (p =? 0); lia.
Qed.

Section Table.

Variable SET_END : list Byte.byte -> list Byte.byte.
Variable Prep_Array : list Byte.byte -> list Byte.byte.
Variable Did_Series_Data_Alloc : Z -> Z -> option (list Byte.byte * Z).

Lemma TERM_SERIES_dynamic (s s2 : REBSER) :
  TERM_SERIES SET_END s = Ok s2 -> IS_SER_DYNAMIC s2 = IS_SER_DYNAMIC s.
Proof.
  unfold TERM_SERIES. destruct (SER_DATA_RAW s) as [m head].
  destruct (IS_SER_ARRAY s).
  - destruct (negb (IS_SER_DYNAMIC s) && (SER_LEN s =? 1)); [by intros [= <-]|].
    intros H. apply bind_Ok in H as (cell & _ & H).
    apply bind_Ok in H as (m' & _ & H). injection H as <-.
    apply with_memory_raw.
  - intros H. apply bind_Ok in H as (m' & _ & H). injection H as <-.
    apply with_memory_raw.
Qed.

(** [Remake_Series(s, units, wide, flags)]: [preserve] is
    [flags & NODE_FLAG_NODE] and [power_of_2] is
    [flags & SERIES_FLAG_POWER_OF_2].  The result is the series as the
    routine leaves it; the release of the old data, which ends the
    routine, is not part of the model. *)
Definition Remake_Series (s : REBSER) (units wide : Z)
    (preserve power_of_2 : bool) : Result REBSER :=
  let len_old := SER_LEN s in
  let '(data_old, head_old) := SER_DATA_RAW s in
  let s1 := mkSer (SERIES_FLAG_FIXED_SIZE s)
              (SERIES_FLAG_POWER_OF_2 s || power_of_2) wide (content s) in
  match Did_Series_Data_Alloc (u32 (units + 1)) (SER_WIDE s1) with
  | None => Fail (Error_No_Memory (u32 (u32 (units + 1) * wide)))
  | Some (fresh, rest') =>
      let fresh := if IS_SER_ARRAY s1 then Prep_Array fresh else fresh in
      let len' := if preserve then Z.min len_old units else 0 in
      let* m := (if preserve
                 then memcpy fresh 0 data_old head_old (u32 (len' * wide))
                 else Ok fresh) in
      TERM_SERIES SET_END
        (mkSer (SERIES_FLAG_FIXED_SIZE s1) (SERIES_FLAG_POWER_OF_2 s1) wide
           (Dynamic (mkDyn m 0 len' rest' 0)))
  end.

Lemma Remake_Series_Ok (s s' : REBSER) (units : Z)
    (preserve power_of_2 : bool) (bytes : list Byte.byte) :
  keeps_length SET_END ->
  series_valid s -> 0 <= units ->
  SER_BYTES s = Ok bytes ->
  Remake_Series s units (SER_WIDE s) preserve power_of_2 = Ok s' ->
  IS_SER_DYNAMIC s' = true
  /\ SER_WIDE s' = SER_WIDE s
  /\ SER_LEN s' = (if preserve then Z.min (SER_LEN s) units else 0)
  /\ SER_BYTES s' = Ok (take (Z.to_nat (SER_LEN s' * SER_WIDE s)) bytes).
Proof.
  intros Hend Hv Hu Hbytes.
  destruct (series_valid_bytes s Hv) as (Hw & Hb & Hfit & Hsb).
  pose proof Hv as (_ & HL & HM & _).
  rewrite Hsb in Hbytes. injection Hbytes as <-.
  unfold Remake_Series.
  destruct (SER_DATA_RAW s) as [data_old head_old] eqn:Hraw.
  cbn [fst snd] in *.
  set (w := SER_WIDE s) in *.
  set (s1 := mkSer _ _ w (content s)).
  assert (Hw1 : SER_WIDE s1 = w).
  { unfold SER_WIDE at 1. cbn [s1 WIDE_BYTE_OR_0].
    destruct (w =? 0) eqn:E; [apply Z.eqb_eq in E; lia|done]. }
  assert (Harr : IS_SER_ARRAY s1 = false).
  { unfold IS_SER_ARRAY. cbn [s1 WIDE_BYTE_OR_0]. apply Z.eqb_neq. lia. }
  rewrite Hw1, Harr.
  destruct (Did_Series_Data_Alloc (u32 (units + 1)) w) as [[fresh rest']|];
    [|done].
  set (len' := if preserve then Z.min (SER_LEN s) units else 0).
  assert (Hlen' : 0 <= len' <= SER_LEN s) by (subst len'; destruct preserve; lia).
  intros Hrun. apply bind_Ok in Hrun as (m & Hm & Hterm).
  pose (s2 := mkSer (SERIES_FLAG_FIXED_SIZE s1) (SERIES_FLAG_POWER_OF_2 s1) w
                (Dynamic (mkDyn m 0 len' rest' 0))).
  change (TERM_SERIES SET_END s2 = Ok s') in Hterm.
  assert (Hw2 : SER_WIDE s2 = w).
  { unfold SER_WIDE at 1. cbn [s2 WIDE_BYTE_OR_0].
    destruct (w =? 0) eqn:E; [apply Z.eqb_eq in E; lia|done]. }
  assert (Hdyn : IS_SER_DYNAMIC s' = true).
  { rewrite (TERM_SERIES_dynamic _ _ Hterm). reflexivity. }
  apply TERM_SERIES_Ok in Hterm as (T1 & T2 & T3 & T4 & T5 & T6); [|done| |].
  2:{ rewrite Hw2. lia. }
  2:{ rewrite Hw2. unfold s2. cbn [SER_DATA_RAW content snd SER_LEN data len].
      nia. }
  rewrite Hw2 in T5, T6. specialize (T6 eq_refl).
  unfold s2 in T1, T3, T4, T5, T6;
    cbn [SER_DATA_RAW content fst snd SER_LEN data len mem] in T1, T3, T4, T5, T6.
  assert (Hws' : SER_WIDE s' = w).
  { by rewrite (SER_WIDE_eq s2 s') by done. }
  split; [done|]. split; [done|]. split; [done|].
  rewrite T1. unfold SER_BYTES.
  destruct (SER_DATA_RAW s') as [m' head'] eqn:Hraw'. cbn [fst snd] in *.
  subst head'. rewrite T1, Hws'. unfold mem_read.
  rewrite (proj2 (in_bounds_spec _ _ _)) by nia.
  f_equal. change (Z.to_nat 0) with O.
  rewrite (T5 O (Z.to_nat (len' * w))) by nia.
  rewrite take_take.
  replace (Z.to_nat (len' * w) `min` Z.to_nat (SER_LEN s * w))%nat
    with (Z.to_nat (len' * w)) by nia.
  destruct preserve.
  - unfold memcpy in Hm. rewrite (u32_small (len' * w)) in Hm by nia.
    apply bind_Ok in Hm as (bs & Hread & Hwrite).
    apply mem_read_Ok in Hread as (_ & -> & Hlen).
    apply mem_write_at in Hwrite. rewrite Hlen in Hwrite.
    exact Hwrite.
  - subst len'. by rewrite Z.mul_0_l.
Qed.

(** X6.  [Remake_Series] of a series of bytes (or of other units that
    are not cells) at its own width: when the allocator refuses, it
    fails with the no-memory error for [(units + 1) * wide] bytes;
    otherwise the series comes back dynamic, of the same width, with the
    length [MIN(len_old, units)] and the first that many units of the
    old content when asked to preserve, and with length 0 when not. *)
Theorem Remake_Series_preserves (s : REBSER) (units : Z)
    (preserve power_of_2 : bool) (bytes : list Byte.byte) :
  keeps_length SET_END -> allocator_sound Did_Series_Data_Alloc ->
  series_valid s -> IS_SER_ARRAY s = false -> 0 <= units < 2 ^ 32 - 1 ->
  SER_BYTES s = Ok bytes ->
  match Did_Series_Data_Alloc (units + 1) (SER_WIDE s) with
  | None =>
      Remake_Series s units (SER_WIDE s) preserve power_of_2
      = Fail (Error_No_Memory (u32 ((units + 1) * SER_WIDE s)))
  | Some _ =>
      exists s',
        Remake_Series s units (SER_WIDE s) preserve power_of_2 = Ok s'
        /\ IS_SER_DYNAMIC s' = true
        /\ SER_WIDE s' = SER_WIDE s
        /\ SER_LEN s' = (if preserve then Z.min (SER_LEN s) units else 0)
        /\ SER_BYTES s' = Ok (take (Z.to_nat (SER_LEN s' * SER_WIDE s)) bytes)
  end.
Proof.
  intros Hend Hsound Hv _ Hu Hbytes.
  destruct (series_valid_bytes s Hv) as (Hw & Hb & Hfit & _).
  pose proof Hv as (_ & HL & HM & _).
  destruct (Did_Series_Data_Alloc (units + 1) (SER_WIDE s))
    as [[fresh rest']|] eqn:Halloc.
  2:{ unfold Remake_Series. destruct (SER_DATA_RAW s) as [data_old head_old].
      assert (Hw1 : forall f p c, SER_WIDE (mkSer f p (SER_WIDE s) c) = SER_WIDE s).
      { intros f p c. unfold SER_WIDE at 1. cbn [WIDE_BYTE_OR_0].
        destruct (SER_WIDE s =? 0) eqn:E; [apply Z.eqb_eq in E; lia|done]. }
      rewrite Hw1, (u32_small (units + 1)), Halloc by lia. done. }
  assert (Hrun : exists s', Remake_Series s units (SER_WIDE s) preserve power_of_2
                            = Ok s').
  { destruct (Hsound _ _ _ _ Halloc) as (Hcap & Hflen & _).
    unfold Remake_Series.
    destruct (SER_DATA_RAW s) as [data_old head_old] eqn:Hraw.
    cbn [fst snd] in *. set (w := SER_WIDE s) in *.
    assert (Hw1 : forall f p c, SER_WIDE (mkSer f p w c) = w).
    { intros f p c. unfold SER_WIDE at 1. cbn [WIDE_BYTE_OR_0].
      destruct (w =? 0) eqn:E; [apply Z.eqb_eq in E; lia|done]. }
    assert (Harr : forall f p c, IS_SER_ARRAY (mkSer f p w c) = false).
    { intros f p c. unfold IS_SER_ARRAY. cbn [WIDE_BYTE_OR_0].
      apply Z.eqb_neq. lia. }
    rewrite Hw1, (u32_small (units + 1)), Halloc, Harr by lia.
    set (len' := if preserve then Z.min (SER_LEN s) units else 0).
    assert (Hlen' : 0 <= len' <= SER_LEN s /\ len' <= units)
      by (subst len'; destruct preserve; lia).
    assert (Hm : exists m,
               (if preserve
                then memcpy fresh 0 data_old head_old (u32 (len' * w))
                else Ok fresh) = Ok m /\ length m = length fresh).
    { destruct preserve; [|by eexists].
      rewrite (u32_small (len' * w)) by nia.
      apply memcpy_in; nia. }
    destruct Hm as (m & -> & Hmlen). cbn [bind].
    apply TERM_SERIES_returns; [done|rewrite Hw1; lia|cbn; lia|cbn; lia|].
    rewrite Harr. cbn [andb]. rewrite Hw1.
    cbn [SER_DATA_RAW content fst snd SER_LEN data len mem]. nia. }
  destruct Hrun as (s' & Hrun). exists s'. split; [done|].
  apply (Remake_Series_Ok s s' units preserve power_of_2 bytes); try done. lia.
Qed.

(** X7.  When [Expand_Series] takes a new allocation, it leaves the
    series in the table of recent expansions: the table keeps its size,
    it is not changed when the series was in it, and otherwise a single
    slot is overwritten. *)
Theorem Expand_Series_remembers (Prior_Expand Prior_Expand' : list Z)
    (sp : Z) (s s' : REBSER) (index delta : Z) :
  Prior_Expand <> [] -> delta <> 0 ->
  needs_new_allocation s index delta = true ->
  Expand_Series SET_END Prep_Array Did_Series_Data_Alloc
    Prior_Expand sp s index delta = Ok (s', Prior_Expand') ->
  scan_prior Prior_Expand' sp 0 0 = None
  /\ length Prior_Expand' = length Prior_Expand
  /\ (sp ∈ Prior_Expand -> Prior_Expand' = Prior_Expand)
  /\ exists slot, forall i, i <> slot -> Prior_Expand' !! i = Prior_Expand !! i.
Proof.
  intros Hne Hd Hneed. unfold Expand_Series, needs_new_allocation in *.
  destruct (negb (Z.land delta 2147483648 =? 0)); [done|].
  destruct (delta =? 0) eqn:E0; [apply Z.eqb_eq in E0; done|].
  apply andb_true_iff in Hneed as [Hhead Hroom].
  assert (Hh : match content s with
               | Dynamic d =>
                   if (index =? 0) && (delta <=? SER_BIAS d) then Some d else None
               | Fixed _ _ => None
               end = None).
  { destruct (content s) as [d|]; [|done].
    by destruct ((index =? 0) && (delta <=? SER_BIAS d)). }
  rewrite Hh. apply negb_true_iff in Hroom. rewrite Hroom.
  destruct (SERIES_FLAG_FIXED_SIZE s); [done|].
  destruct (SER_DATA_RAW s) as [data_old head_old].
  match goal with
  | |- context [Did_Series_Data_Alloc ?u ?w] =>
      destruct (Did_Series_Data_Alloc u w) as [[fresh rest']|]; [|done]
  end.
  intros Hrun.
  apply bind_Ok in Hrun as (m1 & _ & Hrun).
  apply bind_Ok in Hrun as (m2 & _ & Hrun).
  apply bind_Ok in Hrun as (s2 & _ & Hrun).
  injection Hrun as _ <-.
  destruct (scan_prior Prior_Expand sp 0 0) as [k|] eqn:Hscan.
  - assert (Hk : (k < length Prior_Expand)%nat).
    { apply scan_prior_Some in Hscan. destruct Prior_Expand; [done|].
      cbn [length] in *. lia. }
    split; [|split; [|split]].
    + apply scan_prior_None. apply list_elem_of_lookup. exists k.
      by apply list_lookup_insert_eq.
    + by rewrite length_insert.
    + intros Hin. apply scan_prior_None with (n := O) (n_available := O) in Hin.
      congruence.
    + exists k. intros i Hi. by apply list_lookup_insert_ne.
  - split; [done|]. split; [done|]. split; [done|]. by exists O.
Qed.

(** X8.  When [Expand_Series] needs a new allocation for a series that
    is not locked and the allocator refuses, it fails with the no-memory
    error for the size it asked for: room for the new length and one
    unit more, or, for a series found in the table of recent expansions,
    for twice the new length and one unit more. *)
Theorem Expand_Series_no_memory (Prior_Expand : list Z) (sp : Z) (s : REBSER)
    (index delta : Z) :
  0 < delta < 2 ^ 31 ->
  needs_new_allocation s index delta = true ->
  SERIES_FLAG_FIXED_SIZE s = false ->
  let units :=
    u32 (u32 (SER_LEN s + delta)
         + (if bool_decide (sp ∈ Prior_Expand)
            then u32 (u32 (SER_LEN s + delta) + 1) else 1)) in
  Did_Series_Data_Alloc units (SER_WIDE s) = None ->
  Expand_Series SET_END Prep_Array Did_Series_Data_Alloc
    Prior_Expand sp s index delta
  = Fail (Error_No_Memory (u32 (units * SER_WIDE s))).
Proof.
  intros Hd Hneed Hfix units Halloc. subst units.
  unfold Expand_Series, needs_new_allocation in *.
  rewrite high_bit_of_small by lia. cbn [Z.eqb negb].
  destruct (delta =? 0) eqn:E0; [apply Z.eqb_eq in E0; lia|].
  apply andb_true_iff in Hneed as [Hhead Hroom].
  assert (Hh : match content s with
               | Dynamic d =>
                   if (index =? 0) && (delta <=? SER_BIAS d) then Some d else None
               | Fixed _ _ => None
               end = None).
  { destruct (content s) as [d|]; [|done].
    by destruct ((index =? 0) && (delta <=? SER_BIAS d)). }
  rewrite Hh. apply negb_true_iff in Hroom. rewrite Hroom, Hfix.
  destruct (SER_DATA_RAW s) as [data_old head_old].
  assert (Hx : match scan_prior Prior_Expand sp 0 0 with
               | Some _ => 1
               | None => u32 (u32 (SER_LEN s + delta) + 1)
               end
               = if bool_decide (sp ∈ Prior_Expand)
                 then u32 (u32 (SER_LEN s + delta) + 1) else 1).
  { destruct (scan_prior Prior_Expand sp 0 0) as [k|] eqn:Hscan.
    - rewrite bool_decide_eq_false_2; [done|].
      intros Hin. apply (scan_prior_None _ _ O O) in Hin. congruence.
    - apply scan_prior_None in Hscan. by rewrite bool_decide_eq_true_2. }
  rewrite Hx, Halloc. done.
Qed.

Lemma scan_prior_slot (prior : list Z) (sp : Z) (n n_available k : nat) :
  scan_prior prior sp n n_available = Some k ->
  (Forall (fun p => p <> 0) prior /\ k = n_available)
  \/ exists j, k = (n + j)%nat /\ prior !! j = Some 0
               /\ forall i, (j < i)%nat -> prior !! i <> Some 0.
Proof.
  revert n n_available. induction prior as [|p prior IH]; intros n na; cbn.
  - intros [= <-]. by left.
  - destruct (p =? sp); [done|]. intros H. apply IH in H as [[Hall ->]|Hj].
    + destruct (p =? 0) eqn:E.
      * right. exists O. apply Z.eqb_eq in E as ->.
        split; [lia|]. split; [done|]. intros [|i] Hi; [lia|]. cbn.
        intros Hz. apply list_elem_of_lookup_2 in Hz.
        by eapply Forall_forall in Hall.
      * left. apply Z.eqb_neq in E. split; [by constructor|done].
    + destruct Hj as (j & -> & Hz & Hlater). right. exists (S j).
      split; [lia|]. split; [done|]. intros [|i] Hi; [lia|]. cbn.
      apply Hlater. lia.
Qed.

Lemma existsb_zero (l : list Z) : existsb (Z.eqb 0) l = true <-> 0 ∈ l.
Proof.
  rewrite existsb_exists. split.
  - intros (x & Hin & ->%Z.eqb_eq). by apply list_elem_of_In.
  - intros Hin. exists 0. split; [by apply list_elem_of_In|done].
Qed.

(** X9.  A new allocation by [Expand_Series] for a series that was not
    in the table of recent expansions, followed by the loop of
    [Decay_Series]: when a slot other than the first was free, the loop
    gives back the table as it was before the expansion; when none was,
    the expansion put the series in the first slot, which the loop does
    not visit, so that the series stays in the table after its decay. *)
Theorem Expand_Series_then_Decay (Prior_Expand Prior_Expand' : list Z)
    (sp : Z) (s s' : REBSER) (index delta : Z) :
  sp ∉ Prior_Expand -> Prior_Expand <> [] -> delta <> 0 ->
  needs_new_allocation s index delta = true ->
  Expand_Series SET_END Prep_Array Did_Series_Data_Alloc
    Prior_Expand sp s index delta = Ok (s', Prior_Expand') ->
  if free_slot_after_first Prior_Expand
  then Decay_Series_Prior_Expand Prior_Expand' sp = Prior_Expand
  else Prior_Expand' = <[0%nat := sp]> Prior_Expand
       /\ Decay_Series_Prior_Expand Prior_Expand' sp = Prior_Expand'.
Proof.
  intros Hnotin Hne Hd Hneed. unfold Expand_Series, needs_new_allocation in *.
  destruct (negb (Z.land delta 2147483648 =? 0)); [done|].
  destruct (delta =? 0) eqn:E0; [apply Z.eqb_eq in E0; done|].
  apply andb_true_iff in Hneed as [Hhead Hroom].
  assert (Hh : match content s with
               | Dynamic d =>
                   if (index =? 0) && (delta <=? SER_BIAS d) then Some d else None
               | Fixed _ _ => None
               end = None).
  { destruct (content s) as [d|]; [|done].
    by destruct ((index =? 0) && (delta <=? SER_BIAS d)). }
  rewrite Hh. apply negb_true_iff in Hroom. rewrite Hroom.
  destruct (SERIES_FLAG_FIXED_SIZE s); [done|].
  destruct (SER_DATA_RAW s) as [data_old head_old].
  match goal with
  | |- context [Did_Series_Data_Alloc ?u ?w] =>
      destruct (Did_Series_Data_Alloc u w) as [[fresh rest']|]; [|done]
  end.
  intros Hrun.
  apply bind_Ok in Hrun as (m1 & _ & Hrun).
  apply bind_Ok in Hrun as (m2 & _ & Hrun).
  apply bind_Ok in Hrun as (s2 & _ & Hrun).
  injection Hrun as _ <-.
  destruct (scan_prior Prior_Expand sp 0 0) as [k|] eqn:Hscan.
  2:{ apply scan_prior_None in Hscan. done. }
  destruct Prior_Expand as [|p0 others]; [done|]. clear Hne.
  assert (Hothers : forall i p, others !! i = Some p -> p <> sp).
  { intros i p Hp ->. apply Hnotin. apply elem_of_cons. right.
    by eapply list_elem_of_lookup_2. }
  assert (Hp0 : p0 <> sp).
  { intros ->. apply Hnotin. apply list_elem_of_here. }
  unfold free_slot_after_first. cbn [tail].
  apply scan_prior_slot in Hscan.
  destruct (existsb (Z.eqb 0) others) eqn:Hfree.
  - apply existsb_zero in Hfree. apply list_elem_of_lookup in Hfree as [z Hz].
    assert (Hk : exists j, k = S j /\ others !! j = Some 0).
    { destruct Hscan as [[Hall _]|(j & -> & Hj & Hlater)].
      - apply Forall_cons in Hall as [_ Hall].
        apply list_elem_of_lookup_2 in Hz. by eapply Forall_forall in Hall.
      - destruct j as [|j]; [|by exists j].
        exfalso. by apply (Hlater (S z) ltac:(lia)). }
    destruct Hk as (j & -> & Hj).
    change (<[S j := sp]> (p0 :: others)) with (p0 :: <[j := sp]> others).
    unfold Decay_Series_Prior_Expand. cbn [imap]. f_equal.
    apply list_eq. intros i. rewrite list_lookup_imap.
    destruct (decide (i = j)) as [->|Hij].
    + rewrite list_lookup_insert_eq by (by eapply lookup_lt_Some).
      cbn. rewrite Z.eqb_refl. by rewrite Hj.
    + rewrite list_lookup_insert_ne by done.
      destruct (others !! i) as [p|] eqn:Hp; [|done]. cbn.
      destruct (Z.eqb_spec p sp) as [->|]; [|done].
      by apply Hothers in Hp.
  - assert (Hk : k = O).
    { destruct Hscan as [[_ ->]|(j & -> & Hj & _)]; [done|].
      destruct j as [|j]; [done|]. cbn in Hj.
      apply list_elem_of_lookup_2, existsb_zero in Hj. congruence. }
    subst k. split; [done|].
    change (<[0%nat := sp]> (p0 :: others)) with (sp :: others).
    unfold Decay_Series_Prior_Expand. cbn [imap]. f_equal.
    apply list_eq. intros i. rewrite list_lookup_imap.
    destruct (others !! i) as [p|] eqn:Hp; [|done]. cbn.
    destruct (Z.eqb_spec p sp) as [->|]; [|done].
    by apply Hothers in Hp.
Qed.

End Table.

(** *** The routines at work *)

(** An allocator that has nothing left. *)
Definition sample_no_alloc (units wide : Z) : option (list Byte.byte * Z) :=
  None.

Lemma sample_alloc_serves : allocator_serves sample_alloc.
Proof.
  intros units wide Hu Hw Hsz. unfold sample_alloc.
  rewrite (proj2 (Z.leb_le 0 units)), (proj2 (Z.leb_le 0 wide)),
    (proj2 (Z.ltb_lt (units * wide) (2 ^ 32))) by lia.
  eexists _, _. split; [reflexivity|]. split; [lia|].
  rewrite length_replicate. nia.
Qed.

Lemma series_abc_valid : series_valid series_abc.
Proof. unfold series_valid, series_abc. cbn. lia. Qed.

Lemma series_abc_wellformed : series_wellformed series_abc.
Proof. split; [exact series_abc_valid|]. vm_compute. repeat split. Qed.

Lemma Remake_Series_preserves_witness :
  exists s',
    Remake_Series sample_SET_END sample_Prep_Array sample_alloc
      series_abc 2 (SER_WIDE series_abc) true false = Ok s'
    /\ IS_SER_DYNAMIC s' = true
    /\ SER_WIDE s' = SER_WIDE series_abc
    /\ SER_LEN s' = Z.min (SER_LEN series_abc) 2
    /\ SER_BYTES s'
       = Ok (take (Z.to_nat (SER_LEN s' * SER_WIDE series_abc))
               [Byte.x61; Byte.x62; Byte.x63]).
Proof.
  exact (Remake_Series_preserves sample_SET_END sample_Prep_Array sample_alloc
           series_abc 2 true false [Byte.x61; Byte.x62; Byte.x63]
           sample_SET_END_length sample_alloc_sound series_abc_valid
           eq_refl ltac:(change (2 ^ 32) with 4294967296; lia) eq_refl).
Defined.

Lemma Expand_Series_remembers_witness :
  scan_prior [1; 0; 77] 77 0 0 = None
  /\ length [1; 0; 77] = length [1; 0; 0]
  /\ (77 ∈ [1; 0; 0] -> [1; 0; 77] = [1; 0; 0])
  /\ exists slot, forall i, i <> slot -> [1; 0; 77] !! i = [1; 0; 0] !! i.
Proof.
  exact (Expand_Series_remembers sample_SET_END sample_Prep_Array sample_alloc
           [1; 0; 0] [1; 0; 77] 77 series_abc _ 1 2
           ltac:(discriminate) ltac:(lia) eq_refl eq_refl).
Defined.

Lemma Expand_Series_no_memory_witness :
  Expand_Series sample_SET_END sample_Prep_Array sample_no_alloc
    [1; 0; 77] 77 series_abc 1 2
  = Fail (Error_No_Memory 11).
Proof.
  exact (Expand_Series_no_memory sample_SET_END sample_Prep_Array
           sample_no_alloc [1; 0; 77] 77 series_abc 1 2
           ltac:(change (2 ^ 31) with 2147483648; lia) eq_refl eq_refl eq_refl).
Defined.

Lemma Expand_Series_then_Decay_witness :
  Decay_Series_Prior_Expand [1; 0; 77] 77 = [1; 0; 0].
Proof.
  exact (Expand_Series_then_Decay sample_SET_END sample_Prep_Array sample_alloc
           [1; 0; 0] [1; 0; 77] 77 series_abc _ 1 2
           (bool_decide_eq_false_1 (77 ∈ [1; 0; 0]) eq_refl)
           ltac:(discriminate) ltac:(lia) eq_refl eq_refl).
Defined.

Lemma Expand_Series_returns_witness :
  exists s' Prior_Expand',
    sample_Expand_Series [1; 0; 0] 77 series_abc 1 2 = Ok (s', Prior_Expand').
Proof.
  exact (Expand_Series_returns sample_SET_END sample_Prep_Array sample_alloc
           [1; 0; 0] 77 series_abc 1 2
           sample_Prep_Array_length sample_SET_END_length sample_alloc_serves
           series_abc_wellformed ltac:(cbn; lia) ltac:(lia)
           ltac:(change (2 ^ 32) with 4294967296; cbn; lia)
           ltac:(intros _; reflexivity)).
Defined.

End SeriesOps.

(** ** MONEY!: the other verbs (%t-money.c) *)

Module MoneyOps.

Import Money.

Local Open Scope Z_scope.

Section Ops.

Variable REBDEC : Type.
Variable lib : Deci_Lib REBDEC.

(** The comparisons of the deci library that [CT_Money] calls. *)
Variable deci_is_equal : deci -> deci -> bool.
Variable deci_is_lesser_or_equal : deci -> deci -> bool.

(** [CT_Money(a, b, mode)] *)
Definition CT_Money (a b : REBVAL REBDEC) (mode : Z) : Result Z :=
  let* x := VAL_MONEY_AMOUNT REBDEC a in
  let* y := VAL_MONEY_AMOUNT REBDEC b in
  let e := deci_is_equal x y in
  let e :=
    if mode <? 0 then
      let g := deci_is_lesser_or_equal y x in
      if mode =? -1 then e || g else g && negb e
    else e in
  Ok (if e then 1 else 0).

(** The verbs that take their second argument through
    [Math_Arg_For_Money]. *)
Definition is_arithmetic (verb : REBSYM) : bool :=
  match verb with
  | SYM_ADD | SYM_SUBTRACT | SYM_MULTIPLY | SYM_DIVIDE | SYM_REMAINDER => true
  | _ => false
  end.

(** *** Properties *)

(** X11.  Whatever [MAKE_Money] returns is a MONEY! cell, and making
    money from that cell returns the very same cell. *)
Theorem MAKE_Money_idempotent (arg out : REBVAL REBDEC) :
  MAKE_Money lib arg = Ok out ->
  VAL_TYPE out = REB_MONEY /\ MAKE_Money lib out = Ok out.
Proof.
  intros H.
  assert (Hk : VAL_TYPE out = REB_MONEY).
  { unfold Money.MAKE_Money in H.
    destruct (VAL_TYPE arg) eqn:Hkind; try discriminate.
    - unfold Bin_To_Money_May_Fail in H.
      destruct (negb (IS_KIND REBDEC REB_BINARY arg)); [done|].
      destruct (payload REBDEC arg); try discriminate.
      destruct (_ && _); [done|]. by injection H as <-.
    - destruct (payload REBDEC arg); try discriminate.
      apply bind_Ok in H as (bp & _ & H).
      destruct (string_to_deci REBDEC lib bp) as [a consumed].
      destruct ((consumed =? 0)%nat || negb (consumed =? length bp)%nat);
        [done|]. by injection H as <-.
    - by injection H as <-.
    - apply bind_Ok in H as (i & _ & H). by injection H as <-.
    - apply bind_Ok in H as (d & _ & H). apply bind_Ok in H as (a & _ & H).
      by injection H as <-.
    - apply bind_Ok in H as (d & _ & H). apply bind_Ok in H as (a & _ & H).
      by injection H as <-.
    - by injection H as <-. }
  split; [done|]. unfold Money.MAKE_Money. by rewrite Hk.
Qed.

(** X12.  NEGATE of a money value, where it returns, is undone by a
    second NEGATE; ABSOLUTE gives the same cell for a value and for its
    negation, it is idempotent, and its amount is that of the value with
    the sign cleared. *)
Theorem T_Money_negate_absolute (val arg2 scale v1 : REBVAL REBDEC)
    (flags : Round_Flags) :
  T_Money lib SYM_NEGATE val arg2 scale flags = Ok v1 ->
  T_Money lib SYM_NEGATE v1 arg2 scale flags = Ok val
  /\ T_Money lib SYM_ABSOLUTE v1 arg2 scale flags
     = T_Money lib SYM_ABSOLUTE val arg2 scale flags
  /\ exists v2,
       T_Money lib SYM_ABSOLUTE val arg2 scale flags = Ok v2
       /\ T_Money lib SYM_ABSOLUTE v2 arg2 scale flags = Ok v2
       /\ VAL_MONEY_AMOUNT REBDEC v2
          = let* a := VAL_MONEY_AMOUNT REBDEC val in
            Ok (mkDeci (m0 a) (m1 a) (m2 a) false (e a)).
Proof.
  unfold T_Money, set_sign, VAL_MONEY_AMOUNT.
  destruct val as [k f [a| | | | |]]; cbn; try discriminate.
  destruct a as [a0 a1 a2 sg ex]. cbn. intros [= <-]. cbn.
  rewrite negb_involutive. split; [done|]. split; [done|].
  eexists. split; [done|]. cbn. done.
Qed.

(** X13.  EVEN? and ODD? of one money value answer with opposite
    LOGIC! cells, and where one of them fails (the amount does not
    convert to an integer) the other fails with the same error. *)
Theorem T_Money_even_odd (val arg2 scale : REBVAL REBDEC) (flags : Round_Flags) :
  match T_Money lib SYM_EVEN_Q val arg2 scale flags,
        T_Money lib SYM_ODD_Q val arg2 scale flags with
  | Ok ev, Ok od =>
      exists b, ev = Init_Logic REBDEC b /\ od = Init_Logic REBDEC (negb b)
  | Fail x, Fail y => x = y
  | Undefined, Undefined => True
  | _, _ => False
  end.
Proof.
  unfold T_Money.
  destruct (VAL_MONEY_AMOUNT REBDEC val) as [a| |]; cbn; [|done|done].
  destruct (deci_to_int REBDEC lib a) as [i| |]; cbn; [|done|done].
  assert (Hbit : Z.land 1 i = 0 \/ Z.land 1 i = 1).
  { assert (Hmod : Z.land 1 i = i mod 2)
      by (rewrite Z.land_comm; apply (Z.land_ones i 1); lia).
    pose proof (Z.mod_pos_bound i 2 ltac:(lia)). lia. }
  destruct Hbit as [-> | ->]; cbn.
  - by exists true.
  - by exists false.
Qed.

(** X14.  For ADD, SUBTRACT, MULTIPLY, DIVIDE and REMAINDER, an INTEGER!
    second argument acts as the money value of that integer; a second
    argument that is none of MONEY!, INTEGER!, DECIMAL! and PERCENT!
    fails with the math-arguments error. *)
Theorem T_Money_integer_argument (verb : REBSYM) (val arg2 scale : REBVAL REBDEC)
    (flags : Round_Flags) (i : Z) :
  is_arithmetic verb = true ->
  T_Money lib verb val (Init_Integer REBDEC i) scale flags
  = T_Money lib verb val (Init_Money (int_to_deci REBDEC lib i)) scale flags
  /\ (IS_KIND REBDEC REB_MONEY arg2 = false ->
      IS_KIND REBDEC REB_INTEGER arg2 = false ->
      IS_KIND REBDEC REB_DECIMAL arg2 = false ->
      IS_KIND REBDEC REB_PERCENT arg2 = false ->
      T_Money lib verb val arg2 scale flags = Fail Error_Math_Args).
Proof.
  intros Hv. split.
  - destruct verb; try discriminate; reflexivity.
  - intros H1 H2 H3 H4.
    destruct verb; try discriminate;
      unfold T_Money, money_binop, Math_Arg_For_Money;
      by rewrite H1, H2, H3, H4.
Qed.

(** X15.  ROUND of a money value, where it returns: with /TO and a scale
    that is an INTEGER!, DECIMAL! or PERCENT!, the result has the kind of
    the scale; in every other case it is a MONEY!. *)
Theorem T_Money_round_kind (val arg2 scale out : REBVAL REBDEC)
    (flags : Round_Flags) :
  T_Money lib SYM_ROUND val arg2 scale flags = Ok out ->
  VAL_TYPE out
  = if RF_TO flags
       && (IS_KIND REBDEC REB_INTEGER scale || IS_KIND REBDEC REB_DECIMAL scale
           || IS_KIND REBDEC REB_PERCENT scale)
    then VAL_TYPE scale else REB_MONEY.
Proof.
  unfold T_Money. intros H.
  apply bind_Ok in H as (temp & _ & H).
  apply bind_Ok in H as (a & _ & H).
  apply bind_Ok in H as (t & _ & H).
  apply bind_Ok in H as (r & _ & H).
  destruct (RF_TO flags); cbn [andb] in *; [|by injection H as <-].
  destruct (IS_KIND REBDEC REB_DECIMAL scale || IS_KIND REBDEC REB_PERCENT scale)
    eqn:Hd.
  - injection H as <-. cbn.
    by destruct (IS_KIND REBDEC REB_INTEGER scale); rewrite ?orb_true_r;
      apply orb_true_iff in Hd as [-> | ->]; rewrite ?orb_true_r.
  - apply orb_false_iff in Hd as [-> ->]. rewrite !orb_false_r.
    destruct (IS_KIND REBDEC REB_INTEGER scale) eqn:Hi.
    + apply bind_Ok in H as (i & _ & H). injection H as <-. cbn.
      unfold IS_KIND, kind_eqb in Hi. by apply bool_decide_eq_true_1 in Hi.
    + by injection H as <-.
Qed.

(** X16.  The three modes of [CT_Money] are consistent whatever the
    deci comparisons answer: where the strict mode (below -1) says
    greater, the mode -1 (greater or equal) says so too and the equality
    mode says different; where the equality mode says equal, the mode -1
    agrees and the strict mode says not greater. *)
Theorem CT_Money_modes_agree (a b : REBVAL REBDEC) (mode : Z) :
  mode < -1 ->
  (CT_Money a b mode = Ok 1 ->
   CT_Money a b (-1) = Ok 1 /\ CT_Money a b 0 = Ok 0)
  /\ (CT_Money a b 0 = Ok 1 ->
      CT_Money a b (-1) = Ok 1 /\ CT_Money a b mode = Ok 0).
Proof.
  intros Hm. unfold CT_Money.
  destruct (VAL_MONEY_AMOUNT REBDEC a) as [x| |]; cbn; [|done|done].
  destruct (VAL_MONEY_AMOUNT REBDEC b) as [y| |]; cbn; [|done|done].
  assert (E1 : (mode <? 0) = true) by (apply Z.ltb_lt; lia).
  assert (E2 : (mode =? -1) = false) by (apply Z.eqb_neq; lia).
  rewrite E1, E2.
  destruct (deci_is_equal x y), (deci_is_lesser_or_equal y x); cbn; done.
Qed.

End Ops.

(** An instance of the deci routines, to run the dispatcher: an amount
    is the integer in its first word, a decimal is an integer, and the
    arithmetic is that of integers. *)
Definition sample_int (a : deci) : Z := if s a then - m0 a else m0 a.
Definition sample_deci (i : Z) : deci := mkDeci (Z.abs i) 0 0 (i <? 0) 0.

Definition sample_lib : Deci_Lib Z :=
  mkLib Z
    sample_deci
    (fun d => Ok (sample_deci d))
    (fun bp => (sample_deci 0, length bp))
    (fun buf => sample_deci (foldr Z.add 0 buf))
    (fun a => Ok (sample_int a))
    sample_int
    (fun a b => Ok (sample_deci (sample_int a + sample_int b)))
    (fun a b => Ok (sample_deci (sample_int a - sample_int b)))
    (fun a b => Ok (sample_deci (sample_int a * sample_int b)))
    (fun a b => if sample_int b =? 0 then Fail Error_Zero_Divide
                else Ok (sample_deci (sample_int a / sample_int b)))
    (fun a b => if sample_int b =? 0 then Fail Error_Zero_Divide
                else Ok (sample_deci (Z.rem (sample_int a) (sample_int b))))
    (fun a _ _ => Ok a)
    (fun _ => Ok []).

Definition sample_flags (to : bool) : Round_Flags :=
  mkRF to false false false false false false.

Lemma MAKE_Money_idempotent_witness :
  VAL_TYPE (Init_Money (REBDEC := Z) (sample_deci 5)) = REB_MONEY
  /\ MAKE_Money sample_lib (Init_Money (sample_deci 5))
     = Ok (Init_Money (sample_deci 5)).
Proof.
  exact (MAKE_Money_idempotent Z sample_lib (Init_Integer Z 5)
           (Init_Money (sample_deci 5)) eq_refl).
Defined.

Lemma T_Money_negate_absolute_witness :
  T_Money sample_lib SYM_NEGATE (Init_Money (sample_deci (-5)))
    (Init_Integer Z 0) (Init_Integer Z 0) (sample_flags false)
  = Ok (Init_Money (sample_deci 5))
  /\ T_Money sample_lib SYM_ABSOLUTE (Init_Money (sample_deci (-5)))
       (Init_Integer Z 0) (Init_Integer Z 0) (sample_flags false)
     = T_Money sample_lib SYM_ABSOLUTE (Init_Money (sample_deci 5))
         (Init_Integer Z 0) (Init_Integer Z 0) (sample_flags false).
Proof.
  pose proof (T_Money_negate_absolute Z sample_lib
                (Init_Money (sample_deci 5)) (Init_Integer Z 0)
                (Init_Integer Z 0) (Init_Money (sample_deci (-5)))
                (sample_flags false) eq_refl) as (H1 & H2 & _).
  exact (conj H1 H2).
Defined.

Lemma T_Money_integer_argument_witness :
  T_Money sample_lib SYM_ADD (Init_Money (sample_deci 5)) (Init_Integer Z 2)
    (Init_Integer Z 0) (sample_flags false)
  = T_Money sample_lib SYM_ADD (Init_Money (sample_deci 5))
      (Init_Money (sample_deci 2)) (Init_Integer Z 0) (sample_flags false).
Proof.
  exact (proj1 (T_Money_integer_argument Z sample_lib SYM_ADD
                  (Init_Money (sample_deci 5)) (Init_Logic Z true)
                  (Init_Integer Z 0) (sample_flags false) 2 eq_refl)).
Defined.

Lemma T_Money_round_kind_witness :
  T_Money sample_lib SYM_ROUND (Init_Money (sample_deci 5))
    (Init_Integer Z 0) (Init_Integer Z 1) (sample_flags true)
  = Ok (Init_Integer Z 5)
  /\ VAL_TYPE (Init_Integer Z 5) = VAL_TYPE (Init_Integer Z 1).
Proof.
  split; [reflexivity|].
  exact (T_Money_round_kind Z sample_lib (Init_Money (sample_deci 5))
           (Init_Integer Z 0) (Init_Integer Z 1) (Init_Integer Z 5)
           (sample_flags true) eq_refl).
Defined.

Lemma CT_Money_modes_agree_witness :
  (CT_Money Z (fun x y => sample_int x =? sample_int y)
     (fun x y => sample_int x <=? sample_int y)
     (Init_Money (sample_deci 5)) (Init_Money (sample_deci 2)) (-2) = Ok 1 ->
   CT_Money Z (fun x y => sample_int x =? sample_int y)
     (fun x y => sample_int x <=? sample_int y)
     (Init_Money (sample_deci 5)) (Init_Money (sample_deci 2)) (-1) = Ok 1
   /\ CT_Money Z (fun x y => sample_int x =? sample_int y)
        (fun x y => sample_int x <=? sample_int y)
        (Init_Money (sample_deci 5)) (Init_Money (sample_deci 2)) 0 = Ok 0)
  /\ CT_Money Z (fun x y => sample_int x =? sample_int y)
       (fun x y => sample_int x <=? sample_int y)
       (Init_Money (sample_deci 5)) (Init_Money (sample_deci 2)) (-2) = Ok 1.
Proof.
  split; [|reflexivity].
  exact (proj1 (CT_Money_modes_agree Z (fun x y => sample_int x =? sample_int y)
                  (fun x y => sample_int x <=? sample_int y)
                  (Init_Money (sample_deci 5)) (Init_Money (sample_deci 2))
                  (-2) ltac:(lia))).
Defined.

End MoneyOps.

(** ** TYPESET!: construction and conversion (%t-typeset.c) *)

Module TypesetOps.

Import Typeset.

Local Open Scope Z_scope.

(** The tags kept in the root set that a typeset spec is compared with. *)
Inductive Root_Tag : Type :=
| Root_Ellipsis_Tag | Root_End_Tag | Root_Opt_Tag | Root_Skip_Tag.

(** The items of a typeset spec: a WORD!, a TAG!, or a cell of another
    kind (a BLOCK! among them). *)
Inductive Item (W T : Type) : Type :=
| Item_Word (w : W)
| Item_Tag (t : T)
| Item_Cell (v : REBVAL).

Arguments Item_Word {W T} w.
Arguments Item_Tag {W T} t.
Arguments Item_Cell {W T} v.

(** What the routine fails with. *)
Inductive Spec_Error (W T : Type) : Type :=
| Invalid_Double_Block
| Only_Hard_Quoted_Skippable
| Error_Invalid_Core (item : Item W T)
| Lookup_Failed (e : Reb_Error).

Arguments Invalid_Double_Block {W T}.
Arguments Only_Hard_Quoted_Skippable {W T}.
Arguments Error_Invalid_Core {W T} item.
Arguments Lookup_Failed {W T} e.

Definition IS_BLOCK (v : REBVAL) : bool := kind_eqb (VAL_TYPE v) REB_BLOCK.
Definition IS_BAR (v : REBVAL) : bool := kind_eqb (VAL_TYPE v) REB_BAR.
Definition IS_BLANK (v : REBVAL) : bool := kind_eqb (VAL_TYPE v) REB_BLANK.

Definition Init_Blank : REBVAL :=
  {| header_kind := REB_BLANK; payload := P_none |}.

Section Make.

(** The numbering of [enum Reb_Kind], the cast of a number to the enum,
    and the numbers of the pseudo-kinds that stand for the parameter
    flags of a typeset. *)
Variable kind_num : Reb_Kind -> Z.
Variable kind_of_num : Z -> Reb_Kind.
Variables REB_TS_VARIADIC REB_TS_ENDABLE REB_TS_SKIPPABLE : Z.

(** Words and tags, the variable lookup of a word (which fails on an
    unbound word, and hands back [NULL] or the variable), the comparison
    of a tag with a root tag, and the items of a BLOCK! cell. *)
Variables W T : Type.
Variable Get_Opt_Var_May_Fail : W -> Result (option REBVAL).
Variable Compare_String_Vals : T -> Root_Tag -> bool -> Z.
Variable VAL_ARRAY_AT : REBVAL -> list (Item W T).

(** [FLAGIT_KIND] on the number of a kind. *)
Definition FLAGIT (n : Z) : Z := u64 (Z.shiftl 1 n).

(** Modelled from the spec: the TYPE_SET macro of %sys-typeset.h is not
    in the tree; construction "builds the bitmask by union". *)
Definition TYPE_SET (bits n : Z) : Z := Z.lor bits (FLAGIT n).

Definition tag_is (item : Item W T) (root : Root_Tag) : bool :=
  match item with
  | Item_Tag t => Compare_String_Vals t root true =? 0
  | _ => false
  end.

Definition item_is (test : REBVAL -> bool) (item : Item W T) : bool :=
  match item with
  | Item_Cell v => test v
  | _ => false
  end.

(** One pass of the loop of [Update_Typeset_Bits_Core] over [item];
    [hard_quote] is [VAL_PARAM_CLASS(typeset) == PARAM_CLASS_HARD_QUOTE].
    [var] is the variable of a word or the cell of the item; when it is
    [None], [var] of the source is the item itself, a word or a tag,
    which is neither a datatype nor a typeset. *)
Definition update_step (hard_quote : bool) (bits : Z) (item : Item W T)
  : Checked (Spec_Error W T) Z :=
  let+ var :=
    match item with
    | Item_Word w => lift Lookup_Failed (Get_Opt_Var_May_Fail w)
    | Item_Cell v => Done (Some v)
    | _ => Done None
    end in
  if tag_is item Root_Ellipsis_Tag then Done (TYPE_SET bits REB_TS_VARIADIC)
  else if item_is IS_BAR item || tag_is item Root_End_Tag
  then Done (TYPE_SET bits REB_TS_ENDABLE)
  else if item_is IS_BLANK item || tag_is item Root_Opt_Tag
  then Done (TYPE_SET bits (kind_num REB_MAX_NULLED))
  else if tag_is item Root_Skip_Tag then
    if negb hard_quote then Raised Only_Hard_Quoted_Skippable
    else Done (TYPE_SET (TYPE_SET bits REB_TS_SKIPPABLE) REB_TS_ENDABLE)
  else
    match var with
    | Some v =>
        if IS_DATATYPE v then
          let+ k := lift Lookup_Failed (VAL_TYPE_KIND v) in
          Done (TYPE_SET bits (kind_num k))
        else if IS_TYPESET v then
          let+ b := lift Lookup_Failed (VAL_TYPESET_BITS v) in
          Done (Z.lor bits b)
        else Raised (Error_Invalid_Core item)
    | None => Raised (Error_Invalid_Core item)
    end.

Fixpoint update_loop (hard_quote : bool) (bits : Z) (items : list (Item W T))
  : Checked (Spec_Error W T) Z :=
  match items with
  | [] => Done bits
  | item :: items' =>
      let+ bits' := update_step hard_quote bits item in
      update_loop hard_quote bits' items'
  end.

(** [Update_Typeset_Bits_Core(typeset, head, specifier)]: the bits the
    typeset ends with. *)
Definition Update_Typeset_Bits_Core (hard_quote : bool)
    (head : list (Item W T)) : Checked (Spec_Error W T) Z :=
  match head with
  | item :: rest =>
      if item_is IS_BLOCK item then
        match item, rest with
        | Item_Cell v, [] =>
            update_loop hard_quote (TYPE_SET 0 REB_TS_VARIADIC) (VAL_ARRAY_AT v)
        | _, _ => Raised Invalid_Double_Block
        end
      else update_loop hard_quote 0 head
  | [] => Done 0
  end.

(** The scan of [Typeset_To_Array] over the numbers [ns]: the cells it
    pushes, in the order [Pop_Stack_Values] hands them over. *)
Fixpoint push_types (tset : REBVAL) (ns : list Z) : Result (list REBVAL) :=
  match ns with
  | [] => Ok []
  | n :: ns' =>
      let* found := TYPE_CHECK kind_num tset (kind_of_num n) in
      let* rest := push_types tset ns' in
      if found then
        Ok ((if n =? kind_num REB_MAX_NULLED then Init_Blank
             else Init_Datatype (kind_of_num n)) :: rest)
      else Ok rest
  end.

(** [Typeset_To_Array(tset)]: [for (n = 1; n < REB_MAX_NULLED; ++n)]. *)
Definition Typeset_To_Array (tset : REBVAL) : Result (list REBVAL) :=
  push_types tset (seqZ 1 (kind_num REB_MAX_NULLED - 1)).

(** Whether FIND answered with a BAR! (found) rather than with null. *)
Definition is_found (r : Result REB_R) : bool :=
  match r with
  | Ok (R_OUT _) => true
  | _ => false
  end.

(** *** Properties *)

Lemma FLAGIT_testbit (n i : Z) :
  0 <= n < 64 -> 0 <= i -> Z.testbit (FLAGIT n) i = bool_decide (i = n).
Proof.
  intros Hn Hi. unfold FLAGIT, u64. rewrite Z.shiftl_1_l.
  rewrite Z.mod_small by (split; [lia|apply Z.pow_lt_mono_r; lia]).
  case_bool_decide as E.
  - subst. apply Z.pow2_bits_true. lia.
  - apply Z.pow2_bits_false. lia.
Qed.

Lemma TYPE_CHECK_testbit (A : Z) (k : Reb_Kind) :
  0 <= kind_num k < 64 ->
  TYPE_CHECK kind_num (Init_Typeset A) k = Ok (Z.testbit A (kind_num k)).
Proof.
  intros Hk. unfold TYPE_CHECK. cbn. f_equal.
  destruct (Z.testbit A (kind_num k)) eqn:Hb.
  - apply negb_true_iff, Z.eqb_neq. intros H0.
    assert (Ht : Z.testbit (Z.land A (FLAGIT_KIND kind_num k)) (kind_num k) = true).
    { rewrite Z.land_spec, Hb. change (FLAGIT_KIND kind_num k) with (FLAGIT (kind_num k)).
      rewrite FLAGIT_testbit by lia. by rewrite bool_decide_eq_true_2. }
    rewrite H0, Z.bits_0 in Ht. discriminate.
  - apply negb_false_iff, Z.eqb_eq. apply Z.bits_inj'. intros i Hi.
    change (FLAGIT_KIND kind_num k) with (FLAGIT (kind_num k)).
    rewrite Z.land_spec, Z.bits_0, FLAGIT_testbit by lia.
    case_bool_decide as E; [subst; by rewrite Hb | apply andb_false_r].
Qed.

(** The enum cast gives back the kind of each number below
    [REB_MAX_NULLED], and the kinds fit the 64 bits of a typeset. *)
Definition numbering_ok : Prop :=
  kind_num REB_MAX_NULLED <= 64
  /\ forall n, 1 <= n < kind_num REB_MAX_NULLED -> kind_num (kind_of_num n) = n.

Lemma push_types_spec (A : Z) (ns : list Z) :
  numbering_ok ->
  Forall (fun n => 1 <= n < kind_num REB_MAX_NULLED) ns ->
  push_types (Init_Typeset A) ns
  = Ok ((fun n => Init_Datatype (kind_of_num n))
          <$> filter (fun n => Z.testbit A n = true) ns).
Proof.
  intros [Hmax Hcast]. induction 1 as [|n ns Hn Hns IH]; [done|].
  cbn [push_types]. rewrite TYPE_CHECK_testbit by (rewrite Hcast; lia).
  rewrite Hcast by done. cbn [bind]. rewrite IH. cbn [bind].
  rewrite filter_cons.
  destruct (Z.testbit A n) eqn:Hb.
  - rewrite decide_True by done.
    destruct (n =? kind_num REB_MAX_NULLED) eqn:E; [apply Z.eqb_eq in E; lia|].
    done.
  - by rewrite decide_False by done.
Qed.

Lemma Typeset_To_Array_spec (A : Z) :
  numbering_ok ->
  Typeset_To_Array (Init_Typeset A)
  = Ok ((fun n => Init_Datatype (kind_of_num n))
          <$> filter (fun n => Z.testbit A n = true)
                (seqZ 1 (kind_num REB_MAX_NULLED - 1))).
Proof.
  intros Hok. apply push_types_spec; [done|].
  apply Forall_forall. intros n Hn. apply elem_of_seqZ in Hn. lia.
Qed.

Lemma update_loop_datatypes (hard_quote : bool) (bits : Z) (ns : list Z) :
  update_loop hard_quote bits
    ((fun n => Item_Cell (Init_Datatype (kind_of_num n))) <$> ns)
  = Done (fold_left (fun b n => TYPE_SET b (kind_num (kind_of_num n))) ns bits).
Proof.
  revert bits. induction ns as [|n ns IH]; intros bits; [done|].
  rewrite fmap_cons. cbn [update_loop fold_left].
  assert (Hstep : update_step hard_quote bits
                    (Item_Cell (Init_Datatype (kind_of_num n)))
                  = Done (TYPE_SET bits (kind_num (kind_of_num n))))
    by reflexivity.
  rewrite Hstep. cbn [cbind]. apply IH.
Qed.

Lemma fold_TYPE_SET_testbit (ns : list Z) (bits i : Z) :
  Forall (fun n => 0 <= n < 64) ns -> 0 <= i ->
  Z.testbit (fold_left TYPE_SET ns bits) i
  = Z.testbit bits i || bool_decide (i ∈ ns).
Proof.
  intros Hns Hi. revert bits. induction Hns as [|n ns Hn Hns IH]; intros bits.
  - cbn. rewrite bool_decide_eq_false_2 by apply not_elem_of_nil.
    by rewrite orb_false_r.
  - cbn [fold_left]. rewrite IH. unfold TYPE_SET at 1.
    rewrite Z.lor_spec, FLAGIT_testbit by done.
    rewrite <- orb_assoc. f_equal.
    apply eq_true_iff_eq. rewrite orb_true_iff, !bool_decide_eq_true, elem_of_cons.
    tauto.
Qed.

(** X17.  [Typeset_To_Array] gives the DATATYPE! cells of the kinds whose
    bits are set in the typeset, by ascending number from 1 to the kind
    before [REB_MAX_NULLED], and never a BLANK!; a typeset updated from
    that block by [Update_Typeset_Bits_Core] has the bits of those kinds
    as in the first typeset, and no other bit (bit 0, the bit of
    [REB_MAX_NULLED] and the parameter flags above it are not carried
    over). *)
Theorem Typeset_round_trip (hard_quote : bool) (A : Z) :
  numbering_ok ->
  exists block bits,
    Typeset_To_Array (Init_Typeset A) = Ok block
    /\ block = (fun n => Init_Datatype (kind_of_num n))
                <$> filter (fun n => Z.testbit A n = true)
                      (seqZ 1 (kind_num REB_MAX_NULLED - 1))
    /\ Update_Typeset_Bits_Core hard_quote (Item_Cell <$> block) = Done bits
    /\ forall i, 0 <= i ->
         Z.testbit bits i
         = Z.testbit A i && (1 <=? i) && (i <? kind_num REB_MAX_NULLED).
Proof.
  intros Hok. pose proof Hok as [Hmax Hcast].
  pose (ns := filter (fun n => Z.testbit A n = true)
                (seqZ 1 (kind_num REB_MAX_NULLED - 1))).
  exists ((fun n => Init_Datatype (kind_of_num n)) <$> ns).
  exists (fold_left TYPE_SET ns 0).
  split; [by apply Typeset_To_Array_spec|]. split; [done|].
  assert (Hns : Forall (fun n => 1 <= n < kind_num REB_MAX_NULLED) ns).
  { apply Forall_forall. intros n [_ Hn%elem_of_seqZ]%list_elem_of_filter. lia. }
  split.
  - rewrite <- list_fmap_compose.
    change ((Item_Cell ∘ (fun n => Init_Datatype (kind_of_num n))) <$> ns)
      with ((fun n => @Item_Cell W T (Init_Datatype (kind_of_num n))) <$> ns).
    assert (Hloop : update_loop hard_quote 0
                      ((fun n => Item_Cell (Init_Datatype (kind_of_num n))) <$> ns)
                    = Done (fold_left TYPE_SET ns 0)).
    { rewrite (update_loop_datatypes hard_quote 0 ns). f_equal.
      clear -Hns Hcast. generalize 0. induction Hns as [|n ns Hn Hns IH];
        intros b; [done|]. cbn [fold_left]. rewrite Hcast by done. apply IH. }
    unfold Update_Typeset_Bits_Core.
    clearbody ns. destruct ns as [|n ns']; [done|]. rewrite fmap_cons in *.
    exact Hloop.
  - intros i Hi.
    rewrite fold_TYPE_SET_testbit;
      [|by eapply Forall_impl; [done|]; cbn; lia|done].
    rewrite Z.bits_0, orb_false_l.
    destruct (Z.testbit A i) eqn:Hb; cbn [andb].
    + apply eq_true_iff_eq.
      rewrite bool_decide_eq_true, andb_true_iff, Z.leb_le, Z.ltb_lt.
      unfold ns. rewrite list_elem_of_filter, elem_of_seqZ. split; [lia|].
      intros. split; [done|lia].
    + apply bool_decide_eq_false_2. unfold ns.
      rewrite list_elem_of_filter. intros [? _]. congruence.
Qed.

Lemma u64_testbit (x i : Z) :
  0 <= i -> Z.testbit (u64 x) i = (i <? 64) && Z.testbit x i.
Proof. intros Hi. unfold u64. by rewrite Z.testbit_mod_pow2 by lia. Qed.

(** X18.  On typesets whose bits fit 64 bits, COMPLEMENT is an
    involution, and the complement of a UNION is the INTERSECT of the
    complements. *)
Theorem T_Typeset_complement_laws (A B : Z) (U CA CB : REBVAL) :
  0 <= A < 2 ^ 64 ->
  T_Typeset kind_num SYM_UNION (Init_Typeset A) (Some (Init_Typeset B))
  = Ok (R_OUT U) ->
  T_Typeset kind_num SYM_COMPLEMENT (Init_Typeset A) None = Ok (R_OUT CA) ->
  T_Typeset kind_num SYM_COMPLEMENT (Init_Typeset B) None = Ok (R_OUT CB) ->
  T_Typeset kind_num SYM_COMPLEMENT CA None = Ok (R_OUT (Init_Typeset A))
  /\ T_Typeset kind_num SYM_COMPLEMENT U None
     = T_Typeset kind_num SYM_INTERSECT CA (Some CB).
Proof.
  intros HA HU HCA HCB. cbn in HU, HCA, HCB.
  injection HU as <-. injection HCA as <-. injection HCB as <-. split.
  - cbn. do 3 f_equal. apply Z.bits_inj'. intros i Hi.
    rewrite u64_testbit by done.
    destruct (Z.ltb_spec i 64) as [Hlt|Hge]; cbn [andb].
    + rewrite Z.lnot_spec, u64_testbit, Z.lnot_spec by done.
      destruct (Z.ltb_spec i 64); [|lia]. cbn. by rewrite negb_involutive.
    + symmetry. apply Z.bits_above_log2; [lia|].
      destruct (Z.eq_dec A 0) as [->|]; [cbn; lia|].
      assert (Z.log2 A < 64) by (apply Z.log2_lt_pow2; lia). lia.
  - assert (Hi : T_Typeset kind_num SYM_INTERSECT
                   (SET_VAL_TYPESET_BITS (Init_Typeset A) (u64 (Z.lnot A)))
                   (Some (SET_VAL_TYPESET_BITS (Init_Typeset B) (u64 (Z.lnot B))))
                 = Ok (R_OUT (Init_Typeset
                                (Z.land (u64 (Z.lnot A)) (u64 (Z.lnot B))))))
      by reflexivity.
    rewrite Hi. cbn. do 3 f_equal. apply Z.bits_inj'. intros i Hi'.
    rewrite Z.land_spec, !u64_testbit, !Z.lnot_spec, Z.lor_spec by done.
    destruct (i <? 64), (Z.testbit A i), (Z.testbit B i); done.
Qed.

(** X19.  FIND on the typeset that UNION, INTERSECT, DIFFERENCE or
    COMPLEMENT returns (the verbs that return a typeset; COMPLEMENT is
    the last case below): a datatype is found in it exactly when it is
    found in either operand, in both, in exactly one of them, or not in
    the operand. *)
Theorem T_Typeset_find_after (verb : REBSYM) (A B : Z) (k : Reb_Kind)
    (out : REBVAL) :
  0 <= kind_num k < 64 ->
  T_Typeset kind_num verb (Init_Typeset A) (Some (Init_Typeset B))
  = Ok (R_OUT out) ->
  let in_A := is_found (T_Typeset kind_num SYM_FIND (Init_Typeset A)
                          (Some (Init_Datatype k))) in
  let in_B := is_found (T_Typeset kind_num SYM_FIND (Init_Typeset B)
                          (Some (Init_Datatype k))) in
  is_found (T_Typeset kind_num SYM_FIND out (Some (Init_Datatype k)))
  = match verb with
    | SYM_UNION => in_A || in_B
    | SYM_INTERSECT => in_A && in_B
    | SYM_DIFFERENCE => xorb in_A in_B
    | _ => negb in_A
    end.
Proof.
  intros Hk Hrun in_A in_B. subst in_A in_B.
  assert (Hfind : forall X,
             is_found (T_Typeset kind_num SYM_FIND (Init_Typeset X)
                         (Some (Init_Datatype k)))
             = Z.testbit X (kind_num k)).
  { intros X. rewrite T_Typeset_find by done.
    by destruct (Z.testbit X (kind_num k)). }
  destruct verb; try done; cbn in Hrun; injection Hrun as <-;
    change (SET_VAL_TYPESET_BITS (Init_Typeset A) ?x) with (Init_Typeset x);
    rewrite !Hfind.
  - by rewrite Z.land_spec.
  - by rewrite Z.lor_spec.
  - by rewrite Z.lxor_spec.
  - rewrite u64_testbit, Z.lnot_spec by lia.
    destruct (Z.ltb_spec (kind_num k) 64); [done|lia].
Qed.

End Make.

(** An instance, to run the routines: the fifty datatypes numbered from
    1 in the order in which %base-defs.r lists their type tests, [REB_0]
    before them and [REB_MAX_NULLED] after them (the generated header
    that fixes the numbers of the enum is not in the tree); parameter
    flags at 60 to 62, no variable behind any word and no tag that
    matches. *)
Definition sample_kinds : list Reb_Kind :=
  [REB_0; REB_VOID; REB_BLANK; REB_BAR; REB_LIT_BAR; REB_LOGIC; REB_INTEGER;
   REB_DECIMAL; REB_PERCENT; REB_MONEY; REB_CHAR; REB_PAIR; REB_TUPLE;
   REB_TIME; REB_DATE; REB_WORD; REB_SET_WORD; REB_GET_WORD; REB_LIT_WORD;
   REB_REFINEMENT; REB_ISSUE; REB_BINARY; REB_TEXT; REB_FILE; REB_EMAIL;
   REB_URL; REB_TAG; REB_BITSET; REB_IMAGE; REB_VECTOR; REB_BLOCK; REB_GROUP;
   REB_PATH; REB_SET_PATH; REB_GET_PATH; REB_LIT_PATH; REB_MAP; REB_DATATYPE;
   REB_TYPESET; REB_ACTION; REB_VARARGS; REB_OBJECT; REB_FRAME; REB_MODULE;
   REB_ERROR; REB_PORT; REB_GOB; REB_EVENT; REB_HANDLE; REB_STRUCT;
   REB_LIBRARY; REB_MAX_NULLED].

Fixpoint index_of (k : Reb_Kind) (kinds : list Reb_Kind) : Z :=
  match kinds with
  | [] => 0
  | x :: kinds' => if kind_eqb x k then 0 else 1 + index_of k kinds'
  end.

Definition sample_kind_num (k : Reb_Kind) : Z := index_of k sample_kinds.
Definition sample_kind_of_num (n : Z) : Reb_Kind :=
  nth (Z.to_nat n) sample_kinds REB_0.

Lemma sample_numbering_ok : numbering_ok sample_kind_num sample_kind_of_num.
Proof.
  split; [by vm_compute|]. intros n Hn.
  assert (Hall : forallb (fun n => sample_kind_num (sample_kind_of_num n) =? n)
                   (seqZ 1 50) = true) by reflexivity.
  rewrite forallb_forall in Hall. apply Z.eqb_eq, Hall.
  apply list_elem_of_In, elem_of_seqZ.
  change (sample_kind_num REB_MAX_NULLED) with 51 in Hn. lia.
Qed.

Definition sample_Update :=
  Update_Typeset_Bits_Core sample_kind_num 60 61 62 unit unit
    (fun _ => Ok None) (fun _ _ _ => 1) (fun _ => []).

(** The typeset of INTEGER! (6), TEXT! (22) and LIBRARY! (50), the last
    of the datatypes, with bit 0 and the bit of [REB_MAX_NULLED] (51) set
    besides. *)
Definition sample_bits : Z := 2 ^ 51 + 2 ^ 50 + 2 ^ 22 + 2 ^ 6 + 1.

Example sample_typeset_runs :
  Typeset_To_Array sample_kind_num sample_kind_of_num (Init_Typeset sample_bits)
  = Ok [Init_Datatype REB_INTEGER; Init_Datatype REB_TEXT;
        Init_Datatype REB_LIBRARY]
  /\ sample_Update false
       [Item_Cell (Init_Datatype REB_INTEGER); Item_Cell (Init_Datatype REB_TEXT);
        Item_Cell (Init_Datatype REB_LIBRARY)]
     = Done (2 ^ 50 + 2 ^ 22 + 2 ^ 6).
Proof. split; reflexivity. Qed.

Lemma Typeset_round_trip_witness :
  exists block bits,
    Typeset_To_Array sample_kind_num sample_kind_of_num (Init_Typeset sample_bits)
    = Ok block
    /\ block = (fun n => Init_Datatype (sample_kind_of_num n))
                <$> filter (fun n => Z.testbit sample_bits n = true)
                      (seqZ 1 (sample_kind_num REB_MAX_NULLED - 1))
    /\ sample_Update false (Item_Cell <$> block) = Done bits
    /\ forall i, 0 <= i ->
         Z.testbit bits i
         = Z.testbit sample_bits i && (1 <=? i)
           && (i <? sample_kind_num REB_MAX_NULLED).
Proof.
  exact (Typeset_round_trip sample_kind_num sample_kind_of_num 60 61 62
           unit unit (fun _ => Ok None) (fun _ _ _ => 1) (fun _ => [])
           false sample_bits sample_numbering_ok).
Defined.

Lemma T_Typeset_complement_laws_witness :
  T_Typeset sample_kind_num SYM_COMPLEMENT (Init_Typeset (u64 (Z.lnot 5))) None
  = Ok (R_OUT (Init_Typeset 5))
  /\ T_Typeset sample_kind_num SYM_COMPLEMENT (Init_Typeset (Z.lor 5 3)) None
     = T_Typeset sample_kind_num SYM_INTERSECT (Init_Typeset (u64 (Z.lnot 5)))
         (Some (Init_Typeset (u64 (Z.lnot 3)))).
Proof.
  exact (T_Typeset_complement_laws sample_kind_num 5 3
           (Init_Typeset (Z.lor 5 3)) (Init_Typeset (u64 (Z.lnot 5)))
           (Init_Typeset (u64 (Z.lnot 3)))
           ltac:(change (2 ^ 64) with 18446744073709551616; lia)
           eq_refl eq_refl eq_refl).
Defined.

Lemma T_Typeset_find_after_witness :
  is_found (T_Typeset sample_kind_num SYM_FIND
              (Init_Typeset (Z.lxor sample_bits (2 ^ 22)))
              (Some (Init_Datatype REB_TEXT)))
  = xorb (is_found (T_Typeset sample_kind_num SYM_FIND
                         (Init_Typeset sample_bits)
                         (Some (Init_Datatype REB_TEXT))))
            (is_found (T_Typeset sample_kind_num SYM_FIND
                         (Init_Typeset (2 ^ 22))
                         (Some (Init_Datatype REB_TEXT)))).
Proof.
  exact (T_Typeset_find_after sample_kind_num SYM_DIFFERENCE sample_bits
           (2 ^ 22) REB_TEXT (Init_Typeset (Z.lxor sample_bits (2 ^ 22)))
           ltac:(by vm_compute) eq_refl).
Defined.

End TypesetOps.

(** ** Contexts: equality as a relation (%t-object.c) *)

Module ContextOps.

Import Context.

Local Open Scope Z_scope.

Section Relation.

Variable RELVAL : Type.
Variable Cmp_Value : RELVAL -> RELVAL -> bool -> Z.
Variable Is_Param_Hidden : RELVAL -> bool.
Variable VAL_KEY_CANON : RELVAL -> Z.

(** What the comparison of two cells is relied on for. *)
Definition Cmp_Value_symmetric : Prop :=
  forall x y, (Cmp_Value x y false =? 0) = (Cmp_Value y x false =? 0).

Definition Cmp_Value_transitive : Prop :=
  forall x y z,
    Cmp_Value x y false = 0 -> Cmp_Value y z false = 0 ->
    Cmp_Value x z false = 0.

Lemma slot_equal_sym (a b : Slot RELVAL) :
  Cmp_Value_symmetric ->
  slot_equal RELVAL Cmp_Value VAL_KEY_CANON a b
  = slot_equal RELVAL Cmp_Value VAL_KEY_CANON b a.
Proof.
  intros Hs. unfold slot_equal.
  by rewrite (Hs (fst a)), (Hs (snd a)), (Z.eqb_sym (VAL_KEY_CANON (fst a))).
Qed.

Lemma fields_line_up_sym (l1 l2 : list (Slot RELVAL)) :
  Cmp_Value_symmetric ->
  fields_line_up RELVAL Cmp_Value VAL_KEY_CANON l1 l2
  = fields_line_up RELVAL Cmp_Value VAL_KEY_CANON l2 l1.
Proof.
  intros Hs. revert l2. induction l1 as [|a l1 IH]; intros [|b l2]; cbn; try done.
  by rewrite IH, slot_equal_sym.
Qed.

Lemma slot_equal_trans (a b c : Slot RELVAL) :
  Cmp_Value_transitive ->
  slot_equal RELVAL Cmp_Value VAL_KEY_CANON a b = true ->
  slot_equal RELVAL Cmp_Value VAL_KEY_CANON b c = true ->
  slot_equal RELVAL Cmp_Value VAL_KEY_CANON a c = true.
Proof.
  intros Ht. unfold slot_equal. rewrite !andb_true_iff, !Z.eqb_eq.
  intros [[H1 H2] H3] [[H4 H5] H6]. repeat split; [|lia|]; by eapply Ht.
Qed.

Lemma fields_line_up_trans (l1 l2 l3 : list (Slot RELVAL)) :
  Cmp_Value_transitive ->
  fields_line_up RELVAL Cmp_Value VAL_KEY_CANON l1 l2 = true ->
  fields_line_up RELVAL Cmp_Value VAL_KEY_CANON l2 l3 = true ->
  fields_line_up RELVAL Cmp_Value VAL_KEY_CANON l1 l3 = true.
Proof.
  intros Ht. revert l2 l3.
  induction l1 as [|a l1 IH]; intros [|b l2] [|c l3]; cbn; try done.
  rewrite !andb_true_iff. intros [H1 H2] [H3 H4]. split.
  - by eapply slot_equal_trans.
  - by eapply IH.
Qed.

(** X20.  Where the comparison of cells is symmetric and transitive,
    [Equal_Context] is so too: it gives the same outcome with its
    arguments exchanged, and two contexts that are each equal to a third
    are equal to each other, hidden fields on any side notwithstanding. *)
Theorem Equal_Context_symmetric_transitive
    (heap : gmap positive (REBCTX RELVAL)) (a b c : REBVAL) :
  Cmp_Value_symmetric -> Cmp_Value_transitive ->
  Equal_Context RELVAL Cmp_Value Is_Param_Hidden VAL_KEY_CANON heap a b
  = Equal_Context RELVAL Cmp_Value Is_Param_Hidden VAL_KEY_CANON heap b a
  /\ (Equal_Context RELVAL Cmp_Value Is_Param_Hidden VAL_KEY_CANON heap a b
      = Ok true ->
      Equal_Context RELVAL Cmp_Value Is_Param_Hidden VAL_KEY_CANON heap b c
      = Ok true ->
      Equal_Context RELVAL Cmp_Value Is_Param_Hidden VAL_KEY_CANON heap a c
      = Ok true).
Proof.
  intros Hs Ht. split.
  - unfold Equal_Context.
    assert (Hk : kind_eqb (VAL_TYPE b) (VAL_TYPE a)
                 = kind_eqb (VAL_TYPE a) (VAL_TYPE b)).
    { unfold kind_eqb. apply bool_decide_ext. split; congruence. }
    rewrite Hk. destruct (negb _); [done|].
    assert (Hp : bool_decide (VAL_CONTEXT a = VAL_CONTEXT b)
                 = bool_decide (VAL_CONTEXT b = VAL_CONTEXT a))
      by (apply bool_decide_ext; split; congruence).
    rewrite Hp. destruct (bool_decide (VAL_CONTEXT b = VAL_CONTEXT a)); [done|].
    destruct (heap !! VAL_CONTEXT a) as [c1|], (heap !! VAL_CONTEXT b) as [c2|];
      try done.
    by rewrite !walk_fields_line_up, fields_line_up_sym.
  - unfold Equal_Context.
    destruct (negb (kind_eqb (VAL_TYPE b) (VAL_TYPE a))) eqn:K1; [done|].
    destruct (negb (kind_eqb (VAL_TYPE c) (VAL_TYPE b))) eqn:K2; [done|].
    apply negb_false_iff, bool_decide_eq_true_1 in K1.
    apply negb_false_iff, bool_decide_eq_true_1 in K2.
    assert (K3 : negb (kind_eqb (VAL_TYPE c) (VAL_TYPE a)) = false).
    { apply negb_false_iff, bool_decide_eq_true_2. congruence. }
    rewrite K3.
    destruct (bool_decide (VAL_CONTEXT a = VAL_CONTEXT c)) eqn:P3; [done|].
    apply bool_decide_eq_false_1 in P3.
    case_bool_decide as P1.
    + intros _. rewrite <- P1. by rewrite bool_decide_eq_false_2.
    + case_bool_decide as P2.
      * rewrite P2. by destruct (heap !! VAL_CONTEXT a), (heap !! VAL_CONTEXT c).
      * destruct (heap !! VAL_CONTEXT a) as [c1|]; [|done].
        destruct (heap !! VAL_CONTEXT b) as [c2|]; [|done].
        destruct (heap !! VAL_CONTEXT c) as [c3|]; [|done].
        rewrite !walk_fields_line_up. intros [= H1] [= H2]. f_equal.
        by eapply fields_line_up_trans.
Qed.

End Relation.

Lemma sample_cmp_symmetric : Cmp_Value_symmetric Z sample_cmp.
Proof.
  intros x y. unfold sample_cmp.
  destruct (Z.eqb_spec (x - y) 0), (Z.eqb_spec (y - x) 0); lia.
Qed.

Lemma sample_cmp_transitive : Cmp_Value_transitive Z sample_cmp.
Proof. intros x y z. unfold sample_cmp. lia. Qed.

Lemma Equal_Context_symmetric_transitive_witness :
  Equal_Context Z sample_cmp sample_hidden sample_canon sample_heap
    (mkVal REB_OBJECT 1) (mkVal REB_OBJECT 2)
  = Equal_Context Z sample_cmp sample_hidden sample_canon sample_heap
      (mkVal REB_OBJECT 2) (mkVal REB_OBJECT 1)
  /\ Equal_Context Z sample_cmp sample_hidden sample_canon sample_heap
       (mkVal REB_OBJECT 1) (mkVal REB_OBJECT 1) = Ok true.
Proof.
  pose proof (Equal_Context_symmetric_transitive Z sample_cmp sample_hidden
                sample_canon sample_heap (mkVal REB_OBJECT 1)
                (mkVal REB_OBJECT 2) (mkVal REB_OBJECT 1)
                sample_cmp_symmetric sample_cmp_transitive) as [Hsym Htrans].
  exact (conj Hsym (Htrans eq_refl eq_refl)).
Defined.

End ContextOps.

(** ** META-OF and SET-META (%t-object.c, %sys-action.h) *)

Module Meta.

(** A series node, as far as the two natives reach into it: the
    [SERIES_INFO_INACCESSIBLE] bit and [MISC(s).meta], a context or
    [nullptr]. *)
Record Node : Type := mkNode {
  SERIES_INFO_INACCESSIBLE : bool;
  misc_meta : option positive
}.

(** The cells the natives accept: BLANK!, a nulled cell, an ACTION! with
    its paramlist, or a context of some kind with its varlist and its
    binding ([None] is [UNBOUND]). *)
Inductive REBVAL : Type :=
| Blank
| Nulled
| Action (paramlist : positive)
| Any_Context (kind : Reb_Kind) (varlist : positive) (binding : option positive).

Inductive Meta_Error : Type :=
| Error_Series_Data_Freed_Raw
| Cannot_Store_Context_Bindings.

(** [VAL_ACTION(v)]: the paramlist, unless its data was freed. *)
Definition VAL_ACTION (heap : gmap positive Node) (paramlist : positive)
  : Checked Meta_Error positive :=
  match heap !! paramlist with
  | Some node =>
      if SERIES_INFO_INACCESSIBLE node then Raised Error_Series_Data_Freed_Raw
      else Done paramlist
  | None => Unspecified
  end.

(** [MISC(s).meta] as an rvalue and as an lvalue. *)
Definition MISC_meta (heap : gmap positive Node) (s : positive)
  : Checked Meta_Error (option positive) :=
  match heap !! s with
  | Some node => Done (misc_meta node)
  | None => Unspecified
  end.

Definition set_MISC_meta (heap : gmap positive Node) (s : positive)
    (meta : option positive)
  : Checked Meta_Error (gmap positive Node) :=
  match heap !! s with
  | Some node => Done (<[s := mkNode (SERIES_INFO_INACCESSIBLE node) meta]> heap)
  | None => Unspecified
  end.

(** [REBNATIVE(meta_of)]: [None] is the null result, [Some meta] is
    [CTX_ARCHETYPE(meta)], the cell of the context [meta]. *)
Definition meta_of (heap : gmap positive Node) (v : REBVAL)
  : Checked Meta_Error (option positive) :=
  match v with
  | Blank => Done None
  | Action paramlist => MISC_meta heap paramlist
  | Any_Context _ varlist _ => MISC_meta heap varlist
  | Nulled => Unspecified
  end.

(** [REBNATIVE(set_meta)]: the heap it leaves and its result. *)
Definition set_meta (heap : gmap positive Node) (v meta_arg : REBVAL)
  : Checked Meta_Error (gmap positive Node * option positive) :=
  let+ meta :=
    match meta_arg with
    | Any_Context _ varlist binding =>
        match binding with
        | Some _ => Raised Cannot_Store_Context_Bindings
        | None => Done (Some varlist)
        end
    | _ => Done None
    end in
  let+ heap' :=
    match v with
    | Action paramlist =>
        let+ a := VAL_ACTION heap paramlist in set_MISC_meta heap a meta
    | Any_Context _ varlist _ => set_MISC_meta heap varlist meta
    | _ => Unspecified
    end in
  Done (heap', meta).

(** The series node a cell stands for: the paramlist of an action, the
    varlist of a context. *)
Definition node_of (v : REBVAL) : option positive :=
  match v with
  | Action paramlist => Some paramlist
  | Any_Context _ varlist _ => Some varlist
  | _ => None
  end.

(** *** Properties *)

(** X21.  Where SET-META returns, META-OF gives what was set, through
    any cell that stands for the same action or context, and not only
    through the cell that SET-META was given; the result of SET-META is
    the context given as meta (null for a null meta), and no other node
    of the heap is changed. *)
Theorem set_meta_then_meta_of (heap heap' : gmap positive Node) (v w meta_arg : REBVAL)
    (r : option positive) :
  set_meta heap v meta_arg = Done (heap', r) ->
  node_of w = node_of v ->
  meta_of heap' w = Done r
  /\ r = match meta_arg with
         | Any_Context _ varlist _ => Some varlist
         | _ => None
         end
  /\ forall s, node_of v <> Some s -> heap' !! s = heap !! s.
Proof.
  unfold set_meta. intros Hrun Hsame.
  apply cbind_Done in Hrun as (meta & Hmeta & Hrun).
  apply cbind_Done in Hrun as (h1 & Hset & Hrun). injection Hrun as <- <-.
  assert (Hm : meta = match meta_arg with
                      | Any_Context _ varlist _ => Some varlist
                      | _ => None
                      end).
  { destruct meta_arg as [| | |k c [b|]]; cbn in Hmeta; congruence. }
  assert (Hnode : exists s, node_of v = Some s
                            /\ set_MISC_meta heap s meta = Done h1).
  { destruct v as [| |p|k c b]; try done.
    - apply cbind_Done in Hset as (a & Ha & Hset). unfold VAL_ACTION in Ha.
      destruct (heap !! p) as [node|]; [|done].
      destruct (SERIES_INFO_INACCESSIBLE node); [done|]. injection Ha as <-.
      by exists p.
    - by exists c. }
  destruct Hnode as (s & Hv & Hs). unfold set_MISC_meta in Hs.
  destruct (heap !! s) as [node|] eqn:Hlook; [|done]. injection Hs as <-.
  rewrite Hv in Hsame.
  split; [|split; [done|]].
  - assert (Hw : forall h, meta_of h w = MISC_meta h s).
    { intros h. by destruct w; cbn in Hsame; try done; injection Hsame as ->. }
    rewrite Hw. unfold MISC_meta. by rewrite lookup_insert_eq.
  - intros s' Hne. apply lookup_insert_ne. congruence.
Qed.

(** A heap with an action at node 1, an object at node 2 and the meta
    object at node 3. *)
Definition sample_heap : gmap positive Node :=
  <[1%positive := mkNode false None]>
    (<[2%positive := mkNode false None]>
       (<[3%positive := mkNode false None]> ∅)).

Lemma set_meta_then_meta_of_witness :
  meta_of (<[1%positive := mkNode false (Some 3%positive)]> sample_heap)
    (Action 1) = Done (Some 3%positive)
  /\ Some 3%positive = Some 3%positive
  /\ forall s, node_of (Action 1) <> Some s ->
       <[1%positive := mkNode false (Some 3%positive)]> sample_heap !! s
       = sample_heap !! s.
Proof.
  exact (set_meta_then_meta_of sample_heap
           (<[1%positive := mkNode false (Some 3%positive)]> sample_heap)
           (Action 1) (Action 1) (Any_Context REB_OBJECT 3 None)
           (Some 3%positive) eq_refl eq_refl).
Defined.

End Meta.

(** ** PORT!: construction and dispatch (%t-port.c) *)

Module PortOps.

Import Port.

Local Open Scope Z_scope.

(** The verbs the dispatcher tells apart; every other symbol is
    [SYM_other]. *)
Inductive REBSYM : Type :=
| SYM_READ | SYM_WRITE | SYM_QUERY | SYM_OPEN | SYM_CREATE | SYM_DELETE
| SYM_RENAME | SYM_ON_WAKE_UP | SYM_other.

Inductive Port_Error : Type :=
| Error_No_Catch_For_Throw (thrown : REBVAL)
| Error_Invalid_Spec_Raw (spec : REBVAL)
| Error_Illegal_Action (kind : Reb_Kind) (verb : REBSYM)
| Helper_Failed (e : Reb_Error).

Definition IS_BLANK (v : REBVAL) : bool := kind_eqb (VAL_TYPE v) REB_BLANK.

(** Who ends up answering the action. *)
Inductive Answer (R : Type) : Type :=
| Common_Action (r : R)
| Port_Action (port : REBVAL) (verb : REBSYM).

Arguments Common_Action {R} r.
Arguments Port_Action {R} port verb.

Section Dispatch.

(** [Apply_Only_Throws(out, fully, make_port_helper, arg, rebEND)]: the
    helper of the system context applied to [arg]; the flag tells a
    throw from a return, and the cell is what [out] holds. *)
Variable Apply_make_port : REBVAL -> Result (bool * REBVAL).

(** [Context_Common_Action_Maybe_Unhandled]; [None] is [R_UNHANDLED]. *)
Variable R : Type.
Variable Context_Common_Action_Maybe_Unhandled : REBVAL -> REBSYM -> option R.

(** [MAKE_Port(out, kind, arg)] *)
Definition MAKE_Port (arg : REBVAL) : Checked Port_Error REBVAL :=
  let+ applied := lift Helper_Failed (Apply_make_port arg) in
  let '(threw, out) := applied in
  if threw then Raised (Error_No_Catch_For_Throw out)
  else if IS_BLANK out then Raised (Error_Invalid_Spec_Raw arg)
  else Done out.

(** [REBTYPE(Port)], up to the call of [Do_Port_Action]: [arg1] is
    [D_ARG(1)]. *)
Definition T_Port (verb : REBSYM) (arg1 : REBVAL)
  : Checked Port_Error (Answer R) :=
  let+ arg1 :=
    if negb (IS_PORT arg1) then
      match verb with
      | SYM_READ | SYM_WRITE | SYM_QUERY | SYM_OPEN | SYM_CREATE
      | SYM_DELETE | SYM_RENAME => MAKE_Port arg1
      | SYM_ON_WAKE_UP | SYM_other => Done arg1
      end
    else Done arg1 in
  if negb (IS_PORT arg1) then Raised (Error_Illegal_Action (VAL_TYPE arg1) verb)
  else
    match Context_Common_Action_Maybe_Unhandled arg1 verb with
    | Some r => Done (Common_Action r)
    | None => Done (Port_Action arg1 verb)
    end.

(** The verbs for which a first argument that is not a port is made into
    one. *)
Definition makes_port (verb : REBSYM) : bool :=
  match verb with
  | SYM_ON_WAKE_UP | SYM_other => false
  | _ => true
  end.

(** *** Properties *)

(** X22.  Whenever the port dispatcher goes on to answer an action, it
    does so for a PORT!: the first argument itself when that is a port,
    and otherwise, for READ, WRITE, QUERY, OPEN, CREATE, DELETE and
    RENAME only, the value the make-port helper returned for it without
    a throw; with a first argument that is not a port, any other verb
    fails with the illegal-action error for the kind of that argument. *)
Theorem T_Port_answers_for_a_port (verb : REBSYM) (arg1 : REBVAL) :
  (forall answer,
     T_Port verb arg1 = Done answer ->
     exists port,
       IS_PORT port = true
       /\ answer = match Context_Common_Action_Maybe_Unhandled port verb with
                   | Some r => Common_Action r
                   | None => Port_Action port verb
                   end
       /\ (IS_PORT arg1 = true -> port = arg1)
       /\ (IS_PORT arg1 = false ->
           makes_port verb = true /\ Apply_make_port arg1 = Ok (false, port)))
  /\ (IS_PORT arg1 = false -> makes_port verb = false ->
      T_Port verb arg1 = Raised (Error_Illegal_Action (VAL_TYPE arg1) verb)).
Proof.
  assert (Htail : forall p answer,
            (if negb (IS_PORT p)
             then Raised (Error_Illegal_Action (VAL_TYPE p) verb)
             else match Context_Common_Action_Maybe_Unhandled p verb with
                  | Some r => Done (Common_Action r)
                  | None => Done (Port_Action p verb)
                  end) = Done answer ->
            IS_PORT p = true
            /\ answer = match Context_Common_Action_Maybe_Unhandled p verb with
                        | Some r => Common_Action r
                        | None => Port_Action p verb
                        end).
  { intros p answer. destruct (IS_PORT p); cbn [negb]; [|done].
    destruct (Context_Common_Action_Maybe_Unhandled p verb); by intros [= <-]. }
  split.
  - intros answer Hrun. unfold T_Port in Hrun.
    apply cbind_Done in Hrun as (p & Hp & Hrun).
    apply Htail in Hrun as [Hport ->]. exists p. split; [done|]. split; [done|].
    destruct (IS_PORT arg1) eqn:Harg; cbn [negb] in Hp.
    + injection Hp as <-. by split.
    + split; [done|]. intros _.
      destruct verb; cbn [makes_port];
        try (injection Hp as <-; congruence);
        unfold MAKE_Port in Hp;
        destruct (Apply_make_port arg1) as [[threw out]| |]; cbn in Hp;
        try done; destruct threw; try done; destruct (IS_BLANK out); try done;
        by injection Hp as <-.
  - intros Harg Hverb. unfold T_Port. rewrite Harg. cbn [negb].
    destruct verb; try discriminate; cbn [cbind]; by rewrite Harg.
Qed.

End Dispatch.

End PortOps.

(** ** WORD!: picking characters and length (%t-word.c) *)

Module Word.

Local Open Scope Z_scope.

(** What a path dispatcher hands back: [nullptr], the cell in
    [pvs->out], or [R_UNHANDLED]. *)
Inductive Picked : Type :=
| R_NULL
| R_OUT_CHAR (c : Z)
| R_UNHANDLED.

Inductive Word_Error : Type :=
| Error_Bad_Utf8_Raw
| Picker_Failed (e : Reb_Error).

Section Spelling.

(** [Back_Scan_UTF8_Char(&c, bp, &size)] on the bytes from [bp] on: the
    codepoint and the count of continuation bytes it steps over, or
    [None] for the null it returns on a malformed sequence. *)
Variable Back_Scan_UTF8_Char : list Z -> option (Z * nat).

(** [Int32(picker)], which fails for an integer out of range. *)
Variable Int32 : Z -> Result Z.

(** The loop of [PD_Word]: the character [n] steps ahead in [bytes],
    which are the [size] bytes from [bp] on. *)
Fixpoint pick_loop (bytes : list Z) (n : nat) : Checked Word_Error Picked :=
  match bytes with
  | [] => Done R_NULL
  | b :: rest =>
      let+ step :=
        if b <? 128 then Done (b, rest)
        else match Back_Scan_UTF8_Char bytes with
             | Some (c, k) => Done (c, drop k rest)
             | None => Unspecified
             end in
      match n with
      | O => Done (R_OUT_CHAR (fst step))
      | S n' => pick_loop (snd step) n'
      end
  end.

(** [PD_Word(pvs, picker, opt_setval)]: [spelling] is the UTF-8 of the
    word in [pvs->out], [picker] the integer of an INTEGER! picker or
    [None] for a picker of another kind, [setting] tells whether
    [opt_setval] is given. *)
Definition PD_Word (spelling : list Z) (picker : option Z) (setting : bool)
  : Checked Word_Error Picked :=
  if setting then Done R_UNHANDLED
  else
    match picker with
    | None => Done R_UNHANDLED
    | Some i =>
        let+ i32 := lift Picker_Failed (Int32 i) in
        let n := i32 - 1 in
        if n <? - 2 ^ 31 then Unspecified
        else if n <? 0 then Done R_NULL
        else pick_loop spelling (Z.to_nat n)
    end.

(** The count of [REBTYPE(Word)] for [SYM_LENGTH]. *)
Fixpoint length_loop (bytes : list Z) (fuel : nat) : Checked Word_Error Z :=
  match fuel with
  | O => Done 0
  | S fuel' =>
      match bytes with
      | [] => Done 0
      | b :: rest =>
          let+ rest' :=
            if b <? 128 then Done rest
            else match Back_Scan_UTF8_Char bytes with
                 | Some (_, k) => Done (drop k rest)
                 | None => Raised Error_Bad_Utf8_Raw
                 end in
          let+ len := length_loop rest' fuel' in
          Done (len + 1)
      end
  end.

Definition length_of_word (spelling : list Z) : Checked Word_Error Z :=
  length_loop spelling (length spelling).

(** *** Properties *)

Lemma pick_loop_ascii (bytes : list Z) (n : nat) :
  Forall (fun b => 0 <= b < 128) bytes ->
  pick_loop bytes n = Done (match bytes !! n with
                            | Some c => R_OUT_CHAR c
                            | None => R_NULL
                            end).
Proof.
  intros H. revert n. induction H as [|b rest Hb Hrest IH]; intros n; [by destruct n|].
  assert (Hlt : (b <? 128) = true) by (apply Z.ltb_lt; lia).
  destruct n as [|n']; cbn; rewrite Hlt; cbn; [done | apply IH].
Qed.

Lemma length_loop_ascii (bytes : list Z) (fuel : nat) :
  Forall (fun b => 0 <= b < 128) bytes -> (length bytes <= fuel)%nat ->
  length_loop bytes fuel = Done (Z.of_nat (length bytes)).
Proof.
  intros H. revert fuel. induction H as [|b rest Hb Hrest IH]; intros fuel Hf.
  - by destruct fuel.
  - destruct fuel as [|fuel']; [cbn in Hf; lia|].
    assert (Hlt : (b <? 128) = true) by (apply Z.ltb_lt; lia).
    cbn -[Z.add Z.of_nat]; rewrite Hlt; cbn -[Z.add Z.of_nat].
    rewrite IH by (cbn in Hf; lia). cbn [cbind length]. f_equal. lia.
Qed.

(** X23.  For a word spelled in ASCII, LENGTH is the number of bytes of
    the spelling, and picking with an integer [i] gives the character at
    position [i], counted from 1, when [i] is between 1 and that length,
    and null for every other [i]: zero, a negative number, or a position
    past the end. *)
Theorem PD_Word_ascii (spelling : list Z) (i : Z) :
  Forall (fun b => 0 <= b < 128) spelling ->
  Int32 i = Ok i -> - 2 ^ 31 < i ->
  length_of_word spelling = Done (Z.of_nat (length spelling))
  /\ PD_Word spelling (Some i) false
     = Done (if (1 <=? i) && (i <=? Z.of_nat (length spelling))
             then match spelling !! Z.to_nat (i - 1) with
                  | Some c => R_OUT_CHAR c
                  | None => R_NULL
                  end
             else R_NULL)
  /\ (forall c, PD_Word spelling (Some i) false = Done (R_OUT_CHAR c) <->
                1 <= i <= Z.of_nat (length spelling)
                /\ spelling !! Z.to_nat (i - 1) = Some c).
Proof.
  intros Hascii Hi Hmin.
  assert (Hpick : PD_Word spelling (Some i) false
                  = Done (if (1 <=? i) && (i <=? Z.of_nat (length spelling))
                          then match spelling !! Z.to_nat (i - 1) with
                               | Some c => R_OUT_CHAR c
                               | None => R_NULL
                               end
                          else R_NULL)).
  { unfold PD_Word. rewrite Hi. cbn [lift cbind].
    destruct (Z.ltb_spec (i - 1) (- 2 ^ 31)); [lia|].
    destruct (Z.ltb_spec (i - 1) 0) as [Hneg|Hpos].
    - destruct (Z.leb_spec 1 i); [lia|done].
    - rewrite pick_loop_ascii by done.
      destruct (Z.leb_spec 1 i); [|lia]. cbn [andb].
      destruct (Z.leb_spec i (Z.of_nat (length spelling))); [done|].
      rewrite lookup_ge_None_2 by lia. done. }
  split; [|split; [exact Hpick|]].
  - unfold length_of_word. by apply length_loop_ascii.
  - intros c. rewrite Hpick.
    destruct (Z.leb_spec 1 i); cbn [andb].
    + destruct (Z.leb_spec i (Z.of_nat (length spelling))).
      * destruct (spelling !! Z.to_nat (i - 1)) as [c'|] eqn:Hc.
        -- split.
           ++ intros Heq. injection Heq as ->. split; [lia|done].
           ++ intros [_ Heq]. injection Heq as ->. done.
        -- split; [done | intros [_ ?]; done].
      * split; [done | lia].
    + split; [done | lia].
Qed.

End Spelling.

(** The bytes of [abc]; picking needs no decoder for them. *)
Definition sample_spelling : list Z := [97; 98; 99].

Lemma PD_Word_ascii_witness :
  length_of_word (fun _ => None) sample_spelling = Done 3
  /\ PD_Word (fun _ => None) Ok sample_spelling (Some 2) false
     = Done (R_OUT_CHAR 98)
  /\ (forall c,
        PD_Word (fun _ => None) Ok sample_spelling (Some 2) false
        = Done (R_OUT_CHAR c) <->
        1 <= 2 <= 3 /\ sample_spelling !! Z.to_nat (2 - 1) = Some c).
Proof.
  exact (PD_Word_ascii (fun _ => None) Ok sample_spelling 2
           ltac:(repeat constructor; lia) eq_refl
           ltac:(change (2 ^ 31) with 2147483648; lia)).
Defined.

End Word.

(** ** The host loop over many passes, and SIGINT (%host-main.c) *)

Module HostLoop.

Import HostMain.

Local Open Scope Z_scope.

(** The Ctrl-C state an observer should see: off while the console
    driver runs, on while an instruction runs. *)
Definition event_ok (e : Event) : bool :=
  match e with
  | Ev_Console ctrl_c _ _ _ => negb ctrl_c
  | Ev_Run ctrl_c _ _ => ctrl_c
  end.

(** The POSIX disposition of SIGINT: [sa_handler] of a [struct
    sigaction]. *)
Inductive sa_handler : Type :=
| SIG_DFL
| SIG_IGN
| Handle_Signal
| Other_Handler (id : positive).

Definition is_SIG_IGN (a : sa_handler) : bool :=
  match a with SIG_IGN => true | _ => false end.

(** The process state of the POSIX [Disable_Ctrl_C] and
    [Enable_Ctrl_C]: the global flag, the disposition of SIGINT the
    kernel holds, and the global [old_action]. *)
Record Signals : Type := mkSignals {
  enabled : bool;
  SIGINT_action : sa_handler;
  old_action : sa_handler
}.

(** [None] is a failed assertion. *)
Definition Disable_Ctrl_C (s : Signals) : option Signals :=
  if enabled s then
    let old := SIGINT_action s in
    Some (mkSignals false
            (if negb (is_SIG_IGN old) then SIG_IGN else SIGINT_action s)
            old)
  else None.

Definition Enable_Ctrl_C (s : Signals) : option Signals :=
  if enabled s then None
  else
    Some (mkSignals true
            (if negb (is_SIG_IGN (old_action s)) then Handle_Signal
             else SIGINT_action s)
            (old_action s)).

(** [n] passes of the loop of [main] that run an instruction:
    [Enable_Ctrl_C(); ...; Disable_Ctrl_C();]. *)
Fixpoint passes (n : nat) (s : Signals) : option Signals :=
  match n with
  | O => Some s
  | S n' =>
      match Enable_Ctrl_C s with
      | None => None
      | Some s1 =>
          match Disable_Ctrl_C s1 with
          | None => None
          | Some s2 => passes n' s2
          end
      end
  end.

Section Loop.

Variable host_console : Hooks -> REBVAL -> REBVAL -> Trapped.
Variable Run_Sandboxed_Code : bool -> Hooks -> REBVAL -> REBVAL * Hooks.
Variable host_console_error : REBVAL.

(** One pass, from the head of the loop or from the label [recover:]. *)
Definition step (at_head : bool) (h : Host) : Next * list Event :=
  if at_head
  then from_loop_head host_console Run_Sandboxed_Code host_console_error h
  else from_recover host_console Run_Sandboxed_Code host_console_error h.

Lemma step_discipline (at_head : bool) (h : Host) :
  ctrl_c_enabled h = false ->
  forallb event_ok (snd (step at_head h)) = true
  /\ match fst (step at_head h) with
     | Loop_Head h' | Recover h' => ctrl_c_enabled h' = false
     | Exit _ => True
     | Panic =>
         no_recover h = true
         /\ exists err,
              host_console (globals h) (code h) (result h) = Trapped_Error err
     end.
Proof.
  intros Hc. destruct h as [cc g sv nr cd rs]. cbn in Hc. subst cc.
  assert (Hstep : step at_head (mkHost false g sv nr cd rs)
                  = from_recover host_console Run_Sandboxed_Code
                      host_console_error (mkHost false g sv nr cd rs))
    by (by destruct at_head).
  rewrite Hstep. unfold from_recover.
  cbn [ctrl_c_enabled globals code result saved no_recover].
  destruct (host_console g cd rs) as [err|instr].
  - destruct nr; cbn; eauto.
  - destruct (rebDid_integer_q instr); [done|].
    destruct (rebDid_block_q instr); cbn;
      match goal with
      | |- context [Run_Sandboxed_Code ?a ?b ?c] =>
          destruct (Run_Sandboxed_Code a b c)
      end; done.
Qed.

(** X24.  Entered with Ctrl-C disabled, the loop keeps the discipline for
    as long as it runs, whatever the console driver and the instructions
    do: every call of the driver is made with Ctrl-C disabled and every
    instruction is run with Ctrl-C enabled. *)
Theorem host_loop_ctrl_c_discipline (fuel : nat) (at_head : bool) (h : Host) :
  ctrl_c_enabled h = false ->
  forallb event_ok
    (snd (run_loop host_console Run_Sandboxed_Code host_console_error
            fuel at_head h)) = true.
Proof.
  revert at_head h. induction fuel as [|fuel IH]; intros at_head h Hc; [done|].
  destruct (step_discipline at_head h Hc) as [Hevs Hnext].
  cbn [run_loop]. fold (step at_head h).
  destruct (step at_head h) as [next evs]. cbn [fst snd] in Hevs, Hnext.
  destruct next as [h'|h'|n|]; try done.
  - specialize (IH true h' Hnext).
    destruct (run_loop _ _ _ fuel true h') as [r evs'].
    cbn [snd] in *. rewrite forallb_app. by rewrite Hevs, IH.
  - specialize (IH false h' Hnext).
    destruct (run_loop _ _ _ fuel false h') as [r evs'].
    cbn [snd] in *. rewrite forallb_app. by rewrite Hevs, IH.
Qed.

(** X25.  With Ctrl-C disabled at its head, a pass of the loop panics
    exactly when the driver fails while no recovery is allowed; the
    assertions on the Ctrl-C state never fail.  A driver that fails, and
    fails again on the error report it is then given, ends the loop in a
    panic after those two calls, no instruction having been run. *)
Theorem host_loop_panics_on_second_error (h : Host) :
  ctrl_c_enabled h = false ->
  (fst (from_loop_head host_console Run_Sandboxed_Code host_console_error h)
   = Panic
   <-> no_recover h = true
       /\ exists err,
            host_console (globals h) (code h) (result h) = Trapped_Error err)
  /\ (forall e1 e2 fuel,
        no_recover h = false ->
        host_console (globals h) (code h) (result h) = Trapped_Error e1 ->
        host_console (globals h) host_console_error e1 = Trapped_Error e2 ->
        run_loop host_console Run_Sandboxed_Code host_console_error
          (S (S fuel)) true h
        = (None,
           [Ev_Console false (globals h) (code h) (result h);
            Ev_Console false (globals h) host_console_error e1])).
Proof.
  intros Hc. split.
  - split.
    + intros Hp. pose proof (step_discipline true h Hc) as [_ Hnext].
      unfold step in Hnext. by rewrite Hp in Hnext.
    + intros [Hnr [err Herr]].
      destruct h as [cc g sv nr cd rs]. cbn in *. subst.
      unfold from_loop_head, from_recover. cbn. by rewrite Herr.
  - intros e1 e2 fuel Hnr H1 H2.
    destruct h as [cc g sv nr cd rs]. cbn in *. subst.
    unfold from_loop_head, from_recover. cbn. rewrite H1. cbn. by rewrite H2.
Qed.

End Loop.

Lemma passes_ignore (n : nat) (s : Signals) :
  enabled s = false -> SIGINT_action s = SIG_IGN ->
  exists s', passes n s = Some s' /\ enabled s' = false
             /\ SIGINT_action s' = SIG_IGN
             /\ is_SIG_IGN (old_action s') = is_SIG_IGN (old_action s).
Proof.
  revert s. induction n as [|n IH]; intros [en act old] He Ha; cbn in He, Ha;
    subst; [by eexists|].
  cbn [passes Enable_Ctrl_C Disable_Ctrl_C enabled old_action SIGINT_action].
  destruct (is_SIG_IGN old) eqn:Hold; cbn [negb is_SIG_IGN].
  - destruct (IH (mkSignals false SIG_IGN SIG_IGN)) as (s' & ? & ? & ? & Ho);
      [done..|]. exists s'. cbn in Ho. by rewrite Ho.
  - destruct (IH (mkSignals false SIG_IGN Handle_Signal)) as (s' & ? & ? & ? & Ho);
      [done..|]. exists s'. cbn in Ho. by rewrite Ho.
Qed.

(** X26.  On POSIX, after the first [Disable_Ctrl_C] of [main] and any
    number of passes that run an instruction, SIGINT is ignored while the
    console is on the stack; the next [Enable_Ctrl_C] installs the
    handler of the interpreter, unless SIGINT was ignored when the
    process started, in which case it stays ignored. *)
Theorem Ctrl_C_respects_ignored_SIGINT (n : nat) (s : Signals) :
  enabled s = true ->
  exists s0 sn se,
    Disable_Ctrl_C s = Some s0
    /\ passes n s0 = Some sn
    /\ enabled sn = false /\ SIGINT_action sn = SIG_IGN
    /\ Enable_Ctrl_C sn = Some se
    /\ enabled se = true
    /\ SIGINT_action se
       = (if is_SIG_IGN (SIGINT_action s) then SIG_IGN else Handle_Signal).
Proof.
  intros He. destruct s as [en act old]. cbn in He. subst en.
  pose (s0 := mkSignals false
                (if negb (is_SIG_IGN act) then SIG_IGN else act) act).
  assert (Hact : SIGINT_action s0 = SIG_IGN) by (by destruct act).
  destruct (passes_ignore n s0 eq_refl Hact) as (sn & Hp & Hen & Hsn & Hold).
  exists s0, sn. eexists. split; [done|]. split; [done|].
  split; [done|]. split; [done|].
  unfold Enable_Ctrl_C. rewrite Hen. split; [done|]. split; [done|].
  cbn [SIGINT_action]. rewrite Hold, Hsn. cbn [s0 old_action].
  by destruct (is_SIG_IGN act).
Qed.

(** A driver that fails on every call. *)
Definition failing_console (g : Hooks) (code result : REBVAL) : Trapped :=
  Trapped_Error (mkVal REB_ERROR 0).

Lemma host_loop_ctrl_c_discipline_witness :
  forallb event_ok
    (snd (run_loop stub_console stub_sandbox (mkVal REB_BLOCK 9) 3 true host0))
  = true.
Proof.
  exact (host_loop_ctrl_c_discipline stub_console stub_sandbox
           (mkVal REB_BLOCK 9) 3 true host0 eq_refl).
Defined.

Lemma host_loop_panics_on_second_error_witness :
  run_loop failing_console stub_sandbox (mkVal REB_BLOCK 9) 2 true host0
  = (None,
     [Ev_Console false core_hooks (mkVal REB_BLANK 0) (mkVal REB_BLOCK 0);
      Ev_Console false core_hooks (mkVal REB_BLOCK 9) (mkVal REB_ERROR 0)]).
Proof.
  exact (proj2 (host_loop_panics_on_second_error failing_console stub_sandbox
                  (mkVal REB_BLOCK 9) host0 eq_refl)
           (mkVal REB_ERROR 0) (mkVal REB_ERROR 0) O eq_refl eq_refl eq_refl).
Defined.

Lemma Ctrl_C_respects_ignored_SIGINT_witness :
  exists s0 sn se,
    Disable_Ctrl_C (mkSignals true SIG_IGN SIG_DFL) = Some s0
    /\ passes 2 s0 = Some sn
    /\ enabled sn = false /\ SIGINT_action sn = SIG_IGN
    /\ Enable_Ctrl_C sn = Some se
    /\ enabled se = true
    /\ SIGINT_action se = SIG_IGN.
Proof.
  exact (Ctrl_C_respects_ignored_SIGINT 2 (mkSignals true SIG_IGN SIG_DFL)
           eq_refl).
Defined.

End HostLoop.

(** ** SAVE: what is written (%mezz-save.r) *)

Module SaveOps.

Import Save.

Section Output.

Variable Value : Type.
Variable Block : Type.
Variable mold_only : bool -> Value -> string.
Variable to_binary : string -> list Z.
Variable checksum_secure : list Z -> Value.
Variable gzip : Data -> list Z.
Variable mold64 : Data -> string.
Variable length_of : Data -> Value.
Variable find_word : Block -> string -> option nat.
Variable change_at : Block -> nat -> Value -> Result Block.
Variable header_text : Block -> string.

(** The serialization of SAVE over these natives. *)
Definition serialized (cfg : Settings Block) (value : Value)
  : Result (State Value Block) :=
  serialize Value Block mold_only to_binary checksum_secure gzip mold64
    length_of find_word change_at header_text cfg value.

(** The bytes of the body: of the base-64 text for the method [script],
    and otherwise of the body as the compression step left it. *)
Definition body_bytes (cfg : Settings Block) (value : Value) : list Z :=
  let body := body_for_mold64 Value Block mold_only to_binary gzip find_word
                cfg value in
  if method_is_script (method _ cfg) then to_binary (mold64 body)
  else match body with
       | D_binary bytes => bytes
       | D_text chars => to_binary chars
       end.

(** *** Properties *)

(** X27.  Whenever the serialization of SAVE completes, what it hands
    over is a BINARY!: the bytes of the body, behind the bytes of the
    header text when there is a header.  The header is molded last, as
    the steps before left it; with /LENGTH, the last change made to it
    stores after the word [length] the length of the body bytes alone,
    the header not counted. *)
Theorem serialize_binary_behind_header
    (cfg : Settings Block) (value : Value) (st : State Value Block) :
  serialized cfg value = Ok st ->
  st_data _ _ st
  = D_binary (match st_header _ _ st with
              | Some hdr => to_binary (header_text hdr) ++ body_bytes cfg value
              | None => body_bytes cfg value
              end)
  /\ (st_header _ _ st = None <-> header_data _ cfg = None)
  /\ (length_requested _ cfg = true ->
      exists hdr i hdr',
        find_word hdr "length"%string = Some i
        /\ change_at hdr (S i) (length_of (D_binary (body_bytes cfg value)))
           = Ok hdr'
        /\ st_header _ _ st = Some hdr'
        /\ last (st_trace _ _ st)
           = Some (Ev_change _ _ hdr (S i)
                     (length_of (D_binary (body_bytes cfg value))))).
Proof.
  unfold serialized, serialize. intros Hrun.
  apply bind_Ok in Hrun as (st1 & H1 & Hrun).
  apply bind_Ok in Hrun as (st2 & H2 & Hrun).
  apply bind_Ok in Hrun as (st3 & H3 & Hrun).
  apply bind_Ok in Hrun as (st4 & H4 & Hrun).
  apply bind_Ok in Hrun as (st5 & H5 & H6).
  assert (E1 : st_data _ _ st1
               = body_for_gzip Value Block mold_only to_binary find_word cfg value
               /\ (st_header _ _ st1 = None <-> header_data _ cfg = None)).
  { unfold branch_checksum, body_for_gzip, checksum_index in *.
    cbn [st_header st_data st_trace] in H1.
    destruct (header_data _ cfg) as [hdr|]; [|by injection H1 as <-].
    destruct (find_word hdr "checksum"%string) as [tmp|];
      [|by injection H1 as <-].
    apply bind_Ok in H1 as (hdr' & _ & H1). injection H1 as <-. cbn.
    split; [done|]. split; done. }
  destruct E1 as [D1 N1].
  assert (E2 : st_data _ _ st2
               = body_for_mold64 Value Block mold_only to_binary gzip find_word
                   cfg value
               /\ st_header _ _ st2 = st_header _ _ st1).
  { unfold branch_compress, body_for_mold64 in *.
    destruct (compress _ cfg); injection H2 as <-; cbn; by rewrite ?D1. }
  destruct E2 as [D2 N2].
  assert (E4 : st_data _ _ st4 = D_binary (body_bytes cfg value)
               /\ st_header _ _ st4 = st_header _ _ st1).
  { unfold branch_script, branch_to_binary, body_bytes in *.
    destruct (method_is_script (method _ cfg)); injection H3 as <-;
      cbn [st_data st_header] in H4.
    - injection H4 as <-. cbn. by rewrite D2.
    - rewrite D2 in H4.
      destruct (body_for_mold64 _ _ _ _ _ _ cfg value);
        injection H4 as <-; cbn; by rewrite ?D2. }
  destruct E4 as [D4 N4].
  assert (E5 : st_data _ _ st5 = D_binary (body_bytes cfg value)
               /\ (st_header _ _ st5 = None <-> header_data _ cfg = None)
               /\ (length_requested _ cfg = true ->
                   exists hdr i hdr',
                     find_word hdr "length"%string = Some i
                     /\ change_at hdr (S i)
                          (length_of (D_binary (body_bytes cfg value)))
                        = Ok hdr'
                     /\ st_header _ _ st5 = Some hdr'
                     /\ last (st_trace _ _ st5)
                        = Some (Ev_change _ _ hdr (S i)
                                  (length_of (D_binary (body_bytes cfg value)))))).
  { unfold branch_length in *.
    destruct (length_requested _ cfg).
    - destruct (st_header _ _ st4) as [hdr|] eqn:Hh; [|done].
      destruct (find_word hdr "length"%string) as [i|] eqn:Hf; [|done].
      apply bind_Ok in H5 as (hdr' & Hc & H5). injection H5 as <-. cbn.
      rewrite D4 in *. split; [done|]. split.
      + split; [done|]. intros Hn. apply N1 in Hn. congruence.
      + intros _. exists hdr, i, hdr'. split; [done|]. split; [done|].
        split; [done|]. by rewrite last_snoc.
    - injection H5 as <-. rewrite N4. split; [done|]. split; [done|]. done. }
  destruct E5 as (D5 & N5 & L5).
  unfold branch_header in H6. revert N5 L5 H6.
  destruct (st_header _ _ st5) as [hdr|] eqn:Hh; intros N5 L5 H6.
  - rewrite D5 in H6. by injection H6 as <-.
  - injection H6 as <-. by rewrite Hh, D5.
Qed.

End Output.

Lemma serialize_binary_behind_header_witness :
  D_binary ([82; 69; 66; 79; 76; 32; 91; 93] ++ [31; 97; 98; 10])%Z
  = D_binary
      (sample_to_binary "REBOL []"
       ++ body_bytes string (list string) (fun _ v => v) sample_to_binary
            sample_gzip (fun _ => "64"%string) sample_find
            sample_settings "ab"%string).
Proof.
  exact (proj1 (serialize_binary_behind_header string (list string)
                  (fun _ v => v) sample_to_binary (fun _ => "hash"%string)
                  sample_gzip (fun _ => "64"%string) (fun _ => "0"%string)
                  sample_find sample_change (fun _ => "REBOL []"%string)
                  sample_settings "ab"%string _ eq_refl)).
Defined.

End SaveOps.
(** ** Voidification (%sys-value.h) *)

Module Voidify.

Import Truthy.

Definition IS_NULLED (v : RELVAL) : bool := kind_eqb (VAL_TYPE v) REB_MAX_NULLED.
Definition IS_BLANK (v : RELVAL) : bool := kind_eqb (VAL_TYPE v) REB_BLANK.

(** [NULLIZE(cell)]: [None] is [nullptr]. *)
Definition NULLIZE (cell : RELVAL) : option RELVAL :=
  if kind_eqb (VAL_TYPE cell) REB_MAX_NULLED then None else Some cell.

(** [Voidify_If_Nulled(cell)] and [Voidify_If_Nulled_Or_Blank(cell)]: the
    cell as the call leaves it. *)
Definition Voidify_If_Nulled (cell : RELVAL) : RELVAL :=
  if IS_NULLED cell then Init_Void cell else cell.

Definition Voidify_If_Nulled_Or_Blank (cell : RELVAL) : RELVAL :=
  if IS_NULLED cell || IS_BLANK cell then Init_Void cell else cell.

(** *** Properties *)

(** X28.  A voidified cell is never a nulled cell, so [NULLIZE] hands it
    back and not a null pointer.  Voidification turns the falsey nulled
    cell (and, in its second form, the falsey BLANK!) into a cell on
    which the truth test fails with the Void-Conditional error instead of
    answering false; every other cell is left as it is, with its truth
    test.  Voidifying blanks after nulls is the same as voidifying both
    at once. *)
Theorem Voidify_truth_test (cell : RELVAL) :
  NULLIZE (Voidify_If_Nulled cell) = Some (Voidify_If_Nulled cell)
  /\ NULLIZE (Voidify_If_Nulled_Or_Blank cell)
     = Some (Voidify_If_Nulled_Or_Blank cell)
  /\ Voidify_If_Nulled_Or_Blank (Voidify_If_Nulled cell)
     = Voidify_If_Nulled_Or_Blank cell
  /\ IS_TRUTHY (Voidify_If_Nulled cell)
     = (if IS_NULLED cell then Fail Error_Void_Conditional_Raw
        else IS_TRUTHY cell)
  /\ IS_TRUTHY (Voidify_If_Nulled_Or_Blank cell)
     = (if IS_NULLED cell || IS_BLANK cell then Fail Error_Void_Conditional_Raw
        else IS_TRUTHY cell)
  /\ (IS_NULLED cell || IS_BLANK cell = false ->
      Voidify_If_Nulled_Or_Blank cell = cell).
Proof.
  destruct cell as [k f u p].
  unfold NULLIZE, Voidify_If_Nulled, Voidify_If_Nulled_Or_Blank, IS_NULLED,
    IS_BLANK, VAL_TYPE.
  destruct k; cbn; repeat split; try done; by intros _.
Qed.

End Voidify.
